(** * mkdocs_build_plantuml: a shallow embedding of [plantuml.py]

    The plugin walks the diagram roots, flattens include directives of every
    PlantUML source, encodes the flattened text for the PlantUML server and
    renders each diagram twice (normal and dark), skipping outputs that are
    newer than their sources.

    Python values are modelled as follows.
    - [str] is a list of Unicode code points, [bytes] a list of [byte].
    - Modification times ([st_mtime]) are integers in a fixed unit; the
      program only compares them.
    - Python list objects live in a heap of locations, so that aliasing
      between [diagram.src_file] and its copy is visible.
    - Every function that prints, touches the file system, mutates the
      diagram object or raises is a computation in the monad [M], which threads
      the program state and carries the raised exception.
    - The file system maps a path, as the program writes it, to a text file
      or a directory; a file holds its text as Python reads it in text mode.
    - What lies outside the program ([pathlib], zlib, httplib2, lxml, the
      PlantUML executable, the directory walk) is an interface: [PathOps]
      and [Env].
    - The nesting of includes is bounded by a [depth], which stands for the
      recursion limit of the interpreter. *)

From Stdlib Require Import ZArith NArith List Ascii String Lia Bool DecimalString.
From Stdlib.Strings Require Import Byte.
From stdpp Require Import base option list gmap.

Local Open Scope N_scope.

(** ** Python strings *)

Abbreviation str := (list N).
Abbreviation bytes := (list byte).

(** A string literal of the source, as code points. *)
Definition py (s : string) : str := List.map N_of_ascii (list_ascii_of_string s).

(** The characters [str.strip] removes and [\s] matches for [str] patterns
    (CPython's [Py_UNICODE_ISSPACE]). *)
Definition is_space (c : N) : bool :=
  ((9 <=? c) && (c <=? 13)) || ((28 <=? c) && (c <=? 32)) || (c =? 133) || (c =? 160)
  || (c =? 5760) || ((8192 <=? c) && (c <=? 8202)) || (c =? 8232) || (c =? 8233)
  || (c =? 8239) || (c =? 8287) || (c =? 12288).

Fixpoint lstrip (s : str) : str :=
  match s with
  | c :: t => if is_space c then lstrip t else s
  | [] => []
  end.

Definition rstrip (s : str) : str := rev (lstrip (rev s)).
Definition strip (s : str) : str := rstrip (lstrip s).

Definition str_eqb (a b : str) : bool := bool_decide (a = b).

Fixpoint startswith (p s : str) : bool :=
  match p, s with
  | [], _ => true
  | a :: p', b :: s' => (a =? b) && startswith p' s'
  | _ :: _, [] => false
  end.

Definition endswith (p s : str) : bool := startswith (rev p) (rev s).

(** [s.split(sep)] for a separator of one character. *)
Fixpoint str_split (sep : N) (s : str) : list str :=
  match s with
  | [] => [[]]
  | c :: t =>
      if c =? sep then [] :: str_split sep t
      else match str_split sep t with
           | w :: ws => (c :: w) :: ws
           | [] => [[c]]
           end
  end.

(** The longest prefix without white space, and the rest. *)
Fixpoint span_word (s : str) : str * str :=
  match s with
  | c :: t => if is_space c then ([], s) else let '(w, r) := span_word t in (c :: w, r)
  | [] => ([], [])
  end.

(** [s.split(maxsplit=1)]: split on white space, once. *)
Definition split_maxsplit1 (s : str) : list str :=
  match lstrip s with
  | [] => []
  | s1 => let '(w, r) := span_word s1 in
          match lstrip r with
          | [] => [w]
          | r' => [w; r']
          end
  end.

(** [s.rsplit()]: the words of [s] (it equals [s.split()] without a bound). *)
Fixpoint words_aux (fuel : nat) (s : str) : list str :=
  match fuel with
  | O => []
  | S n => match lstrip s with
           | [] => []
           | s1 => let '(w, r) := span_word s1 in w :: words_aux n r
           end
  end.
Definition rsplit_ws (s : str) : list str := words_aux (S (length s)) s.

(** [s.replace(old, new)], all occurrences from the left, not overlapping. *)
Fixpoint replace_from (old new : str) (skip : nat) (s : str) : str :=
  match s with
  | [] => []
  | c :: t =>
      match skip with
      | S k => replace_from old new k t
      | O => if startswith old s
             then new ++ replace_from old new (length old - 1) t
             else c :: replace_from old new O t
      end
  end.

Definition replace (old new s : str) : str :=
  match old with
  | [] => new ++ concat (List.map (fun c => c :: new) s)
  | _ => replace_from old new O s
  end.

(** [s.rfind(c)] for one character: the last index, [None] for -1. *)
Fixpoint find_from (c : N) (i : nat) (s : str) (last : option nat) : option nat :=
  match s with
  | [] => last
  | d :: t => find_from c (S i) t (if d =? c then Some i else last)
  end.
Definition rfind (c : N) (s : str) : option nat := find_from c O s None.

(** [f.readlines()]: the text cut after every line feed. *)
Fixpoint readlines_aux (cur : str) (s : str) : list str :=
  match s with
  | [] => match cur with [] => [] | _ => [rev cur] end
  | c :: t => if c =? 10 then rev (c :: cur) :: readlines_aux [] t
              else readlines_aux (c :: cur) t
  end.
Definition readlines (s : str) : list str := readlines_aux [] s.

(** ** Regular expressions

    The patterns of the source are matched by derivatives; [lang] is the
    language of a pattern, and [fullmatch_lang] relates the two. *)

Module Re.

Inductive regex :=
| Void
| Eps
| Chr (c : N)
| Space                       (* \s *)
| NonSpace                    (* \S *)
| Cat (r1 r2 : regex)
| Alt (r1 r2 : regex)
| Star (r : regex).

Fixpoint Lit (s : str) : regex :=
  match s with
  | [] => Eps
  | c :: t => Cat (Chr c) (Lit t)
  end.

Definition Plus (r : regex) : regex := Cat r (Star r).

Fixpoint nullable (r : regex) : bool :=
  match r with
  | Void | Chr _ | Space | NonSpace => false
  | Eps | Star _ => true
  | Cat r1 r2 => nullable r1 && nullable r2
  | Alt r1 r2 => nullable r1 || nullable r2
  end.

Fixpoint deriv (c : N) (r : regex) : regex :=
  match r with
  | Void | Eps => Void
  | Chr d => if c =? d then Eps else Void
  | Space => if is_space c then Eps else Void
  | NonSpace => if is_space c then Void else Eps
  | Cat r1 r2 =>
      if nullable r1 then Alt (Cat (deriv c r1) r2) (deriv c r2)
      else Cat (deriv c r1) r2
  | Alt r1 r2 => Alt (deriv c r1) (deriv c r2)
  | Star r1 => Cat (deriv c r1) (Star r1)
  end.

(** The whole of [s] matches [r]. *)
Fixpoint fullmatch (r : regex) (s : str) : bool :=
  match s with
  | [] => nullable r
  | c :: t => fullmatch (deriv c r) t
  end.

(** [re.match(r, s)] for a pattern without [$]: some prefix of [s] matches. *)
Fixpoint prefixmatch (r : regex) (s : str) : bool :=
  nullable r ||
  match s with
  | [] => false
  | c :: t => prefixmatch (deriv c r) t
  end.

(** [re.match(r"^...$", s)]: [$] is the end of the string, or the position
    before a line feed that ends it. *)
Definition match_dollar (r : regex) (s : str) : bool :=
  fullmatch r s ||
  match rev s with
  | c :: t => (c =? 10) && fullmatch r (rev t)
  | [] => false
  end.

Inductive lang : regex -> str -> Prop :=
| L_eps : lang Eps []
| L_chr c : lang (Chr c) [c]
| L_space c : is_space c = true -> lang Space [c]
| L_nonspace c : is_space c = false -> lang NonSpace [c]
| L_cat r1 r2 s1 s2 : lang r1 s1 -> lang r2 s2 -> lang (Cat r1 r2) (s1 ++ s2)
| L_alt_l r1 r2 s : lang r1 s -> lang (Alt r1 r2) s
| L_alt_r r1 r2 s : lang r2 s -> lang (Alt r1 r2) s
| L_star_nil r : lang (Star r) []
| L_star_app r s1 s2 : lang r s1 -> lang (Star r) s2 -> lang (Star r) (s1 ++ s2).

End Re.
Import Re.

Create HintDb re.
#[export] Hint Constructors lang : re.

(** The patterns of the source. *)

(* r"^!include" *)
Definition re_include_prefix : regex := Lit (py "!include").
(* r"^!includeurl\s+\S+\s*$" *)
Definition re_includeurl : regex :=
  Cat (Lit (py "!includeurl")) (Cat (Plus Space) (Cat (Plus NonSpace) (Star Space))).
(* r"^!includesub\s+\S+\s*$" *)
Definition re_includesub : regex :=
  Cat (Lit (py "!includesub")) (Cat (Plus Space) (Cat (Plus NonSpace) (Star Space))).
(* r"^!include\s+\S+\s*$" *)
Definition re_include : regex :=
  Cat (Lit (py "!include")) (Cat (Plus Space) (Cat (Plus NonSpace) (Star Space))).
(* r"^!startsub\s+" + re.escape(inc_sub_name) + r"\s*$" *)
Definition re_startsub (inc_sub_name : str) : regex :=
  Cat (Lit (py "!startsub")) (Cat (Plus Space) (Cat (Lit inc_sub_name) (Star Space))).
(* r"^!endsub\s*$" *)
Definition re_endsub : regex := Cat (Lit (py "!endsub")) (Star Space).
(* r"^@enduml\s*$" *)
Definition re_enduml : regex := Cat (Lit (py "@enduml")) (Star Space).

(** ** Exceptions

    The exception classes the program can meet. All of them derive from
    [Exception], so [except Exception] catches every one; [LibraryError]
    stands for what zlib, httplib2, lxml, subprocess or the operating
    system raise otherwise. *)

Inductive exn :=
| Exception (msg : str)
| RuntimeError (msg : str)
| TypeError (msg : str)
| AttributeError (msg : str)
| FileNotFoundError (path : str)
| IsADirectoryError (path : str)
| FileExistsError (path : str)
| ShutilError (msg : str)
| RecursionError
| UnicodeEncodeError (pos : nat)
| UnicodeDecodeError
| LibraryError (msg : str).

(** [str(e)]. *)
Definition exn_str (e : exn) : str :=
  match e with
  | Exception m | RuntimeError m | TypeError m | AttributeError m
  | ShutilError m | LibraryError m => m
  | FileNotFoundError p => py "[Errno 2] No such file or directory: '" ++ p ++ py "'"
  | IsADirectoryError p => py "[Errno 21] Is a directory: '" ++ p ++ py "'"
  | FileExistsError p => py "[Errno 17] File exists: '" ++ p ++ py "'"
  | RecursionError => py "maximum recursion depth exceeded"
  | UnicodeEncodeError _ => py "'utf-8' codec can't encode character: surrogates not allowed"
  | UnicodeDecodeError => py "'utf-8' codec can't decode byte"
  end.

Definition is_FileNotFoundError (e : exn) : bool :=
  match e with FileNotFoundError _ => true | _ => false end.

(** ** Bytes, UTF-8 and base64 *)

Definition byte_of (n : N) : byte := default x00 (Byte.of_N n).

(** The UTF-8 encoding of one code point; surrogates have none. *)
Definition utf8_char (c : N) : option bytes :=
  if c <? 0x80 then Some [byte_of c]
  else if c <? 0x800 then Some [byte_of (0xC0 + c / 64); byte_of (0x80 + c mod 64)]
  else if c <? 0x10000 then
    if (0xD800 <=? c) && (c <=? 0xDFFF) then None
    else Some [byte_of (0xE0 + c / 4096); byte_of (0x80 + (c / 64) mod 64);
               byte_of (0x80 + c mod 64)]
  else if c <? 0x110000 then
    Some [byte_of (0xF0 + c / 262144); byte_of (0x80 + (c / 4096) mod 64);
          byte_of (0x80 + (c / 64) mod 64); byte_of (0x80 + c mod 64)]
  else None.

(** [s.encode("utf-8")]. *)
Fixpoint utf8_encode_from (pos : nat) (s : str) : exn + bytes :=
  match s with
  | [] => inr []
  | c :: t =>
      match utf8_char c with
      | None => inl (UnicodeEncodeError pos)
      | Some bs => match utf8_encode_from (S pos) t with
                   | inl e => inl e
                   | inr r => inr (bs ++ r)
                   end
      end
  end.
Definition utf8_encode (s : str) : exn + bytes := utf8_encode_from O s.

(** The payload of a continuation byte 10xxxxxx. *)
Definition cont (b : byte) : option N :=
  let n := Byte.to_N b in
  if (0x80 <=? n) && (n <? 0xC0) then Some (n - 0x80) else None.

(** [b.decode("utf-8")], strict: no overlong form, no surrogate, nothing
    above U+10FFFF. *)
Fixpoint utf8_decode (bs : bytes) : option str :=
  match bs with
  | [] => Some []
  | b1 :: t1 =>
      let n1 := Byte.to_N b1 in
      if n1 <? 0x80 then cons n1 <$> utf8_decode t1
      else if n1 <? 0xC0 then None
      else if n1 <? 0xE0 then
        match t1 with
        | b2 :: t2 =>
            match cont b2 with
            | Some k2 =>
                let c := (n1 - 0xC0) * 64 + k2 in
                if 0x80 <=? c then cons c <$> utf8_decode t2 else None
            | None => None
            end
        | _ => None
        end
      else if n1 <? 0xF0 then
        match t1 with
        | b2 :: b3 :: t3 =>
            match cont b2, cont b3 with
            | Some k2, Some k3 =>
                let c := (n1 - 0xE0) * 4096 + k2 * 64 + k3 in
                if (0x800 <=? c) && negb ((0xD800 <=? c) && (c <=? 0xDFFF))
                then cons c <$> utf8_decode t3 else None
            | _, _ => None
            end
        | _ => None
        end
      else if n1 <? 0xF8 then
        match t1 with
        | b2 :: b3 :: b4 :: t4 =>
            match cont b2, cont b3, cont b4 with
            | Some k2, Some k3, Some k4 =>
                let c := (n1 - 0xF0) * 262144 + k2 * 4096 + k3 * 64 + k4 in
                if (0x10000 <=? c) && (c <? 0x110000)
                then cons c <$> utf8_decode t4 else None
            | _, _, _ => None
            end
        | _ => None
        end
      else None
  end.

Definition decode_utf8 (bs : bytes) : exn + str :=
  match utf8_decode bs with
  | Some s => inr s
  | None => inl UnicodeDecodeError
  end.

(** The bytes of an ASCII literal. *)
Definition pyb (s : string) : bytes := List.map byte_of_ascii (list_ascii_of_string s).

(** [string.digits], [string.ascii_uppercase], [string.ascii_lowercase]. *)
Definition digits : string := "0123456789".
Definition ascii_uppercase : string := "ABCDEFGHIJKLMNOPQRSTUVWXYZ".
Definition ascii_lowercase : string := "abcdefghijklmnopqrstuvwxyz".

Definition plantuml_alphabet : string :=
  (digits ++ ascii_uppercase ++ ascii_lowercase ++ "-_")%string.
Definition base64_alphabet : string :=
  (ascii_uppercase ++ ascii_lowercase ++ digits ++ "+/")%string.

(** [bytes.maketrans(frm, to)]: the table of 256 bytes that sends [frm[i]]
    to [to[i]] and every other byte to itself. *)
Definition identity_table : list byte :=
  List.map (fun n => byte_of (N.of_nat n)) (seq 0 256).
Definition maketrans (frm to : bytes) : list byte :=
  fold_left (fun tbl ab => <[N.to_nat (Byte.to_N ab.1) := ab.2]> tbl)
            (zip frm to) identity_table.

(** [b.translate(table)]. *)
Definition translate (table : list byte) (b : bytes) : bytes :=
  List.map (fun x => nth (N.to_nat (Byte.to_N x)) table x) b.

Definition b64_to_plantuml : list byte :=
  maketrans (pyb base64_alphabet) (pyb plantuml_alphabet).

(** [base64.b64encode] (RFC 4648, standard alphabet, padded). *)
Definition rfc4648_alphabet : bytes :=
  pyb "ABCDEFGHIJKLMNOPQRSTUVWXYZabcdefghijklmnopqrstuvwxyz0123456789+/".
Definition b64_char (n : N) : byte := nth (N.to_nat n) rfc4648_alphabet x00.
Definition pad : byte := "="%byte.

Fixpoint b64encode (bs : bytes) : bytes :=
  match bs with
  | [] => []
  | [x] =>
      let a := Byte.to_N x in
      [b64_char (a / 4); b64_char ((a mod 4) * 16); pad; pad]
  | [x; y] =>
      let a := Byte.to_N x in let b := Byte.to_N y in
      [b64_char (a / 4); b64_char ((a mod 4) * 16 + b / 16);
       b64_char ((b mod 16) * 4); pad]
  | x :: y :: z :: t =>
      let a := Byte.to_N x in let b := Byte.to_N y in let c := Byte.to_N z in
      b64_char (a / 4) :: b64_char ((a mod 4) * 16 + b / 16)
        :: b64_char ((b mod 16) * 4 + c / 64) :: b64_char (c mod 64) :: b64encode t
  end.

(** [b[2:-4]]. *)
Definition slice_2_m4 (b : bytes) : bytes := drop 2 (take (length b - 4) b).

(** The encoding step of [_readFile] (the body of its [try]), for the
    compressor [zlib_compress]. *)
Definition plantuml_encode (zlib_compress : bytes -> exn + bytes) (temp_file : str)
  : exn + str :=
  match utf8_encode temp_file with
  | inl e => inl e
  | inr data =>
      match zlib_compress data with
      | inl e => inl e
      | inr compressed_str =>
          let compressed_string := slice_2_m4 compressed_str in
          decode_utf8 (translate b64_to_plantuml (b64encode compressed_string))
      end
  end.

(** *** The inverse transform

    The decoder is not part of the source; it is the inverse the
    specification names: the inverse alphabet map, base64 decoding, and
    inflating the raw deflate stream. *)

Definition plantuml_to_b64 : list byte :=
  maketrans (pyb plantuml_alphabet) (pyb base64_alphabet).

Fixpoint index_of (x : byte) (l : bytes) : option N :=
  match l with
  | [] => None
  | y :: t => if Byte.eqb x y then Some 0 else N.succ <$> index_of x t
  end.
Definition b64_index (x : byte) : option N := index_of x rfc4648_alphabet.

Fixpoint b64decode (cs : bytes) : option bytes :=
  match cs with
  | [] => Some []
  | c1 :: c2 :: c3 :: c4 :: t =>
      if Byte.eqb c4 pad then
        match t with
        | [] =>
            if Byte.eqb c3 pad then
              match b64_index c1, b64_index c2 with
              | Some s1, Some s2 => Some [byte_of (s1 * 4 + s2 / 16)]
              | _, _ => None
              end
            else
              match b64_index c1, b64_index c2, b64_index c3 with
              | Some s1, Some s2, Some s3 =>
                  Some [byte_of (s1 * 4 + s2 / 16); byte_of ((s2 mod 16) * 16 + s3 / 4)]
              | _, _, _ => None
              end
        | _ => None
        end
      else
        match b64_index c1, b64_index c2, b64_index c3, b64_index c4 with
        | Some s1, Some s2, Some s3, Some s4 =>
            (fun r => byte_of (s1 * 4 + s2 / 16) :: byte_of ((s2 mod 16) * 16 + s3 / 4)
                        :: byte_of ((s3 mod 4) * 64 + s4) :: r) <$> b64decode t
        | _, _, _, _ => None
        end
  | _ => None
  end.

(** The raw deflate stream a token holds. *)
Definition token_raw (token : str) : option bytes :=
  match utf8_encode token with
  | inl _ => None
  | inr tb => b64decode (translate plantuml_to_b64 tb)
  end.

Definition plantuml_decode (inflate : bytes -> option bytes) (token : str) : option str :=
  raw ← token_raw token;
  data ← inflate raw;
  utf8_decode data.

(** ** Configuration, diagram objects and the program state *)

(** [BuildPlantumlPluginConfig]. *)
Record Config := {
  render : str;
  server : str;
  disable_ssl_certificate_validation : bool;
  bin_path : str;
  output_format : str;
  allow_multiple_roots : bool;
  diagram_root : str;
  output_folder : str;
  output_in_dir : bool;
  input_folder : str;
  input_extensions : str;
  theme_enabled : bool;
  theme_folder : str;
  theme_light : str;
  theme_dark : str;
  prettify_svg : bool
}.

(** The configuration with one option changed. *)
Definition with_theme_enabled (v : bool) (c : Config) : Config :=
  {| render := render c; server := server c;
     disable_ssl_certificate_validation := disable_ssl_certificate_validation c;
     bin_path := bin_path c; output_format := output_format c;
     allow_multiple_roots := allow_multiple_roots c; diagram_root := diagram_root c;
     output_folder := output_folder c; output_in_dir := output_in_dir c;
     input_folder := input_folder c; input_extensions := input_extensions c;
     theme_enabled := v; theme_folder := theme_folder c;
     theme_light := theme_light c; theme_dark := theme_dark c;
     prettify_svg := prettify_svg c |}.
Definition with_prettify_svg (v : bool) (c : Config) : Config :=
  {| render := render c; server := server c;
     disable_ssl_certificate_validation := disable_ssl_certificate_validation c;
     bin_path := bin_path c; output_format := output_format c;
     allow_multiple_roots := allow_multiple_roots c; diagram_root := diagram_root c;
     output_folder := output_folder c; output_in_dir := output_in_dir c;
     input_folder := input_folder c; input_extensions := input_extensions c;
     theme_enabled := theme_enabled c; theme_folder := theme_folder c;
     theme_light := theme_light c; theme_dark := theme_dark c;
     prettify_svg := v |}.

Definition loc := nat.

(** [PuElement]. [src_file] starts as the empty string ([None] here) and is
    then bound to the list object [f.readlines()] returns. *)
Record PuElement := {
  file : str;
  directory : str;
  out_dir : str;
  root_dir : str;
  img_time : Z;
  img_time_dark : Z;
  inc_time : Z;
  src_time : Z;
  out_file : str;
  out_file_dark : str;
  b64encoded : str;
  concat_file : str;
  src_file : option loc
}.

(** [PuElement(file, subdir)]. *)
Definition PuElement_init (file subdir : str) : PuElement :=
  {| file := file; directory := subdir; out_dir := []; root_dir := [];
     img_time := 0; img_time_dark := 0; inc_time := 0; src_time := 0;
     out_file := []; out_file_dark := []; b64encoded := []; concat_file := [];
     src_file := None |}.

Module DiagramRoot.
Record t := { root_dir : str; src_dir : str }.
End DiagramRoot.

(** A file-system entry: a text file with its content and modification
    time, or a directory. *)
Inductive node :=
| File (content : str) (mtime : Z)
| Dir.

Record state := {
  diagram : PuElement;          (* the diagram object being processed *)
  fs : gmap str node;           (* the file system, by path *)
  heap : gmap loc (list str);   (* Python list objects *)
  next_loc : loc;
  stdout : list str;            (* what print has written, one entry per call *)
  tmp_count : nat;              (* temporary names handed out so far *)
  now : Z                       (* the mtime given to files written *)
}.

Definition set_diagram (d : PuElement) (s : state) : state :=
  {| diagram := d; fs := fs s; heap := heap s; next_loc := next_loc s;
     stdout := stdout s; tmp_count := tmp_count s; now := now s |}.
Definition set_fs (f : gmap str node) (s : state) : state :=
  {| diagram := diagram s; fs := f; heap := heap s; next_loc := next_loc s;
     stdout := stdout s; tmp_count := tmp_count s; now := now s |}.
Definition set_heap (h : gmap loc (list str)) (n : loc) (s : state) : state :=
  {| diagram := diagram s; fs := fs s; heap := h; next_loc := n;
     stdout := stdout s; tmp_count := tmp_count s; now := now s |}.
Definition set_stdout (o : list str) (s : state) : state :=
  {| diagram := diagram s; fs := fs s; heap := heap s; next_loc := next_loc s;
     stdout := o; tmp_count := tmp_count s; now := now s |}.
Definition set_tmp_count (n : nat) (s : state) : state :=
  {| diagram := diagram s; fs := fs s; heap := heap s; next_loc := next_loc s;
     stdout := stdout s; tmp_count := n; now := now s |}.

(** Field assignments on the diagram object. *)
Definition with_out_dir (v : str) (d : PuElement) : PuElement :=
  {| file := file d; directory := directory d; out_dir := v; root_dir := root_dir d;
     img_time := img_time d; img_time_dark := img_time_dark d; inc_time := inc_time d;
     src_time := src_time d; out_file := out_file d; out_file_dark := out_file_dark d;
     b64encoded := b64encoded d; concat_file := concat_file d; src_file := src_file d |}.
Definition with_root_dir (v : str) (d : PuElement) : PuElement :=
  {| file := file d; directory := directory d; out_dir := out_dir d; root_dir := v;
     img_time := img_time d; img_time_dark := img_time_dark d; inc_time := inc_time d;
     src_time := src_time d; out_file := out_file d; out_file_dark := out_file_dark d;
     b64encoded := b64encoded d; concat_file := concat_file d; src_file := src_file d |}.
Definition with_img_time (v : Z) (d : PuElement) : PuElement :=
  {| file := file d; directory := directory d; out_dir := out_dir d; root_dir := root_dir d;
     img_time := v; img_time_dark := img_time_dark d; inc_time := inc_time d;
     src_time := src_time d; out_file := out_file d; out_file_dark := out_file_dark d;
     b64encoded := b64encoded d; concat_file := concat_file d; src_file := src_file d |}.
Definition with_img_time_dark (v : Z) (d : PuElement) : PuElement :=
  {| file := file d; directory := directory d; out_dir := out_dir d; root_dir := root_dir d;
     img_time := img_time d; img_time_dark := v; inc_time := inc_time d;
     src_time := src_time d; out_file := out_file d; out_file_dark := out_file_dark d;
     b64encoded := b64encoded d; concat_file := concat_file d; src_file := src_file d |}.
Definition with_inc_time (v : Z) (d : PuElement) : PuElement :=
  {| file := file d; directory := directory d; out_dir := out_dir d; root_dir := root_dir d;
     img_time := img_time d; img_time_dark := img_time_dark d; inc_time := v;
     src_time := src_time d; out_file := out_file d; out_file_dark := out_file_dark d;
     b64encoded := b64encoded d; concat_file := concat_file d; src_file := src_file d |}.
Definition with_src_time (v : Z) (d : PuElement) : PuElement :=
  {| file := file d; directory := directory d; out_dir := out_dir d; root_dir := root_dir d;
     img_time := img_time d; img_time_dark := img_time_dark d; inc_time := inc_time d;
     src_time := v; out_file := out_file d; out_file_dark := out_file_dark d;
     b64encoded := b64encoded d; concat_file := concat_file d; src_file := src_file d |}.
Definition with_out_file (v : str) (d : PuElement) : PuElement :=
  {| file := file d; directory := directory d; out_dir := out_dir d; root_dir := root_dir d;
     img_time := img_time d; img_time_dark := img_time_dark d; inc_time := inc_time d;
     src_time := src_time d; out_file := v; out_file_dark := out_file_dark d;
     b64encoded := b64encoded d; concat_file := concat_file d; src_file := src_file d |}.
Definition with_out_file_dark (v : str) (d : PuElement) : PuElement :=
  {| file := file d; directory := directory d; out_dir := out_dir d; root_dir := root_dir d;
     img_time := img_time d; img_time_dark := img_time_dark d; inc_time := inc_time d;
     src_time := src_time d; out_file := out_file d; out_file_dark := v;
     b64encoded := b64encoded d; concat_file := concat_file d; src_file := src_file d |}.
Definition with_b64encoded (v : str) (d : PuElement) : PuElement :=
  {| file := file d; directory := directory d; out_dir := out_dir d; root_dir := root_dir d;
     img_time := img_time d; img_time_dark := img_time_dark d; inc_time := inc_time d;
     src_time := src_time d; out_file := out_file d; out_file_dark := out_file_dark d;
     b64encoded := v; concat_file := concat_file d; src_file := src_file d |}.
Definition with_concat_file (v : str) (d : PuElement) : PuElement :=
  {| file := file d; directory := directory d; out_dir := out_dir d; root_dir := root_dir d;
     img_time := img_time d; img_time_dark := img_time_dark d; inc_time := inc_time d;
     src_time := src_time d; out_file := out_file d; out_file_dark := out_file_dark d;
     b64encoded := b64encoded d; concat_file := v; src_file := src_file d |}.
Definition with_src_file (v : option loc) (d : PuElement) : PuElement :=
  {| file := file d; directory := directory d; out_dir := out_dir d; root_dir := root_dir d;
     img_time := img_time d; img_time_dark := img_time_dark d; inc_time := inc_time d;
     src_time := src_time d; out_file := out_file d; out_file_dark := out_file_dark d;
     b64encoded := b64encoded d; concat_file := concat_file d; src_file := v |}.

(** ** The monad of the program: state and exceptions

    A computation takes the state and returns the value it produces or the
    exception it raises, with the state at that point: what was printed,
    written or assigned before a [raise] stays. *)

Definition M (A : Type) : Type := state -> (exn + A) * state.

Definition ret {A} (a : A) : M A := fun s => (inr a, s).
Definition raise {A} (e : exn) : M A := fun s => (inl e, s).
Definition bind {A B} (m : M A) (k : A -> M B) : M B :=
  fun s => match m s with
           | (inr a, s') => k a s'
           | (inl e, s') => (inl e, s')
           end.

Notation "x <- m ;; k" := (bind m (fun x => k))
  (at level 100, m at next level, right associativity).
Notation "m ;; k" := (bind m (fun _ => k))
  (at level 100, right associativity).

(** [try: m  except Exception as e: h e]. *)
Definition try_except {A} (m : M A) (h : exn -> M A) : M A :=
  fun s => match m s with
           | (inl e, s') => h e s'
           | r => r
           end.

(** [try: m  except FileNotFoundError as e: h e]. *)
Definition try_except_FileNotFoundError {A} (m : M A) (h : exn -> M A) : M A :=
  try_except m (fun e => if is_FileNotFoundError e then h e else raise e).

Definition lift {A} (r : exn + A) : M A :=
  match r with inl e => raise e | inr a => ret a end.

Definition get : M state := fun s => (inr s, s).
Definition get_diagram : M PuElement := fun s => (inr (diagram s), s).
Definition assign (f : PuElement -> PuElement) : M unit :=
  fun s => (inr tt, set_diagram (f (diagram s)) s).
Definition print (msg : str) : M unit :=
  fun s => (inr tt, set_stdout (stdout s ++ [msg]) s).

(** [for x in l: body x]. *)
Fixpoint for_each {A} (l : list A) (body : A -> M unit) : M unit :=
  match l with
  | [] => ret tt
  | x :: t => body x ;; for_each t body
  end.

(** *** List objects *)

Definition new_list (xs : list str) : M loc :=
  fun s => (inr (next_loc s), set_heap (<[next_loc s := xs]> (heap s)) (S (next_loc s)) s).
Definition read_list (l : loc) : M (list str) :=
  fun s => match heap s !! l with
           | Some xs => (inr xs, s)
           | None => (inl (LibraryError (py "dangling list reference")), s)
           end.
(** [lines[i] = v] for [i] within the list. *)
Definition list_setitem (l : loc) (i : nat) (v : str) : M unit :=
  fun s => match heap s !! l with
           | Some xs => (inr tt, set_heap (<[l := <[i := v]> xs]> (heap s)) (next_loc s) s)
           | None => (inl (LibraryError (py "dangling list reference")), s)
           end.

(** *** Paths and the file system

    [pathlib] is taken as an interface; paths are strings, and the file
    system maps a path to its entry. *)

Record PathOps := {
  path_join : str -> str -> str;               (* str(Path(a) / b) *)
  path_resolve : str -> str;                   (* str(Path(a).resolve()) *)
  path_parent : str -> str;                    (* str(Path(a).parent) *)
  path_name : str -> str;                      (* Path(a).name *)
  path_parents : str -> list str;              (* the ancestors of a, outermost first *)
  path_relative_to : str -> str -> option str  (* Path(a).relative_to(b), None for ValueError *)
}.

(** [Path(p).stat().st_mtime]; a directory has a time too, which no rule of
    the program depends on. *)
Definition stat_mtime (p : str) : M Z :=
  fun s => match fs s !! p with
           | Some (File _ t) => (inr t, s)
           | Some Dir => (inr (now s), s)
           | None => (inl (FileNotFoundError p), s)
           end.

(** [Path(p).exists()]. *)
Definition path_exists (p : str) : M bool :=
  fun s => (inr (bool_decide (is_Some (fs s !! p))), s).

(** [open(p, "rt").read()]. *)
Definition read_text (p : str) : M str :=
  fun s => match fs s !! p with
           | Some (File c _) => (inr c, s)
           | Some Dir => (inl (IsADirectoryError p), s)
           | None => (inl (FileNotFoundError p), s)
           end.

Section Files.
Context (P : PathOps).

(** [open(p, "w").write(c)]: the directory of [p] must exist. *)
Definition write_text (p c : str) : M unit :=
  fun s => match fs s !! p with
           | Some Dir => (inl (IsADirectoryError p), s)
           | _ => match fs s !! path_parent P p with
                  | Some Dir => (inr tt, set_fs (<[p := File c (now s)]> (fs s)) s)
                  | _ => (inl (FileNotFoundError p), s)
                  end
           end.

(** [Path(p).mkdir(parents=True, exist_ok=True)]. *)
Definition mkdir_parents (p : str) : M unit :=
  for_each (path_parents P p ++ [p]) (fun q s =>
    match fs s !! q with
    | Some (File _ _) => (inl (FileExistsError q), s)
    | Some Dir => (inr tt, s)
    | None => (inr tt, set_fs (<[q := Dir]> (fs s)) s)
    end).

(** [shutil.move(src, dst)] of a fresh file named [name] with content [c]:
    into [dst] when it is a directory, onto [dst] otherwise. *)
Definition move_to (name c dst : str) : M unit :=
  fun s => match fs s !! dst with
           | Some Dir =>
               let real_dst := path_join P dst name in
               match fs s !! real_dst with
               | Some _ => (inl (ShutilError (py "Destination path '" ++ real_dst
                                                ++ py "' already exists")), s)
               | None => (inr tt, set_fs (<[real_dst := File c (now s)]> (fs s)) s)
               end
           | _ => match fs s !! path_parent P dst with
                  | Some Dir => (inr tt, set_fs (<[dst := File c (now s)]> (fs s)) s)
                  | _ => (inl (FileNotFoundError dst), s)
                  end
           end.

End Files.

(** *** The collaborators outside the program *)

Record Env := {
  (* zlib.compress(data) *)
  zlib_compress : bytes -> exn + bytes;
  (* http.request(url), with http.disable_ssl_certificate_validation:
     the status and the body, or the exception of the transport *)
  http_request : bool -> str -> exn + (Z * bytes);
  (* etree.tostring(etree.fromstring(s), pretty_print=True,
     encoding='utf-8').decode('utf-8') *)
  etree_pretty : str -> exn + str;
  (* call(cmd_args): the files PlantUML leaves in its output directory,
     as glob lists them, each with its name and content *)
  plantuml_call : list str -> gmap str node -> exn + list (str * str);
  (* Path(p).walk(): (directory, subdirectories, files) top-down *)
  walk : gmap str node -> str -> list (str * list str * list str);
  (* Path.cwd() *)
  cwd : str;
  (* the name of the n-th NamedTemporaryFile(suffix=".puml") *)
  mkstemp : nat -> str;
  (* the name of the n-th TemporaryDirectory() *)
  mkdtemp : nat -> str
}.

(** ** The plugin *)

(** [str(n)] for an integer. *)
Definition Z_str (z : Z) : str := py (DecimalString.NilZero.string_of_int (Z.to_int z)).

(** The loop of [_read_incl_sub]: the stripped lines after a
    [!startsub name] and before the next [!endsub] or [@enduml]. *)
Fixpoint extract_sub (inc_sub_name : str) (add_following : bool) (lines : list str)
  : list str :=
  match lines with
  | [] => []
  | line :: t =>
      let line := strip line in
      if match_dollar (re_startsub inc_sub_name) line then extract_sub inc_sub_name true t
      else if match_dollar re_endsub line || match_dollar re_enduml line
           then extract_sub inc_sub_name false t
      else if add_following then line :: extract_sub inc_sub_name true t
      else extract_sub inc_sub_name add_following t
  end.

(** [preprocess_includes]: the stripped lines that start with [!include],
    with their index. *)
Fixpoint preprocess_includes_from (i : nat) (lines : list str) : list (nat * str) :=
  match lines with
  | [] => []
  | line :: t =>
      if prefixmatch re_include_prefix (strip line)
      then (i, strip line) :: preprocess_includes_from (S i) t
      else preprocess_includes_from (S i) t
  end.
Definition preprocess_includes (lines : list str) : list (nat * str) :=
  preprocess_includes_from O lines.

(** The loop of [_search_start_tag]: the name after the first [@startuml]
    that carries one. *)
Fixpoint find_start_tag (lines : list str) : option str :=
  match lines with
  | [] => None
  | line :: t =>
      let line := strip line in
      if startswith (py "@startuml") line then
        match split_maxsplit1 line with
        | [_; out_filename] => Some out_filename
        | _ => find_start_tag t
        end
      else find_start_tag t
  end.

(** The staleness rule of [_convert]. *)
Definition needs_conversion (d : PuElement) (dark_mode : bool) : bool :=
  if negb dark_mode
  then (img_time d <? src_time d)%Z || (inc_time d >? img_time d)%Z
  else (img_time_dark d <? src_time d)%Z || (inc_time d >? img_time_dark d)%Z.

Section Plugin.
Context (config : Config) (P : PathOps) (E : Env).

Definition _make_diagram_root (subdir : str) : M DiagramRoot.t :=
  let root_dir := path_join P (cwd E) subdir in
  let src_dir := path_join P (path_join P (cwd E) subdir) (input_folder config) in
  print (py "root dir: " ++ root_dir ++ py ", src dir: " ++ src_dir) ;;
  ret {| DiagramRoot.root_dir := root_dir; DiagramRoot.src_dir := src_dir |}.

Definition _get_out_directory (root : DiagramRoot.t) (subdir : str) : str :=
  let relPath := match path_relative_to P subdir (DiagramRoot.src_dir root) with
                 | Some r => r
                 | None => subdir
                 end in
  if output_in_dir config
  then path_join P (path_join P (path_join P (cwd E) (DiagramRoot.root_dir root)) relPath)
                 (output_folder config)
  else path_join P (path_join P (path_join P (cwd E) (DiagramRoot.root_dir root))
                              (output_folder config)) relPath.

Definition _search_start_tag : M bool :=
  d <- get_diagram ;;
  lines <- match src_file d with
           | Some l => read_list l
           | None => ret []
           end ;;
  match find_start_tag lines with
  | Some out_filename =>
      assign (with_out_file
                (path_join P (out_dir d) (out_filename ++ py "." ++ output_format config))) ;;
      assign (with_out_file_dark
                (path_join P (out_dir d) (out_filename ++ py "_dark." ++ output_format config))) ;;
      ret true
  | None => ret false
  end.

Definition _build_mtimes : M unit :=
  d <- get_diagram ;;
  t <- try_except (stat_mtime (out_file d)) (fun _ => ret 0%Z) ;;
  assign (with_img_time t) ;;
  t <- try_except (stat_mtime (out_file_dark d)) (fun _ => ret 0%Z) ;;
  assign (with_img_time_dark t) ;;
  t <- stat_mtime (path_join P (directory d) (file d)) ;;
  assign (with_src_time t) ;;
  assign (with_inc_time 0%Z).

Definition process_includes (readIncludeLine : str -> str -> str -> bool -> M str)
    (include_lines : list (nat * str)) (lines : loc) (directory : str) (dark_mode : bool)
  : M unit :=
  for_each include_lines (fun il =>
    include_content <- readIncludeLine il.2 [] directory dark_mode ;;
    list_setitem lines il.1 include_content).

(** The mtime bookkeeping that opens [_read_incl_line_file] and
    [_read_incl_sub]. *)
Definition note_inc_time (inc_file_abs : str) : M unit :=
  local_inc_time <- try_except (stat_mtime inc_file_abs) (fun _ => ret 0%Z) ;;
  d <- get_diagram ;;
  if (local_inc_time >? inc_time d)%Z then assign (with_inc_time local_inc_time) else ret tt.

Definition _read_incl_line_file (readFileRecursively : loc -> str -> bool -> M str)
    (temp_file : str) (dark_mode : bool) (inc_file_abs : str) : M str :=
  note_inc_time inc_file_abs ;;
  content <- read_text inc_file_abs ;;
  lines <- new_list (readlines content) ;;
  readFileRecursively lines (path_resolve P (path_parent P inc_file_abs)) dark_mode.

(** [_read_incl_sub] ends with
    [self._readFileRecursively(temp_sub, temp_file, diagram,
      incFileAbs.parent.resolve(), dark_mode)]:
    six positional arguments with [self], for a method that takes five. The
    call raises [TypeError] before the method body runs. *)
Definition _read_incl_sub (temp_file : str) (dark_mode : bool) (inc_file_abs : str)
    (inc_sub_name : str) : M str :=
  note_inc_time inc_file_abs ;;
  content <- read_text inc_file_abs ;;
  let temp_sub := extract_sub inc_sub_name false (readlines content) in
  let directory := path_resolve P (path_parent P inc_file_abs) in
  (* self._readFileRecursively(temp_sub, temp_file, diagram, directory, dark_mode) *)
  raise (TypeError (py "BuildPlantumlPlugin._readFileRecursively() takes 5 positional arguments but 6 were given")).

Definition theme_substitute (dark_mode : bool) (inc_file : str) : str :=
  if dark_mode then replace (theme_light config) (theme_dark config) inc_file else inc_file.

Definition _readIncludeLine (readFileRecursively : loc -> str -> bool -> M str)
    (line temp_file directory : str) (dark_mode : bool) : M str :=
  if match_dollar re_includeurl line then ret (temp_file ++ line)
  else if match_dollar re_includesub line then
    match str_split 33 (strip (drop 11 line)) with
    | [inc_file; sub_name] =>
        let inc_file := theme_substitute dark_mode inc_file in
        try_except
          (let inc_file_abs := path_resolve P (path_join P directory inc_file) in
           _read_incl_sub temp_file dark_mode inc_file_abs sub_name)
          (fun e1 =>
             try_except
               (d <- get_diagram ;;
                let inc_file_abs := path_resolve P (path_join P (root_dir d) inc_file) in
                _read_incl_sub temp_file dark_mode inc_file_abs sub_name)
               (fun e2 =>
                  print (py "Could not find included file" ++ exn_str e1 ++ exn_str e2) ;;
                  raise e2))
    | _ => raise (Exception
             (py "Invalid !includesub syntax. Expected: !includesub <filepath>!<sub_name>"))
    end
  else if match_dollar re_include line then
    let inc_file := theme_substitute dark_mode (rstrip (drop 9 line)) in
    if startswith (py "http") inc_file || startswith (py "<") inc_file
    then ret (temp_file ++ line)
    else
      try_except_FileNotFoundError
        (let inc_file_abs := path_resolve P (path_join P directory inc_file) in
         found <- path_exists inc_file_abs ;;
         if found : bool
         then _read_incl_line_file readFileRecursively temp_file dark_mode inc_file_abs
         else
           print (py "Could not find include in primary location: " ++ inc_file_abs) ;;
           d <- get_diagram ;;
           let inc_file_abs_alt := path_resolve P (path_join P (root_dir d) inc_file) in
           found_alt <- path_exists inc_file_abs_alt ;;
           if found_alt : bool
           then _read_incl_line_file readFileRecursively temp_file dark_mode inc_file_abs_alt
           else
             print (py "Could not find include in secondary location: "
                      ++ inc_file_abs_alt) ;;
             raise (Exception (py "Include could not be resolved: " ++ line)))
        (fun fnfe => print (py "Could not find include " ++ exn_str fnfe) ;; ret temp_file)
  else raise (Exception (py "Unknown include type: " ++ line)).

(** [_readFileRecursively]. [depth] bounds the nesting of includes, as the
    interpreter's recursion limit does: a chain of includes deeper than that
    raises [RecursionError]. *)
Fixpoint _readFileRecursively (depth : nat) (lines : loc) (directory : str)
    (dark_mode : bool) : M str :=
  match depth with
  | O => raise RecursionError
  | S depth' =>
      xs <- read_list lines ;;
      let include_lines := preprocess_includes xs in
      process_includes (_readIncludeLine (_readFileRecursively depth'))
                       include_lines lines directory dark_mode ;;
      xs' <- read_list lines ;;
      ret (concat xs')
  end.

(** [_readFile], first part: the statements before its [try]. *)
Definition flatten_source (depth : nat) (dark_mode : bool) : M str :=
  d <- get_diagram ;;
  print (py "Processing diagram " ++ file d) ;;
  lines <- match src_file d with
           | Some l => xs <- read_list l ;; new_list xs          (* .copy() *)
           | None => raise (AttributeError (py "'str' object has no attribute 'copy'"))
           end ;;
  _readFileRecursively depth lines (directory d) dark_mode.

(** [_readFile], second part: its [try] statement. *)
Definition encode_and_store (temp_file : str) : M unit :=
  match plantuml_encode (zlib_compress E) temp_file with
  | inr token =>
      assign (with_b64encoded token) ;;
      assign (with_concat_file temp_file)
  | inl e =>
      print (py "Error during compression and encoding: " ++ exn_str e) ;;
      assign (with_b64encoded [])
  end.

Definition _readFile (depth : nat) (dark_mode : bool) : M unit :=
  temp_file <- flatten_source depth dark_mode ;;
  encode_and_store temp_file.

Definition _build_out_filename : M unit :=
  d <- get_diagram ;;
  match rfind 46 (file d) with
  | Some out_index =>
      assign (with_out_file (take (S out_index) (file d) ++ output_format config)) ;;
      assign (with_out_file_dark (take out_index (file d) ++ py "_dark."
                                    ++ output_format config))
  | None => ret tt
  end ;;
  assign (fun d => with_out_file (path_join P (out_dir d) (out_file d)) d) ;;
  assign (fun d => with_out_file_dark (path_join P (out_dir d) (out_file_dark d)) d).

Definition _pretty_print_svg (svg_content : str) : M str :=
  match etree_pretty E svg_content with
  | inr pretty_xml => ret pretty_xml
  | inl e =>
      print (py "Error pretty-printing SVG content: " ++ exn_str e) ;;
      ret svg_content
  end.

(** [_call_server] has no [return] with a value: each path that does not
    raise returns [None]. *)
Definition _call_server (out_file : str) : M (option bytes) :=
  d <- get_diagram ;;
  let url := server config ++ py "/" ++ output_format config ++ py "/" ++ b64encoded d in
  print (py "Making request to URL: " ++ url) ;;
  match http_request E (disable_ssl_certificate_validation config) url with
  | inl error =>
      print (py "Server error while processing " ++ file d ++ py ": " ++ exn_str error) ;;
      raise error
  | inr (status, content) =>
      print (py "Response status: " ++ Z_str status) ;;
      if negb (status =? 200)%Z then
        print (py "Wrong response status for " ++ file d ++ py ": " ++ Z_str status) ;;
        ret None
      else
        let outDir := out_dir d in
        mkdir_parents P outDir ;;
        formatted_svg <-
          (if str_eqb (output_format config) (py "svg") then
             try_except
               (text <- lift (decode_utf8 content) ;;
                formatted <- _pretty_print_svg text ;;
                print (py "Formatting SVG content successful.") ;;
                ret formatted)
               (fun e =>
                  print (py "Error formatting SVG content: " ++ exn_str e) ;;
                  lift (decode_utf8 content))
           else lift (decode_utf8 content)) ;;
        let output_path := path_join P outDir out_file in
        print (py "Saving output to " ++ output_path) ;;
        try_except
          (write_text P output_path formatted_svg ;;
           print (py "File saved successfully."))
          (fun e => print (py "Error saving file: " ++ exn_str e) ;; raise e) ;;
        ret None
  end.

(** [content.decode("utf-8")] for what [_call_server] returned. *)
Definition decode_content (content : option bytes) : M str :=
  match content with
  | Some b => lift (decode_utf8 b)
  | None => raise (AttributeError (py "'NoneType' object has no attribute 'decode'"))
  end.

(** [NamedTemporaryFile(delete=False, suffix=".puml", mode='w')] written
    with [text]: the file stays. *)
Definition new_temp_file (text : str) : M str :=
  fun s =>
    let name := mkstemp E (tmp_count s) in
    (inr name, set_tmp_count (S (tmp_count s)) (set_fs (<[name := File text (now s)]> (fs s)) s)).

(** [TemporaryDirectory()]: only its name is kept, the directory is removed
    when the [with] block ends. *)
Definition new_temp_dir : M str :=
  fun s => (inr (mkdtemp E (tmp_count s)), set_tmp_count (S (tmp_count s)) s).

(** The local branch of [_convert]. *)
Definition convert_local (d : PuElement) (dark_mode : bool) : M unit :=
  let diagramFile := path_join P (directory d) (file d) in
  print (py "Converting Locally") ;;
  let command := rsplit_ws (bin_path config) in
  let cmd_args := command ++ [py "-t" ++ output_format config] in
  cmd_args <- (if theme_enabled config
               then temp_puml_path <- new_temp_file (concat_file d) ;;
                    ret (cmd_args ++ [temp_puml_path])
               else ret (cmd_args ++ [diagramFile])) ;;
  let cmd_args := if dark_mode then cmd_args ++ [py "-darkmode"] else cmd_args in
  tmpdirname <- new_temp_dir ;;
  let cmd_args := cmd_args ++ [py "-o"; tmpdirname] in
  s <- get ;;
  generated_files <- lift (plantuml_call E cmd_args (fs s)) ;;
  match generated_files with
  | [] => raise (RuntimeError (py "No files were generated by PlantUML"))
  | generated :: _ =>
      let output_file := if dark_mode then out_file_dark d else out_file d in
      move_to P generated.1 generated.2 output_file ;;
      if str_eqb (output_format config) (py "svg") then
        try_except
          (svg_content <- read_text output_file ;;
           formatted_svg <- _pretty_print_svg svg_content ;;
           write_text P output_file formatted_svg ;;
           print (py "Formatting SVG content successful."))
          (fun e => print (py "Error formatting SVG content: " ++ exn_str e))
      else ret tt
  end.

(** The server branch of [_convert]. *)
Definition convert_server (d : PuElement) (dark_mode : bool) : M unit :=
  print (py "Converting with PlantUML Server") ;;
  content <- _call_server (if dark_mode then out_file_dark d else out_file d) ;;
  formatted_svg <-
    (if str_eqb (output_format config) (py "svg") then
       try_except
         (text <- decode_content content ;;
          formatted <- _pretty_print_svg text ;;
          print (py "Formatting SVG content successful.") ;;
          ret formatted)
         (fun e =>
            print (py "Error formatting SVG content: " ++ exn_str e) ;;
            decode_content content)
     else decode_content content) ;;
  let output_file := if dark_mode then out_file_dark d else out_file d in
  write_text P output_file formatted_svg.

Definition _convert (dark_mode : bool) : M unit :=
  d <- get_diagram ;;
  let diagramFile := path_join P (directory d) (file d) in
  if needs_conversion d dark_mode then
    print (py "Converting " ++ diagramFile) ;;
    if str_eqb (render config) (py "local")
    then convert_local d dark_mode
    else convert_server d dark_mode
  else ret tt.

Definition _file_matches_extension (file : str) : bool :=
  if (length (input_extensions config) =? 0)%nat then true
  else existsb (fun extension => endswith extension file)
               (str_split 44 (input_extensions config)).

(** The body of the innermost loop of [on_pre_build], for one source file:
    first the statements that build the diagram object, *)
Definition load_diagram (root : DiagramRoot.t) (subdir file : str) : M unit :=
  (fun s => (inr tt, set_diagram (PuElement_init file subdir) s)) ;;
  assign (with_root_dir (DiagramRoot.root_dir root)) ;;
  assign (with_out_dir (_get_out_directory root subdir)) ;;
  content <- read_text (path_join P subdir file) ;;
  lines <- new_list (readlines content) ;;
  assign (with_src_file (Some lines)) ;;
  found <- _search_start_tag ;;
  (if found : bool then ret tt else _build_out_filename) ;;
  _build_mtimes.

(** then the two passes. *)
Definition process_file (depth : nat) (root : DiagramRoot.t) (subdir file : str) : M unit :=
  load_diagram root subdir file ;;
  _readFile depth false ;;
  _convert false ;;
  _readFile depth true ;;
  _convert true.

(** [for x in l: acc.append(f x)], for the list of diagram roots. *)
Fixpoint collect {A B} (l : list A) (f : A -> M (list B)) : M (list B) :=
  match l with
  | [] => ret []
  | x :: t => ys <- f x ;; zs <- collect t f ;; ret (ys ++ zs)
  end.

(** [on_pre_build]. Each [walk] is taken when its loop starts. *)
Definition on_pre_build (depth : nat) : M unit :=
  diagram_roots <-
    (if allow_multiple_roots config then
       s <- get ;;
       collect (walk E (fs s) (cwd E)) (fun entry =>
         collect entry.1.2 (fun directory =>
           let my_subdir := entry.1.1 ++ py "/" ++ directory in
           if endswith (diagram_root config) my_subdir
           then root <- _make_diagram_root my_subdir ;; ret [root]
           else ret []))
     else root <- _make_diagram_root (diagram_root config) ;; ret [root]) ;;
  for_each diagram_roots (fun root =>
    s <- get ;;
    for_each (walk E (fs s) (DiagramRoot.src_dir root)) (fun entry =>
      for_each entry.2 (fun file =>
        if _file_matches_extension file
        then process_file depth root entry.1.1 file
        else ret tt))).

End Plugin.

(** ** A concrete environment

    An instance of the interfaces, for running the plugin on examples:
    POSIX paths that are absolute and normalised, a compressor that stores
    the data without compressing it, and a renderer, a server and a
    pretty-printer that answer as the examples need. *)

Module Posix.

Definition join (a b : str) : str :=
  match b with
  | [] => a
  | c :: _ => if c =? 47 then b
              else if endswith [47] a then a ++ b else a ++ [47] ++ b
  end.

Definition parent (p : str) : str :=
  match rfind 47 p with
  | Some O => [47]
  | Some i => take i p
  | None => py "."
  end.

Definition name (p : str) : str :=
  match rfind 47 p with
  | Some i => drop (S i) p
  | None => p
  end.

Fixpoint parents_aux (fuel : nat) (p : str) : list str :=
  match fuel with
  | O => []
  | S n => let q := parent p in
           if str_eqb q p || str_eqb q (py ".") then [] else parents_aux n q ++ [q]
  end.
Definition parents (p : str) : list str := parents_aux (length p) p.

Definition relative_to (a b : str) : option str :=
  if str_eqb a b then Some []
  else if startswith (b ++ [47]) a then Some (drop (S (length b)) a)
  else None.

Definition ops : PathOps :=
  {| path_join := join; path_resolve := fun p => p; path_parent := parent;
     path_name := name; path_parents := parents; path_relative_to := relative_to |}.

End Posix.

Module Example.

(** Adler-32, the checksum that ends a zlib stream. *)
Definition adler32 (data : bytes) : N :=
  let '(a, b) := fold_left (fun ab x => let a := (ab.1 + Byte.to_N x) mod 65521 in
                                        (a, (ab.2 + a) mod 65521))
                           data (1, 0) in
  b * 65536 + a.

(** A zlib stream of one stored block (what [zlib.compress(data, 0)]
    produces for less than 65536 bytes). *)
Definition stored_compress (data : bytes) : exn + bytes :=
  let n := N.of_nat (length data) in
  if 65536 <=? n then inl (LibraryError (py "stored_compress: more than one block"))
  else
    let ck := adler32 data in
    inr ([x78; x01; x01; byte_of (n mod 256); byte_of (n / 256);
          byte_of (255 - n mod 256); byte_of (255 - n / 256)]
         ++ data
         ++ [byte_of (ck / 16777216); byte_of ((ck / 65536) mod 256);
             byte_of ((ck / 256) mod 256); byte_of (ck mod 256)]).

(** Inflating a raw deflate stream of one stored block. *)
Definition stored_inflate (raw : bytes) : option bytes :=
  match raw with
  | x01 :: l0 :: l1 :: n0 :: n1 :: data =>
      let n := Byte.to_N l0 + 256 * Byte.to_N l1 in
      if (Byte.to_N n0 =? 255 - Byte.to_N l0) && (Byte.to_N n1 =? 255 - Byte.to_N l1)
         && (N.of_nat (length data) =? n)
      then Some data else None
  | _ => None
  end.

(** The configuration defaults of [BuildPlantumlPluginConfig]. *)
Definition default_config : Config :=
  {| render := py "server";
     server := py "https://www.plantuml.com/plantuml";
     disable_ssl_certificate_validation := false;
     bin_path := py "/usr/local/bin/plantuml";
     output_format := py "png";
     allow_multiple_roots := false;
     diagram_root := py "docs/diagrams";
     output_folder := py "out";
     output_in_dir := false;
     input_folder := py "src";
     input_extensions := [];
     theme_enabled := false;
     theme_folder := py "include/themes/";
     theme_light := py "light.puml";
     theme_dark := py "dark.puml";
     prettify_svg := false |}.

Definition with_render (v : str) (c : Config) : Config :=
  {| render := v; server := server c;
     disable_ssl_certificate_validation := disable_ssl_certificate_validation c;
     bin_path := bin_path c; output_format := output_format c;
     allow_multiple_roots := allow_multiple_roots c; diagram_root := diagram_root c;
     output_folder := output_folder c; output_in_dir := output_in_dir c;
     input_folder := input_folder c; input_extensions := input_extensions c;
     theme_enabled := theme_enabled c; theme_folder := theme_folder c;
     theme_light := theme_light c; theme_dark := theme_dark c;
     prettify_svg := prettify_svg c |}.
Definition with_output_format (v : str) (c : Config) : Config :=
  {| render := render c; server := server c;
     disable_ssl_certificate_validation := disable_ssl_certificate_validation c;
     bin_path := bin_path c; output_format := v;
     allow_multiple_roots := allow_multiple_roots c; diagram_root := diagram_root c;
     output_folder := output_folder c; output_in_dir := output_in_dir c;
     input_folder := input_folder c; input_extensions := input_extensions c;
     theme_enabled := theme_enabled c; theme_folder := theme_folder c;
     theme_light := theme_light c; theme_dark := theme_dark c;
     prettify_svg := prettify_svg c |}.

(** The source directory of the examples and what it holds. *)
Definition src_dir : str := py "/w/docs/diagrams/src".
Definition out_dir : str := py "/w/docs/diagrams/out".

(** A renderer that leaves one file, whose content is its command line. *)
Definition echo_renderer (cmd_args : list str) (_ : gmap str node)
  : exn + list (str * str) :=
  inr [(py "diagram", concat (List.map (fun a => a ++ py " ") cmd_args))].

(** A pretty-printer that accepts every text and marks it. *)
Definition marking_pretty (s : str) : exn + str := inr (py "<!--pretty-->" ++ s).

(** The environment: the source directory holds [files]; the server
    answers every request with [status] and [body]. *)
Definition env (files : list str) (status : Z) (body : bytes) : Env :=
  {| zlib_compress := stored_compress;
     http_request := fun _ _ => inr (status, body);
     etree_pretty := marking_pretty;
     plantuml_call := echo_renderer;
     walk := fun _ p => if str_eqb p src_dir then [(p, [], files)] else [];
     cwd := py "/w";
     mkstemp := fun n => py "/tmp/tmp" ++ Z_str (Z.of_nat n) ++ py ".puml";
     mkdtemp := fun n => py "/tmp/tmpdir" ++ Z_str (Z.of_nat n) |}.


(** The directories of the examples. *)
Definition dirs : gmap str node :=
  list_to_map (List.map (fun p => (py p, Dir))
    ["/"; "/tmp"; "/w"; "/w/docs"; "/w/docs/diagrams"; "/w/docs/diagrams/src";
     "/w/docs/diagrams/out"]%string).

Definition initial (files : gmap str node) : state :=
  {| diagram := PuElement_init [] []; fs := files; heap := ∅; next_loc := O;
     stdout := []; tmp_count := O; now := 1000 |}.

Definition nl : string := String (ascii_of_nat 10) EmptyString.

(** [A.puml]: a diagram without includes. *)
Definition alice : str :=
  py ("@startuml" ++ nl ++ "Alice->Bob" ++ nl ++ "@enduml" ++ nl).


Definition local_config : Config := with_render (py "local") default_config.

(** A tree with the one source [A.puml], last modified at [mtime], and no
    output yet. *)
Definition alice_tree (mtime : Z) : gmap str node :=
  <[py "/w/docs/diagrams/src/A.puml" := File alice mtime]> dirs.


(** [Bad.puml]: an [!includesub] without the [!<sub_name>] part. *)
Definition bad : str :=
  py ("@startuml" ++ nl ++ "!includesub foo.puml" ++ nl ++ "@enduml" ++ nl).

(** A tree with [Bad.puml] and [A.puml]. *)
Definition bad_tree : gmap str node :=
  <[py "/w/docs/diagrams/src/Bad.puml" := File bad 50]> (alice_tree 50).

(** [Sub.puml] includes the block [X] of [include/parts.puml], which lies
    under the diagram root. *)
Definition sub_main : str :=
  py ("@startuml" ++ nl ++ "!includesub include/parts.puml!X" ++ nl ++ "@enduml" ++ nl).
Definition sub_parts : str :=
  py ("@startuml" ++ nl ++ "Alice->Bob" ++ nl ++ "!startsub X" ++ nl ++ "Bob->Carol" ++ nl
      ++ "Carol->Bob" ++ nl ++ "!endsub" ++ nl ++ "Bob->Alice" ++ nl ++ "@enduml" ++ nl).
Definition sub_tree : gmap str node :=
  <[py "/w/docs/diagrams/src/Sub.puml" := File sub_main 50]>
    (<[py "/w/docs/diagrams/include/parts.puml" := File sub_parts 40]>
       (<[py "/w/docs/diagrams/include" := Dir]> dirs)).

(** A tree with the two diagrams [A.puml] and [B.puml]. *)
Definition two_tree : gmap str node :=
  <[py "/w/docs/diagrams/src/B.puml" := File alice 50]> (alice_tree 50).

Definition svg_local_config : Config := with_output_format (py "svg") local_config.

(** The diagram root of the examples. *)
Definition root : DiagramRoot.t :=
  {| DiagramRoot.root_dir := py "/w/docs/diagrams"; DiagramRoot.src_dir := src_dir |}.

(** The state when [A.puml] has just been discovered. *)
Definition discovered (files : gmap str node) : state :=
  set_diagram (with_root_dir (py "/w/docs/diagrams")
                 (with_out_dir out_dir (PuElement_init (py "A.puml") src_dir)))
              (initial files).

(** [A.puml] discovered, with the output last written at 100, the source at
    50 and the newest include at [inc]. *)
Definition timed (inc : Z) : state :=
  set_diagram
    (with_inc_time inc (with_src_time 50 (with_img_time_dark 100 (with_img_time 100
       (with_out_file_dark (py "/w/docs/diagrams/out/A_dark.png")
          (with_out_file (py "/w/docs/diagrams/out/A.png")
             (diagram (discovered (alice_tree 50)))))))))
    (discovered (alice_tree 50)).

(** The state when the lines of [A.puml] have been read into a list. *)
Definition loaded (files : gmap str node) : state :=
  set_diagram (with_src_file (Some O) (diagram (discovered files)))
              (set_heap {[O := readlines alice]} (S O) (discovered files)).

End Example.

(** ** Notions of the specification *)

(** A text that has a UTF-8 encoding: code points of Unicode, without the
    surrogates. Every text the program reads from a file is one. *)
Definition valid_cp (c : N) : Prop := c < 0xD800 \/ (0xDFFF < c /\ c < 0x110000).
Definition valid_text (s : str) : Prop := Forall valid_cp s.

(** The error [_readIncludeLine] raises for an [!includesub] without
    separator. *)
Definition invalid_includesub : exn :=
  Exception (py "Invalid !includesub syntax. Expected: !includesub <filepath>!<sub_name>").

(** The modification time of the output of a pass, as [_build_mtimes]
    recorded it. *)
Definition out_mtime (d : PuElement) (dark_mode : bool) : Z :=
  if dark_mode then img_time_dark d else img_time d.

(** The staleness rule, as the specification words it. *)
Definition stale (d : PuElement) (dark_mode : bool) : Prop :=
  (out_mtime d dark_mode < src_time d \/ inc_time d > out_mtime d dark_mode)%Z.

(** What [_build_mtimes] records for the output path [p]: its time, and 0
    when there is no such file. *)
Definition mtime_or_0 (s : state) (p : str) : Z :=
  match fs s !! p with
  | Some (File _ t) => t
  | Some Dir => now s
  | None => 0%Z
  end.

(** [preserves R m]: whenever [m] runs from [s] and stops in [s'], with a
    value or with an exception, [R s s'] holds. *)
Definition preserves {A} (R : state -> state -> Prop) (m : M A) : Prop :=
  forall s r s', m s = (r, s') -> R s s'.

(** [readonly m]: [m] does not change the state. *)
Definition readonly {A} (m : M A) : Prop := forall s r s', m s = (r, s') -> s' = s.

(** From [s] to [s'] the list object [l] is as it was, and the diagram
    still refers to the same source lines. *)
Definition keeps_list (l : loc) (s s' : state) : Prop :=
  (l < next_loc s)%nat ->
  (l < next_loc s')%nat /\ heap s' !! l = heap s !! l /\
  src_file (diagram s') = src_file (diagram s).

(** The 65 characters of a base64 text. *)
Definition b64_text (cs : bytes) : Prop := Forall (fun c => In c (pad :: rfc4648_alphabet)) cs.

(** The command line of the dark pass of a local rendering without custom
    themes, for the diagram of [s]. *)
Definition dark_command (config : Config) (P : PathOps) (E : Env) (s : state) : list str :=
  (((rsplit_ws (bin_path config) ++ [py "-t" ++ output_format config])
      ++ [path_join P (directory (diagram s)) (file (diagram s))])
     ++ [py "-darkmode"])
    ++ [py "-o"; mkdtemp E (tmp_count s)].

(** What ends up in the output file for the rendering [raw]. *)
Definition final_content (config : Config) (E : Env) (raw : str) : str :=
  if str_eqb (output_format config) (py "svg")
  then match etree_pretty E raw with
       | inr pretty_xml => pretty_xml
       | inl _ => raw
       end
  else raw.

(** [returns_only Q m]: every value [m] returns satisfies [Q]. *)
Definition returns_only {A} (Q : A -> Prop) (m : M A) : Prop :=
  forall s a s', m s = (inr a, s') -> Q a.

(** [always_raises m]: [m] never returns a value. *)
Definition always_raises {A} (m : M A) : Prop :=
  forall s, exists e s', m s = (inl e, s').

(** ** Notions for the further properties *)

(** A line that [preprocess_includes] does not select. *)
Definition plain_line (x : str) : Prop :=
  prefixmatch re_include_prefix (strip x) = false.

(** White space only; a word: at least one character, none of them white
    space. *)
Definition spaces (s : str) : Prop := Forall (fun c => is_space c = true) s.
Definition nonspaces (s : str) : Prop := Forall (fun c => is_space c = false) s.
Definition a_word (w : str) : Prop := w <> [] /\ nonspaces w.

(** [old] occurs in [s]. *)
Definition occurs (old s : str) : Prop := exists a b, s = a ++ old ++ b.

(** The newest include time recorded does not go back. *)
Definition inc_time_le (s s' : state) : Prop :=
  (inc_time (diagram s) <= inc_time (diagram s'))%Z.

(** The file system is the same. *)
Definition same_fs (s s' : state) : Prop := fs s' = fs s.

(** The characters a token is made of: the 64 of the PlantUML alphabet and
    the padding character of base64. *)
Definition token_char (c : N) : Prop := In c (py plantuml_alphabet ++ py "=").

(** ** More sources for the examples *)

Module Samples.
Import Example.

(** [Main.puml] includes [common.puml], which lies beside it. *)
Definition main : str :=
  py ("@startuml" ++ nl ++ "!include common.puml" ++ nl ++ "Alice->Bob" ++ nl
      ++ "@enduml" ++ nl).
Definition common : str := py ("skinparam monochrome true" ++ nl).
Definition include_tree : gmap str node :=
  <[py "/w/docs/diagrams/src/common.puml" := File common 70]>
    (<[py "/w/docs/diagrams/src/Main.puml" := File main 50]> dirs).

(** [Loop.puml] includes itself. *)
Definition loop : str :=
  py ("@startuml" ++ nl ++ "!include Loop.puml" ++ nl ++ "@enduml" ++ nl).
Definition loop_tree : gmap str node :=
  <[py "/w/docs/diagrams/src/Loop.puml" := File loop 50]> dirs.

(** [include/a.puml] includes [b.puml], which lies beside it and not beside
    the diagrams. *)
Definition part_a : str := py ("!include b.puml" ++ nl ++ "Alice->Bob" ++ nl).
Definition part_b : str := py ("skinparam shadowing false" ++ nl).
Definition nested_tree : gmap str node :=
  <[py "/w/docs/diagrams/include/b.puml" := File part_b 80]>
    (<[py "/w/docs/diagrams/include/a.puml" := File part_a 60]>
       (<[py "/w/docs/diagrams/include" := Dir]> dirs)).



(** [Url.puml] has an indented [!includeurl]. *)
Definition url : str :=
  py ("@startuml" ++ nl ++ "  !includeurl https://example.org/style.puml" ++ nl
      ++ "Alice->Bob" ++ nl ++ "@enduml" ++ nl).

(** The state when the source [name], whose text is [content], has been
    discovered in the tree [files] and its lines have been read. *)
Definition loaded (name content : str) (files : gmap str node) : state :=
  set_diagram (with_src_file (Some O)
                 (with_root_dir (py "/w/docs/diagrams")
                    (with_out_dir out_dir (PuElement_init name src_dir))))
              (set_heap {[O := readlines content]} (S O) (initial files)).

(** A renderer that leaves no file, and an environment with it. *)
Definition silent_renderer (_ : list str) (_ : gmap str node) : exn + list (str * str) :=
  inr [].
Definition env_silent : Env :=
  let E := env [] 200 [] in
  {| zlib_compress := zlib_compress E; http_request := http_request E;
     etree_pretty := etree_pretty E; plantuml_call := silent_renderer;
     walk := walk E; cwd := cwd E; mkstemp := mkstemp E; mkdtemp := mkdtemp E |}.

(** An environment whose server cannot be reached. *)
Definition env_offline : Env :=
  let E := env [] 200 [] in
  {| zlib_compress := zlib_compress E;
     http_request := fun _ _ => inl (LibraryError (py "Unable to find the server"));
     etree_pretty := etree_pretty E; plantuml_call := plantuml_call E;
     walk := walk E; cwd := cwd E; mkstemp := mkstemp E; mkdtemp := mkdtemp E |}.

(** A walk that lists the tree: the entries of a directory are the paths
    whose parent it is; top-down, as [Path.walk] goes. *)
Definition children (files : gmap str node) (p : str) : list (str * node) :=
  List.filter (fun kv => str_eqb (Posix.parent kv.1) p && negb (str_eqb kv.1 p))
              (map_to_list files).
Definition is_dir (n : node) : bool := match n with Dir => true | File _ _ => false end.
Fixpoint walk_tree (fuel : nat) (files : gmap str node) (p : str)
  : list (str * list str * list str) :=
  match fuel with
  | O => []
  | S n =>
      match files !! p with
      | Some Dir =>
          let cs := children files p in
          let dirs := List.map (fun kv => Posix.name kv.1)
                               (List.filter (fun kv => is_dir kv.2) cs) in
          let fls := List.map (fun kv => Posix.name kv.1)
                              (List.filter (fun kv => negb (is_dir kv.2)) cs) in
          (p, dirs, fls) :: flat_map (fun d => walk_tree n files (Posix.join p d)) dirs
      | _ => []
      end
  end.

(** The environment of the examples with that walk. *)
Definition env_tree : Env :=
  let E := env [] 200 [] in
  {| zlib_compress := zlib_compress E; http_request := http_request E;
     etree_pretty := etree_pretty E; plantuml_call := plantuml_call E;
     walk := walk_tree 16; cwd := cwd E; mkstemp := mkstemp E; mkdtemp := mkdtemp E |}.

(** The default configuration with several roots allowed and the diagram
    root [root]. *)
Definition multi_root_config (root : str) : Config :=
  {| render := render default_config; server := server default_config;
     disable_ssl_certificate_validation := false;
     bin_path := bin_path default_config; output_format := output_format default_config;
     allow_multiple_roots := true; diagram_root := root;
     output_folder := output_folder default_config; output_in_dir := false;
     input_folder := input_folder default_config; input_extensions := [];
     theme_enabled := false; theme_folder := theme_folder default_config;
     theme_light := theme_light default_config; theme_dark := theme_dark default_config;
     prettify_svg := false |}.

End Samples.

(** ** The parts of [on_pre_build]

    Its two statements, and the bodies of its loops, under names. *)

Section BuildParts.
Context (config : Config) (P : PathOps) (E : Env).

(** The first statement: the list of diagram roots. *)
Definition find_diagram_roots : M (list DiagramRoot.t) :=
  if allow_multiple_roots config then
    s <- get ;;
    collect (walk E (fs s) (cwd E)) (fun entry =>
      collect entry.1.2 (fun directory =>
        let my_subdir := entry.1.1 ++ py "/" ++ directory in
        if endswith (diagram_root config) my_subdir
        then root <- _make_diagram_root config P E my_subdir ;; ret [root]
        else ret []))
  else root <- _make_diagram_root config P E (diagram_root config) ;; ret [root].

(** The body of the loop over the files of a directory, *)
Definition process_one (depth : nat) (root : DiagramRoot.t) (subdir file : str) : M unit :=
  if _file_matches_extension config file
  then process_file config P E depth root subdir file
  else ret tt.

(** of the loop over the directories of a walk, *)
Definition process_entry (depth : nat) (root : DiagramRoot.t)
    (entry : str * list str * list str) : M unit :=
  for_each entry.2 (process_one depth root entry.1.1).

(** and of the loop over the diagram roots. *)
Definition process_root (depth : nat) (root : DiagramRoot.t) : M unit :=
  s <- get ;;
  for_each (walk E (fs s) (DiagramRoot.src_dir root)) (process_entry depth root).

End BuildParts.

(** * Properties *)

(** ** The matcher decides the language of a pattern *)

Section ReFacts.

Lemma app_nil_inv {A} (a b : list A) : a ++ b = [] -> a = [] /\ b = [].
Proof. destruct a; simpl; intros H; [auto | discriminate]. Qed.

Lemma lang_Cat_inv r1 r2 s :
  lang (Cat r1 r2) s -> exists s1 s2, s = s1 ++ s2 /\ lang r1 s1 /\ lang r2 s2.
Proof. intros H. inversion H; subst. eauto. Qed.

Lemma lang_Alt_inv r1 r2 s : lang (Alt r1 r2) s -> lang r1 s \/ lang r2 s.
Proof. intros H. inversion H; subst; auto. Qed.

Lemma nullable_lang r : nullable r = true <-> lang r [].
Proof.
  induction r; simpl; split; intros H;
    try discriminate; try (inversion H; fail); eauto with re.
  - apply andb_true_iff in H as [H1 H2].
    change (@nil N) with (@nil N ++ []). constructor; tauto.
  - apply lang_Cat_inv in H as (s1 & s2 & Heq & H1 & H2). symmetry in Heq.
    apply app_nil_inv in Heq as [-> ->]. apply andb_true_iff. tauto.
  - apply orb_true_iff in H as [H|H]; [apply L_alt_l | apply L_alt_r]; tauto.
  - apply orb_true_iff. apply lang_Alt_inv in H. tauto.
Qed.

Lemma star_cons_inv r c s :
  lang (Star r) (c :: s) ->
  exists s1 s2, s = s1 ++ s2 /\ lang r (c :: s1) /\ lang (Star r) s2.
Proof.
  intros H. remember (Star r) as r' eqn:Er. remember (c :: s) as w eqn:Ew.
  revert c s Ew. induction H; intros c0 s0 Ew; try discriminate.
  injection Er as ->. destruct s1 as [|d s1].
  - simpl in Ew. eauto.
  - simpl in Ew. injection Ew as -> <-. eauto.
Qed.

Lemma deriv_lang c r s : lang (deriv c r) s <-> lang r (c :: s).
Proof.
  revert s. induction r; intros s; simpl.
  - split; intros H; inversion H.
  - split; intros H; inversion H.
  - destruct (N.eqb_spec c c0) as [->|Hne]; split; intros H; inversion H; subst;
      try constructor; congruence.
  - destruct (is_space c) eqn:Hc; split; intros H; inversion H; subst;
      try (constructor; assumption); congruence.
  - destruct (is_space c) eqn:Hc; split; intros H; inversion H; subst;
      try (constructor; assumption); congruence.
  - destruct (nullable r1) eqn:Hn.
    + split; intros H.
      * apply lang_Alt_inv in H as [H|H].
        -- apply lang_Cat_inv in H as (s1 & s2 & -> & H1 & H2).
           change (c :: s1 ++ s2) with ((c :: s1) ++ s2).
           constructor; [apply IHr1|]; assumption.
        -- change (c :: s) with ([] ++ c :: s).
           constructor; [apply nullable_lang | apply IHr2]; assumption.
      * apply lang_Cat_inv in H as (s1 & s2 & Heq & H1 & H2).
        destruct s1 as [|d s1]; simpl in Heq.
        -- subst s2. apply L_alt_r, IHr2. assumption.
        -- injection Heq as -> ->. apply L_alt_l. constructor; [apply IHr1|]; assumption.
    + split; intros H.
      * apply lang_Cat_inv in H as (s1 & s2 & -> & H1 & H2).
        change (c :: s1 ++ s2) with ((c :: s1) ++ s2).
        constructor; [apply IHr1|]; assumption.
      * apply lang_Cat_inv in H as (s1 & s2 & Heq & H1 & H2).
        destruct s1 as [|d s1]; simpl in Heq.
        -- apply nullable_lang in H1. congruence.
        -- injection Heq as -> ->. constructor; [apply IHr1|]; assumption.
  - split; intros H.
    + apply lang_Alt_inv in H as [H|H];
        [apply L_alt_l, IHr1 | apply L_alt_r, IHr2]; assumption.
    + apply lang_Alt_inv in H as [H|H];
        [apply L_alt_l, IHr1 | apply L_alt_r, IHr2]; assumption.
  - split; intros H.
    + apply lang_Cat_inv in H as (s1 & s2 & -> & H1 & H2).
      change (c :: s1 ++ s2) with ((c :: s1) ++ s2).
      constructor; [apply IHr|]; assumption.
    + apply star_cons_inv in H as (s1 & s2 & -> & H1 & H2).
      constructor; [apply IHr|]; assumption.
Qed.

Lemma fullmatch_lang r s : fullmatch r s = true <-> lang r s.
Proof.
  revert r. induction s as [|c s IH]; intros r; simpl.
  - apply nullable_lang.
  - rewrite IH. apply deriv_lang.
Qed.

Lemma lang_Lit p s : lang (Lit p) s <-> s = p.
Proof.
  revert s. induction p as [|c p IH]; intros s; simpl.
  - split; intros H; [inversion H | subst]; eauto with re.
  - split; intros H.
    + apply lang_Cat_inv in H as (s1 & s2 & -> & H1 & H2).
      inversion H1; subst. apply IH in H2. subst. reflexivity.
    + subst. change (c :: p) with ([c] ++ p). constructor; [constructor | apply IH; reflexivity].
Qed.

Lemma lang_Cat_Lit p r s : lang (Cat (Lit p) r) s <-> exists t, s = p ++ t /\ lang r t.
Proof.
  split.
  - intros H. apply lang_Cat_inv in H as (s1 & s2 & -> & H1 & H2).
    apply lang_Lit in H1. subst. eauto.
  - intros (t & -> & H). constructor; [apply lang_Lit; reflexivity | assumption].
Qed.

End ReFacts.

(** ** The monad *)

Section MonadFacts.

Lemma bind_inr {A B} (m : M A) (k : A -> M B) s a s' :
  m s = (inr a, s') -> bind m k s = k a s'.
Proof. unfold bind. intros ->. reflexivity. Qed.

Lemma bind_inl {A B} (m : M A) (k : A -> M B) s e s' :
  m s = (inl e, s') -> bind m k s = (inl e, s').
Proof. unfold bind. intros ->. reflexivity. Qed.

End MonadFacts.

(** ** Staleness *)

Section Staleness.
Context (config : Config) (P : PathOps) (E : Env).

Lemma needs_conversion_stale d dark_mode :
  needs_conversion d dark_mode = true <-> stale d dark_mode.
Proof.
  unfold needs_conversion, stale, out_mtime.
  destruct dark_mode; simpl; rewrite orb_true_iff, Z.ltb_lt, Z.gtb_gt; reflexivity.
Qed.

Lemma stat_or_0 s p :
  try_except (stat_mtime p) (fun _ => ret 0%Z) s = (inr (mtime_or_0 s p), s).
Proof.
  unfold try_except, stat_mtime, mtime_or_0.
  destruct (fs s !! p) as [[c t|]|]; reflexivity.
Qed.

Lemma _build_mtimes_spec s c t :
  fs s !! path_join P (directory (diagram s)) (file (diagram s)) = Some (File c t) ->
  _build_mtimes P s =
    (inr tt,
     set_diagram
       (with_inc_time 0 (with_src_time t
          (with_img_time_dark (mtime_or_0 s (out_file_dark (diagram s)))
             (with_img_time (mtime_or_0 s (out_file (diagram s))) (diagram s))))) s).
Proof.
  intros Hsrc. unfold _build_mtimes.
  unfold bind at 1. unfold get_diagram at 1.
  erewrite bind_inr by apply stat_or_0.
  unfold bind at 1. unfold assign at 1.
  erewrite bind_inr; [|apply stat_or_0].
  unfold bind at 1. unfold assign at 1.
  unfold bind at 1. unfold stat_mtime at 1. simpl. rewrite Hsrc.
  destruct s as [d f h n o tc nw]. reflexivity.
Qed.

End Staleness.

(** C1 (as the specification states it, refuted): an output that does not
    exist is not always regenerated. The source [A.puml] was last modified
    at time 0 and has no output; the whole build runs without error and
    writes neither [A.png] nor [A_dark.png]. *)
Lemma missing_output_not_always_stale :
  let s0 := Example.initial (Example.alice_tree 0) in
  let r := on_pre_build Example.local_config Posix.ops
             (Example.env [py "A.puml"] 200 []) 10 s0 in
  fs s0 !! py "/w/docs/diagrams/out/A.png" = None /\
  fs s0 !! py "/w/docs/diagrams/out/A_dark.png" = None /\
  r.1 = inr tt /\
  fs r.2 !! py "/w/docs/diagrams/out/A.png" = None /\
  fs r.2 !! py "/w/docs/diagrams/out/A_dark.png" = None.
Proof. vm_compute. repeat split. Qed.

(** C1 (amended): [_convert] regenerates exactly when
    [output_mtime < source_mtime] or [include_mtime > output_mtime], for
    both passes; [_build_mtimes] records 0 for an output that does not exist,
    and such an output is stale exactly when the source or an include has a
    positive modification time. With output 100 and source 50, include 0
    gives no regeneration and include 150 gives one. *)
Theorem staleness_rule (config : Config) (P : PathOps) (E : Env)
    (s : state) (dark_mode : bool) :
  let d := diagram s in
  (stale d dark_mode ->
   _convert config P E dark_mode s =
     (print (py "Converting " ++ path_join P (directory d) (file d)) ;;
      if str_eqb (render config) (py "local")
      then convert_local config P E d dark_mode
      else convert_server config P E d dark_mode) s) /\
  (~ stale d dark_mode -> _convert config P E dark_mode s = (inr tt, s)) /\
  (forall c t,
     fs s !! path_join P (directory d) (file d) = Some (File c t) ->
     exists s', _build_mtimes P s = (inr tt, s') /\
       fs s' = fs s /\ src_time (diagram s') = t /\ inc_time (diagram s') = 0%Z /\
       img_time (diagram s') = mtime_or_0 s (out_file d) /\
       img_time_dark (diagram s') = mtime_or_0 s (out_file_dark d) /\
       (fs s !! out_file d = None -> img_time (diagram s') = 0%Z) /\
       (fs s !! out_file_dark d = None -> img_time_dark (diagram s') = 0%Z)) /\
  (out_mtime d dark_mode = 0%Z ->
   (stale d dark_mode <-> (0 < src_time d \/ 0 < inc_time d)%Z)) /\
  (out_mtime d dark_mode = 100%Z -> src_time d = 50%Z -> inc_time d = 0%Z ->
   ~ stale d dark_mode) /\
  (out_mtime d dark_mode = 100%Z -> src_time d = 50%Z -> inc_time d = 150%Z ->
   stale d dark_mode).
Proof.
  intros d. split; [|split; [|split; [|split; [|split]]]].
  - intros H%needs_conversion_stale. unfold _convert, bind at 1, get_diagram.
    fold d. rewrite H. reflexivity.
  - intros H. unfold _convert, bind at 1, get_diagram. fold d.
    destruct (needs_conversion d dark_mode) eqn:Hn; [|reflexivity].
    apply needs_conversion_stale in Hn. contradiction.
  - intros c t Hsrc. eexists. split; [apply (_build_mtimes_spec P s c t Hsrc)|].
    subst d. destruct s; simpl.
    repeat split; try reflexivity; unfold mtime_or_0; simpl; intros ->; reflexivity.
  - unfold stale. intros ->. lia.
  - unfold stale. intros -> -> ->. lia.
  - unfold stale. intros -> -> ->. lia.
Qed.

(** The rule on [A.puml] with output 100 and source 50: an include of 150
    makes the output stale, none leaves it fresh; and the times recorded for
    a tree without outputs. *)
Lemma staleness_rule_witness :
  let config := Example.local_config in
  let E := Example.env [] 200 [] in
  let d := diagram (Example.timed 150) in
  _convert config Posix.ops E false (Example.timed 150)
  = (print (py "Converting " ++ path_join Posix.ops (directory d) (file d)) ;;
     if str_eqb (render config) (py "local")
     then convert_local config Posix.ops E d false
     else convert_server config Posix.ops E d false) (Example.timed 150) /\
  _convert config Posix.ops E true (Example.timed 0) = (inr tt, Example.timed 0) /\
  exists s', _build_mtimes Posix.ops (Example.timed 0) = (inr tt, s') /\
    img_time (diagram s') = 0%Z /\ img_time_dark (diagram s') = 0%Z.
Proof.
  intros config E d. split; [|split].
  - apply (proj1 (staleness_rule config Posix.ops E (Example.timed 150) false)).
    right. reflexivity.
  - apply (proj1 (proj2 (staleness_rule config Posix.ops E (Example.timed 0) true))).
    unfold stale. cbn. lia.
  - destruct (proj1 (proj2 (proj2
        (staleness_rule config Posix.ops E (Example.timed 0) false)))
        Example.alice 50%Z) as (s' & H & _ & _ & _ & _ & _ & H1 & H2).
    + vm_compute. reflexivity.
    + exists s'. split; [exact H|]. split; [apply H1|apply H2]; vm_compute; reflexivity.
Defined.

(** ** The encoder *)

Section Base64.

Ltac lia_div := zify; Z.to_euclidean_division_equations; lia.

Lemma to_N_lt x : Byte.to_N x < 256.
Proof. pose proof (Byte.to_N_bounded x). lia. Qed.

Lemma byte_of_to_N x : byte_of (Byte.to_N x) = x.
Proof. unfold byte_of. rewrite Byte.of_to_N. reflexivity. Qed.

Lemma to_N_byte_of n : n < 256 -> Byte.to_N (byte_of n) = n.
Proof.
  intros Hn. unfold byte_of. destruct (Byte.of_N n) as [b|] eqn:Hb.
  - apply Byte.to_of_N in Hb. exact Hb.
  - apply Byte.of_N_None_iff in Hb. lia.
Qed.

(** Lists of bytes, three at a time. *)
Lemma bytes_ind3 (Q : bytes -> Prop) :
  Q [] -> (forall x, Q [x]) -> (forall x y, Q [x; y]) ->
  (forall x y z t, Q t -> Q (x :: y :: z :: t)) ->
  forall l, Q l.
Proof.
  intros H0 H1 H2 H3.
  assert (H : forall l, Q l /\ (forall x, Q (x :: l)) /\ (forall x y, Q (x :: y :: l))).
  { induction l as [|z l (IH0 & IH1 & IH2)]; [auto|].
    split; [apply IH1|]. split; [intros x; apply IH2|]. intros x y. apply H3, IH0. }
  intros l. apply H.
Qed.

Lemma sextet_cases (Q : N -> Prop) :
  (forall i : nat, (i < 64)%nat -> Q (N.of_nat i)) -> forall n, n < 64 -> Q n.
Proof. intros H n Hn. rewrite <- (N2Nat.id n). apply H. lia. Qed.

Lemma b64_index_char n : n < 64 -> b64_index (b64_char n) = Some n.
Proof.
  revert n. apply sextet_cases. intros i Hi.
  do 64 (destruct i as [|i]; [reflexivity|]). lia.
Qed.

Lemma b64_char_not_pad n : n < 64 -> Byte.eqb (b64_char n) pad = false.
Proof.
  revert n. apply sextet_cases. intros i Hi.
  do 64 (destruct i as [|i]; [reflexivity|]). lia.
Qed.

(** [b64decode] inverts [b64encode]. *)
Lemma b64decode_b64encode bs : b64decode (b64encode bs) = Some bs.
Proof.
  induction bs as [|x|x y|x y z t IH] using bytes_ind3.
  - reflexivity.
  - pose proof (to_N_lt x). cbn [b64encode b64decode].
    rewrite (byte_dec_lb (eq_refl pad)).
    rewrite !b64_index_char by lia_div.
    replace (_ + _ / 16) with (Byte.to_N x) by lia_div.
    rewrite byte_of_to_N. reflexivity.
  - pose proof (to_N_lt x). pose proof (to_N_lt y). cbn [b64encode b64decode].
    rewrite (byte_dec_lb (eq_refl pad)).
    rewrite b64_char_not_pad by lia_div.
    rewrite !b64_index_char by lia_div.
    replace (Byte.to_N x / 4 * 4 + _ / 16) with (Byte.to_N x) by lia_div.
    replace (_ mod 16 * 16 + _ / 4) with (Byte.to_N y) by lia_div.
    rewrite !byte_of_to_N. reflexivity.
  - pose proof (to_N_lt x). pose proof (to_N_lt y). pose proof (to_N_lt z).
    cbn [b64encode b64decode].
    rewrite b64_char_not_pad by lia_div.
    rewrite !b64_index_char by lia_div.
    rewrite IH. cbn [fmap option_fmap option_map].
    replace (Byte.to_N x / 4 * 4 + _ / 16) with (Byte.to_N x) by lia_div.
    replace (_ mod 16 * 16 + _ / 4) with (Byte.to_N y) by lia_div.
    replace (_ mod 4 * 64 + _) with (Byte.to_N z) by lia_div.
    rewrite !byte_of_to_N. reflexivity.
Qed.

Lemma b64_char_in n : n < 64 -> In (b64_char n) (pad :: rfc4648_alphabet).
Proof.
  intros Hn. right. unfold b64_char. apply nth_In.
  change (length rfc4648_alphabet) with 64%nat. lia.
Qed.

Lemma pad_in : In pad (pad :: rfc4648_alphabet).
Proof. left. reflexivity. Qed.

Lemma b64encode_text bs : b64_text (b64encode bs).
Proof.
  unfold b64_text.
  induction bs as [|x|x y|x y z t IH] using bytes_ind3; cbn [b64encode].
  - constructor.
  - pose proof (to_N_lt x).
    constructor; [apply b64_char_in; lia_div|].
    constructor; [apply b64_char_in; lia_div|].
    constructor; [apply pad_in|]. constructor; [apply pad_in|]. constructor.
  - pose proof (to_N_lt x). pose proof (to_N_lt y).
    constructor; [apply b64_char_in; lia_div|].
    constructor; [apply b64_char_in; lia_div|].
    constructor; [apply b64_char_in; lia_div|].
    constructor; [apply pad_in|]. constructor.
  - pose proof (to_N_lt x). pose proof (to_N_lt y). pose proof (to_N_lt z).
    constructor; [apply b64_char_in; lia_div|].
    constructor; [apply b64_char_in; lia_div|].
    constructor; [apply b64_char_in; lia_div|].
    constructor; [apply b64_char_in; lia_div|]. exact IH.
Qed.


(** On a base64 text the alphabet map is undone by the inverse map, and its
    image is ASCII. *)
Lemma translate_char c :
  In c (pad :: rfc4648_alphabet) ->
  let c' := nth (N.to_nat (Byte.to_N c)) b64_to_plantuml c in
  nth (N.to_nat (Byte.to_N c')) plantuml_to_b64 c' = c /\ Byte.to_N c' < 128.
Proof.
  intros H. cbv [pad rfc4648_alphabet pyb list_ascii_of_string List.map In] in H.
  repeat (destruct H as [<-|H]; [vm_compute; split; reflexivity|]). contradiction.
Qed.

Lemma translate_inverse cs :
  b64_text cs -> translate plantuml_to_b64 (translate b64_to_plantuml cs) = cs.
Proof.
  induction 1 as [|c cs Hc _ IH]; [reflexivity|].
  cbn [translate List.map]. fold (translate b64_to_plantuml cs).
  fold (translate plantuml_to_b64 (translate b64_to_plantuml cs)).
  rewrite IH. f_equal. apply (translate_char c Hc).
Qed.

Lemma translate_ascii cs :
  b64_text cs -> Forall (fun c => Byte.to_N c < 128) (translate b64_to_plantuml cs).
Proof.
  induction 1 as [|c cs Hc _ IH]; [constructor|].
  cbn [translate List.map]. constructor; [apply (translate_char c Hc) | exact IH].
Qed.

End Base64.

Section Utf8.

Ltac lia_div := zify; Z.to_euclidean_division_equations; lia.
Ltac ltb_true := rewrite (proj2 (N.ltb_lt _ _)) by lia_div.
Ltac ltb_false := rewrite (proj2 (N.ltb_ge _ _)) by lia_div.
Ltac leb_true := rewrite (proj2 (N.leb_le _ _)) by lia_div.
Ltac leb_false := rewrite (proj2 (N.leb_gt _ _)) by lia_div.

Lemma cont_byte k : k < 64 -> cont (byte_of (0x80 + k)) = Some k.
Proof.
  intros Hk. unfold cont. rewrite to_N_byte_of by lia.
  leb_true. ltb_true. cbn [andb]. f_equal. lia.
Qed.

Lemma utf8_decode_1 c t :
  c < 0x80 -> utf8_decode (byte_of c :: t) = cons c <$> utf8_decode t.
Proof.
  intros Hc. cbn [utf8_decode]. rewrite to_N_byte_of by lia. ltb_true. reflexivity.
Qed.

Lemma utf8_decode_2 h k2 t :
  h < 32 -> k2 < 64 -> 0x80 <= h * 64 + k2 ->
  utf8_decode (byte_of (0xC0 + h) :: byte_of (0x80 + k2) :: t)
  = cons (h * 64 + k2) <$> utf8_decode t.
Proof.
  intros Hh Hk Hc. cbn [utf8_decode]. rewrite to_N_byte_of by lia.
  do 2 ltb_false. ltb_true. rewrite cont_byte by lia.
  replace (0xC0 + h - 0xC0) with h by lia. leb_true. reflexivity.
Qed.

Lemma utf8_decode_3 h k2 k3 t :
  h < 16 -> k2 < 64 -> k3 < 64 ->
  let c := h * 4096 + k2 * 64 + k3 in
  0x800 <= c -> (c < 0xD800 \/ 0xDFFF < c) ->
  utf8_decode (byte_of (0xE0 + h) :: byte_of (0x80 + k2) :: byte_of (0x80 + k3) :: t)
  = cons c <$> utf8_decode t.
Proof.
  intros Hh Hk2 Hk3 c Hc Hs. cbn [utf8_decode]. rewrite to_N_byte_of by lia.
  do 3 ltb_false. ltb_true. rewrite !cont_byte by lia.
  replace (0xE0 + h - 0xE0) with h by lia. fold c. leb_true.
  destruct Hs as [Hs|Hs].
  - leb_false. reflexivity.
  - leb_true. leb_false. reflexivity.
Qed.

Lemma utf8_decode_4 h k2 k3 k4 t :
  h < 8 -> k2 < 64 -> k3 < 64 -> k4 < 64 ->
  let c := h * 262144 + k2 * 4096 + k3 * 64 + k4 in
  0x10000 <= c -> c < 0x110000 ->
  utf8_decode (byte_of (0xF0 + h) :: byte_of (0x80 + k2) :: byte_of (0x80 + k3)
                 :: byte_of (0x80 + k4) :: t)
  = cons c <$> utf8_decode t.
Proof.
  intros Hh Hk2 Hk3 Hk4 c Hc Hm. cbn [utf8_decode]. rewrite to_N_byte_of by lia.
  do 4 ltb_false. ltb_true. rewrite !cont_byte by lia.
  replace (0xF0 + h - 0xF0) with h by lia. fold c. leb_true. ltb_true. reflexivity.
Qed.

(** One code point: it has an encoding, and the decoder reads it back. *)
Lemma utf8_char_decode c t :
  valid_cp c ->
  exists bs, utf8_char c = Some bs /\ utf8_decode (bs ++ t) = cons c <$> utf8_decode t.
Proof.
  intros Hv. unfold valid_cp in Hv. unfold utf8_char.
  destruct (N.ltb_spec c 0x80) as [H1|H1].
  { eexists. split; [reflexivity|]. apply utf8_decode_1. exact H1. }
  destruct (N.ltb_spec c 0x800) as [H2|H2].
  { eexists. split; [reflexivity|]. cbn [app].
    rewrite utf8_decode_2 by lia_div. do 2 f_equal. lia_div. }
  destruct (N.ltb_spec c 0x10000) as [H3|H3].
  { assert (Hs : (0xD800 <=? c) && (c <=? 0xDFFF) = false).
    { destruct Hv as [Hv|Hv]; [leb_false; reflexivity|].
      leb_true. leb_false. reflexivity. }
    rewrite Hs. eexists. split; [reflexivity|]. cbn [app].
    rewrite utf8_decode_3 by lia_div. do 2 f_equal. lia_div. }
  destruct (N.ltb_spec c 0x110000) as [H4|H4]; [|lia].
  eexists. split; [reflexivity|]. cbn [app].
  rewrite utf8_decode_4 by lia_div. do 2 f_equal. lia_div.
Qed.

(** [decode("utf-8")] inverts [encode("utf-8")]. *)
Lemma utf8_roundtrip s pos :
  valid_text s ->
  exists bs, utf8_encode_from pos s = inr bs /\ utf8_decode bs = Some s.
Proof.
  intros Hv. revert pos. induction Hv as [|c s Hc _ IH]; intros pos.
  - exists []. split; reflexivity.
  - destruct (IH (S pos)) as (bs & He & Hd).
    destruct (utf8_char_decode c bs Hc) as (cb & Hcb & Hdec).
    exists (cb ++ bs). cbn [utf8_encode_from]. rewrite Hcb, He.
    split; [reflexivity|]. rewrite Hdec, Hd. reflexivity.
Qed.

(** ASCII bytes and ASCII text are the same numbers. *)
Lemma ascii_decode bs :
  Forall (fun c => Byte.to_N c < 128) bs ->
  utf8_decode bs = Some (List.map Byte.to_N bs).
Proof.
  induction 1 as [|b bs Hb _ IH]; [reflexivity|].
  rewrite <- (byte_of_to_N b) at 1. rewrite utf8_decode_1 by exact Hb.
  rewrite IH. reflexivity.
Qed.

Lemma ascii_encode bs pos :
  Forall (fun c => Byte.to_N c < 128) bs ->
  utf8_encode_from pos (List.map Byte.to_N bs) = inr bs.
Proof.
  intros H. revert pos. induction H as [|b bs Hb _ IH]; intros pos; [reflexivity|].
  cbn [List.map utf8_encode_from]. unfold utf8_char.
  rewrite (proj2 (N.ltb_lt _ _) Hb). rewrite IH, byte_of_to_N. reflexivity.
Qed.

End Utf8.

Lemma slice_2_m4_frame (z : bytes) :
  (6 <= length z)%nat ->
  take 2 z ++ slice_2_m4 z ++ drop (length z - 4) z = z.
Proof.
  intros Hz. unfold slice_2_m4.
  assert (H2 : take 2 z = take 2 (take (length z - 4) z)).
  { rewrite take_take. f_equal. lia. }
  rewrite H2, app_assoc, take_drop. apply take_drop.
Qed.

(** C2: the encoder's transform is invertible. The alphabet map sends
    the i-th character of [A-Za-z0-9+/] to the i-th of [0-9A-Za-z-_]. For a
    text without surrogates and a compressor whose stream for this text,
    stripped of its 2-byte header and 4-byte trailer, inflates back to the
    UTF-8 bytes: [_readFile]'s encoding step yields a token; applying the
    inverse alphabet map and decoding base64 gives exactly the stripped
    stream (which with the header and trailer put back is the compressor's
    stream), and inflating it and decoding UTF-8 gives the text. *)
Theorem encoder_roundtrip (compress : bytes -> exn + bytes)
    (inflate : bytes -> option bytes) (text : str) :
  valid_text text ->
  (forall data, utf8_encode text = inr data ->
     exists z, compress data = inr z /\ inflate (slice_2_m4 z) = Some data) ->
  translate b64_to_plantuml (pyb base64_alphabet) = pyb plantuml_alphabet /\
  exists token data z,
    utf8_encode text = inr data /\
    compress data = inr z /\
    plantuml_encode compress text = inr token /\
    token_raw token = Some (slice_2_m4 z) /\
    ((6 <= length z)%nat -> take 2 z ++ slice_2_m4 z ++ drop (length z - 4) z = z) /\
    plantuml_decode inflate token = Some text.
Proof.
  intros Hv Hz. split; [vm_compute; reflexivity|].
  destruct (utf8_roundtrip text O Hv) as (data & He & Hd).
  destruct (Hz data He) as (z & Hc & Hi).
  set (cs := b64encode (slice_2_m4 z)).
  pose proof (translate_ascii cs (b64encode_text _)) as Hascii.
  assert (Hraw : token_raw (List.map Byte.to_N (translate b64_to_plantuml cs))
                 = Some (slice_2_m4 z)).
  { unfold token_raw, utf8_encode. rewrite ascii_encode by exact Hascii.
    rewrite translate_inverse by apply b64encode_text. apply b64decode_b64encode. }
  exists (List.map Byte.to_N (translate b64_to_plantuml cs)), data, z.
  split; [exact He|]. split; [exact Hc|]. split; [|split; [exact Hraw|split]].
  - unfold plantuml_encode. fold (utf8_encode_from O text) in He.
    change (utf8_encode text) with (utf8_encode_from O text). rewrite He, Hc.
    fold cs. unfold decode_utf8. rewrite ascii_decode by exact Hascii. reflexivity.
  - apply slice_2_m4_frame.
  - unfold plantuml_decode. rewrite Hraw. cbn. rewrite Hi. cbn. exact Hd.
Qed.

(** The round trip on [A.puml], with a compressor of stored blocks. *)
Lemma encoder_roundtrip_witness :
  translate b64_to_plantuml (pyb base64_alphabet) = pyb plantuml_alphabet /\
  exists token data z,
    utf8_encode Example.alice = inr data /\
    Example.stored_compress data = inr z /\
    plantuml_encode Example.stored_compress Example.alice = inr token /\
    token_raw token = Some (slice_2_m4 z) /\
    ((6 <= length z)%nat -> take 2 z ++ slice_2_m4 z ++ drop (length z - 4) z = z) /\
    plantuml_decode Example.stored_inflate token = Some Example.alice.
Proof.
  apply (encoder_roundtrip Example.stored_compress Example.stored_inflate Example.alice).
  - let l := eval vm_compute in Example.alice in change (Forall valid_cp l).
    repeat (constructor; [left; reflexivity|]). constructor.
  - intros data H. vm_compute in H. injection H as <-.
    eexists. split; vm_compute; reflexivity.
Defined.

(** ** The include resolver *)

Section Shapes.

Lemma match_dollar_lang r s :
  match_dollar r s = true <-> lang r s \/ exists s', s = s' ++ [10] /\ lang r s'.
Proof.
  unfold match_dollar. rewrite orb_true_iff, fullmatch_lang. split.
  - intros [H|H]; [left; exact H|]. right.
    destruct (rev s) as [|c t] eqn:Hr; [discriminate|].
    apply andb_true_iff in H as [Hc H]. apply N.eqb_eq in Hc. subst c.
    exists (rev t). split; [|apply fullmatch_lang; exact H].
    rewrite <- (rev_involutive s), Hr. reflexivity.
  - intros [H|(s' & -> & H)]; [left; exact H|]. right.
    rewrite rev_app_distr. cbn [rev app]. rewrite rev_involutive.
    apply fullmatch_lang in H. rewrite H. reflexivity.
Qed.

(** A line that matches a pattern beginning with a literal begins with it. *)
Lemma match_dollar_prefix p r s :
  match_dollar (Cat (Lit p) r) s = true ->
  exists t, s = p ++ t /\ (lang r t \/ exists t', t = t' ++ [10] /\ lang r t').
Proof.
  intros H. apply match_dollar_lang in H as [H|(s' & -> & H)];
    apply lang_Cat_Lit in H as (t & -> & H).
  - eauto.
  - exists (t ++ [10]). rewrite app_assoc. eauto.
Qed.

Lemma lang_Plus_Space_first r t :
  lang (Cat (Plus Space) r) t -> exists c t', t = c :: t' /\ is_space c = true.
Proof.
  intros H. apply lang_Cat_inv in H as (s1 & s2 & -> & H1 & _).
  apply lang_Cat_inv in H1 as (a & b & -> & Ha & _).
  inversion Ha; subst. cbn. eauto.
Qed.

(** After the keyword of a directive pattern comes a white space. *)
Lemma directive_space p r s :
  match_dollar (Cat (Lit p) (Cat (Plus Space) r)) s = true ->
  exists c t, s = p ++ c :: t /\ is_space c = true.
Proof.
  intros H. apply match_dollar_prefix in H as (t & -> & [H|(t' & -> & H)]);
    apply lang_Plus_Space_first in H as (c & u & -> & Hc); cbn; eauto.
Qed.

Lemma include_not_includeurl line :
  match_dollar re_include line = true -> match_dollar re_includeurl line = false.
Proof.
  intros H. apply directive_space in H as (c & t & -> & Hc).
  destruct (match_dollar re_includeurl _) eqn:Hu; [|reflexivity].
  apply match_dollar_prefix in Hu as (u & Hu & _).
  change (py "!includeurl") with (py "!include" ++ py "url") in Hu.
  rewrite <- app_assoc in Hu. apply app_inv_head in Hu.
  injection Hu as -> _. discriminate.
Qed.

Lemma include_not_includesub line :
  match_dollar re_include line = true -> match_dollar re_includesub line = false.
Proof.
  intros H. apply directive_space in H as (c & t & -> & Hc).
  destruct (match_dollar re_includesub _) eqn:Hu; [|reflexivity].
  apply match_dollar_prefix in Hu as (u & Hu & _).
  change (py "!includesub") with (py "!include" ++ py "sub") in Hu.
  rewrite <- app_assoc in Hu. apply app_inv_head in Hu.
  injection Hu as -> _. discriminate.
Qed.

Lemma includesub_not_includeurl line :
  match_dollar re_includesub line = true -> match_dollar re_includeurl line = false.
Proof.
  intros H. apply match_dollar_prefix in H as (t & -> & _).
  destruct (match_dollar re_includeurl _) eqn:Hu; [|reflexivity].
  apply match_dollar_prefix in Hu as (u & Hu & _).
  change (py "!includesub") with (py "!include" ++ py "sub") in Hu.
  change (py "!includeurl") with (py "!include" ++ py "url") in Hu.
  rewrite <- !app_assoc in Hu. apply app_inv_head in Hu. discriminate.
Qed.

Lemma prefixmatch_lang r s :
  prefixmatch r s = true <-> exists s1 s2, s = s1 ++ s2 /\ lang r s1.
Proof.
  revert r. induction s as [|c s IH]; intros r; cbn [prefixmatch].
  - rewrite orb_false_r, nullable_lang. split.
    + intros H. exists [], []. auto.
    + intros (s1 & s2 & Heq & H). symmetry in Heq.
      apply app_nil_inv in Heq as [-> _]. exact H.
  - rewrite orb_true_iff, nullable_lang, IH. split.
    + intros [H|(s1 & s2 & -> & H)].
      * exists [], (c :: s). auto.
      * exists (c :: s1), s2. split; [reflexivity|]. apply deriv_lang. exact H.
    + intros (s1 & s2 & Heq & H). destruct s1 as [|d s1]; [left; exact H|].
      right. cbn in Heq. injection Heq as -> ->.
      exists s1, s2. split; [reflexivity|]. apply deriv_lang. exact H.
Qed.

Lemma prefixmatch_Lit p t : prefixmatch (Lit p) (p ++ t) = true.
Proof. apply prefixmatch_lang. exists p, t. split; [reflexivity|]. apply lang_Lit. reflexivity. Qed.

End Shapes.




(** ** What a computation leaves alone *)

Section Preserve.
Context (R : state -> state -> Prop) `{!PreOrder R}.

Lemma bind_inv {A B} (m : M A) (k : A -> M B) s r s' :
  bind m k s = (r, s') ->
  (exists e, m s = (inl e, s') /\ r = inl e) \/
  (exists a s1, m s = (inr a, s1) /\ k a s1 = (r, s')).
Proof.
  unfold bind. destruct (m s) as [[e|a] s1]; intros H.
  - injection H as <- <-. left. eauto.
  - right. eauto.
Qed.

Lemma try_except_inv {A} (m : M A) h s r s' :
  try_except m h s = (r, s') ->
  (exists a, m s = (inr a, s') /\ r = inr a) \/
  (exists e s1, m s = (inl e, s1) /\ h e s1 = (r, s')).
Proof.
  unfold try_except. destruct (m s) as [[e|a] s1]; intros H.
  - right. eauto.
  - injection H as <- <-. left. eauto.
Qed.

Lemma preserves_readonly {A} (m : M A) : readonly m -> preserves R m.
Proof. intros H s r s' Hm. rewrite (H s r s' Hm). reflexivity. Qed.

Lemma preserves_ret {A} (a : A) : preserves R (ret a).
Proof. intros s r s' H. injection H as _ <-. reflexivity. Qed.

Lemma preserves_raise {A} e : preserves R (@raise A e).
Proof. intros s r s' H. injection H as _ <-. reflexivity. Qed.

Lemma preserves_lift {A} (x : exn + A) : preserves R (lift x).
Proof. destruct x; [apply preserves_raise | apply preserves_ret]. Qed.

Lemma preserves_bind {A B} (m : M A) (k : A -> M B) :
  preserves R m -> (forall a, preserves R (k a)) -> preserves R (bind m k).
Proof.
  intros Hm Hk s r s' H. apply bind_inv in H as [(e & H & _)|(a & s1 & H1 & H2)].
  - eapply Hm, H.
  - transitivity s1; [eapply Hm, H1 | eapply Hk, H2].
Qed.

Lemma preserves_try_except {A} (m : M A) h :
  preserves R m -> (forall e, preserves R (h e)) -> preserves R (try_except m h).
Proof.
  intros Hm Hh s r s' H. apply try_except_inv in H as [(a & H & _)|(e & s1 & H1 & H2)].
  - eapply Hm, H.
  - transitivity s1; [eapply Hm, H1 | eapply Hh, H2].
Qed.

Lemma preserves_try_except_FileNotFoundError {A} (m : M A) h :
  preserves R m -> (forall e, preserves R (h e)) ->
  preserves R (try_except_FileNotFoundError m h).
Proof.
  intros Hm Hh. apply preserves_try_except; [exact Hm|].
  intros e. destruct (is_FileNotFoundError e); [apply Hh | apply preserves_raise].
Qed.

Lemma preserves_for_each {A} (l : list A) body :
  (forall x, preserves R (body x)) -> preserves R (for_each l body).
Proof.
  intros Hb. induction l as [|x l IH]; cbn [for_each].
  - apply preserves_ret.
  - apply preserves_bind; [apply Hb | intros _; exact IH].
Qed.

Lemma preserves_collect {A B} (l : list A) (f : A -> M (list B)) :
  (forall x, preserves R (f x)) -> preserves R (collect l f).
Proof.
  intros Hf. induction l as [|x l IH]; cbn [collect].
  - apply preserves_ret.
  - apply preserves_bind; [apply Hf|]. intros ys.
    apply preserves_bind; [exact IH|]. intros zs. apply preserves_ret.
Qed.

End Preserve.

(** The primitives that only read. *)
Section Readonly.

Lemma readonly_get : readonly get.
Proof. intros s r s' H. injection H as _ <-. reflexivity. Qed.

Lemma readonly_get_diagram : readonly get_diagram.
Proof. intros s r s' H. injection H as _ <-. reflexivity. Qed.

Lemma readonly_stat_mtime p : readonly (stat_mtime p).
Proof.
  intros s r s' H. unfold stat_mtime in H.
  destruct (fs s !! p) as [[? ?|]|]; injection H as _ <-; reflexivity.
Qed.

Lemma readonly_path_exists p : readonly (path_exists p).
Proof. intros s r s' H. injection H as _ <-. reflexivity. Qed.

Lemma readonly_read_text p : readonly (read_text p).
Proof.
  intros s r s' H. unfold read_text in H.
  destruct (fs s !! p) as [[? ?|]|]; injection H as _ <-; reflexivity.
Qed.

Lemma readonly_read_list l : readonly (read_list l).
Proof.
  intros s r s' H. unfold read_list in H.
  destruct (heap s !! l); injection H as _ <-; reflexivity.
Qed.

End Readonly.

(** Solves [preserves R m] by following the structure of [m]; the
    primitives are looked up in the hint database [db]. *)
Ltac pres_with db :=
  lazymatch goal with
  | |- preserves _ (bind _ _) =>
      refine (preserves_bind _ _ _ _ _); [pres_with db | intros; pres_with db]
  | |- preserves _ (try_except_FileNotFoundError _ _) =>
      refine (preserves_try_except_FileNotFoundError _ _ _ _ _);
      [pres_with db | intros; pres_with db]
  | |- preserves _ (try_except _ _) =>
      refine (preserves_try_except _ _ _ _ _); [pres_with db | intros; pres_with db]
  | |- preserves _ (for_each _ _) =>
      refine (preserves_for_each _ _ _ _); intros; pres_with db
  | |- preserves _ (collect _ _) =>
      refine (preserves_collect _ _ _ _); intros; pres_with db
  | |- preserves _ (ret _) => refine (preserves_ret _ _)
  | |- preserves _ (raise _) => refine (preserves_raise _ _)
  | |- preserves _ (lift _) => refine (preserves_lift _ _)
  | |- preserves _ (if ?b then _ else _) => destruct b; pres_with db
  | |- preserves _ (match ?x with _ => _ end) => destruct x; pres_with db
  | |- preserves _ (let _ := _ in _) => cbv zeta; pres_with db
  | |- _ => first [ solve [refine (preserves_readonly _ _ _); auto with db]
                  | solve [auto with db] ]
  end.

Create HintDb keeps.
#[export] Hint Resolve readonly_get readonly_get_diagram readonly_stat_mtime
  readonly_path_exists readonly_read_text readonly_read_list : keeps.

(** ** Building the diagram object *)

Section Load.
Context (config : Config) (P : PathOps) (E : Env).

Ltac step := erewrite bind_inr by reflexivity.

(** Projections of states and diagrams after assignments. *)
Ltac simpl_state :=
  cbn [diagram fs heap next_loc stdout tmp_count now
       set_diagram set_fs set_heap set_stdout set_tmp_count
       file directory out_dir root_dir img_time img_time_dark inc_time src_time
       out_file out_file_dark b64encoded concat_file src_file
       with_out_dir with_root_dir with_img_time with_img_time_dark with_inc_time
       with_src_time with_out_file with_out_file_dark with_b64encoded
       with_concat_file with_src_file PuElement_init] in *.

Lemma search_start_tag_ok st l xs :
  src_file (diagram st) = Some l -> heap st !! l = Some xs ->
  exists b d', _search_start_tag config P st = (inr b, set_diagram d' st) /\
    src_file d' = Some l /\ file d' = file (diagram st) /\
    directory d' = directory (diagram st) /\ root_dir d' = root_dir (diagram st).
Proof.
  intros Hsrc Hheap. unfold _search_start_tag.
  destruct (find_start_tag xs) as [name|] eqn:Hfind.
  - eexists true, _. split.
    + step. cbn beta. rewrite Hsrc.
      erewrite bind_inr by (unfold read_list; rewrite Hheap; reflexivity).
      rewrite Hfind. cbv beta iota. do 2 step. reflexivity.
    + cbn. auto.
  - exists false, (diagram st). split.
    + step. cbn beta. rewrite Hsrc.
      erewrite bind_inr by (unfold read_list; rewrite Hheap; reflexivity).
      rewrite Hfind. cbv beta iota. destruct st; reflexivity.
    + auto.
Qed.

Lemma build_out_filename_ok st :
  exists d', _build_out_filename config P st = (inr tt, set_diagram d' st) /\
    src_file d' = src_file (diagram st) /\ file d' = file (diagram st) /\
    directory d' = directory (diagram st) /\ root_dir d' = root_dir (diagram st).
Proof.
  unfold _build_out_filename.
  destruct (rfind 46 (file (diagram st))) as [i|] eqn:Hr.
  - eexists. split.
    + step. cbn beta. rewrite Hr. cbv beta iota. repeat step. reflexivity.
    + cbn. auto.
  - eexists. split.
    + step. cbn beta. rewrite Hr. cbv beta iota. repeat step. reflexivity.
    + cbn. auto.
Qed.

(** Building the diagram object succeeds when the source file is there:
    it only assigns fields of the diagram and allocates the list of lines. *)
Lemma load_diagram_ok root subdir fname st content t :
  fs st !! path_join P subdir fname = Some (File content t) ->
  exists d',
    load_diagram config P E root subdir fname st
    = (inr tt, set_diagram d'
                 (set_heap (<[next_loc st := readlines content]> (heap st))
                           (S (next_loc st)) st)) /\
    src_file d' = Some (next_loc st) /\ file d' = fname /\ directory d' = subdir /\
    root_dir d' = DiagramRoot.root_dir root.
Proof.
  intros Hfile.
  cut (forall r, r = load_diagram config P E root subdir fname st ->
         exists d', r = (inr tt, set_diagram d'
                             (set_heap (<[next_loc st := readlines content]> (heap st))
                                       (S (next_loc st)) st)) /\
           src_file d' = Some (next_loc st) /\ file d' = fname /\ directory d' = subdir /\
           root_dir d' = DiagramRoot.root_dir root);
    [intros H; apply (H _ eq_refl)|].
  intros r Hr. unfold load_diagram in Hr. revert Hr.
  do 3 step.
  erewrite bind_inr by (unfold read_text; cbn [fs set_diagram]; rewrite Hfile; reflexivity).
  do 2 step. simpl_state.
  match goal with |- context [bind (_search_start_tag _ _) _ ?s] => set (st1 := s) end.
  destruct (search_start_tag_ok st1 (next_loc st) (readlines content))
    as (b & d1 & Hs & Hd1 & Hf1 & Hdir1 & Hr1); [reflexivity|apply lookup_insert_eq|].
  cbn in Hf1, Hdir1, Hr1.
  rewrite (bind_inr _ _ _ _ _ Hs).
  assert (Hbuild : exists d2,
             (if b then ret tt else _build_out_filename config P) (set_diagram d1 st1)
             = (inr tt, set_diagram d2 st1) /\
             src_file d2 = Some (next_loc st) /\ file d2 = fname /\ directory d2 = subdir
             /\ root_dir d2 = DiagramRoot.root_dir root).
  { destruct b.
    - exists d1. split; [reflexivity|]. auto.
    - destruct (build_out_filename_ok (set_diagram d1 st1))
        as (d2 & H & H1 & H2 & H3 & H4).
      exists d2. split; [exact H|]. cbn in H1, H2, H3, H4. split; [congruence|].
      split; [congruence|]. split; congruence. }
  destruct Hbuild as (d2 & Hb & Hd2 & Hf2 & Hdir2 & Hr2).
  rewrite (bind_inr _ _ _ _ _ Hb).
  rewrite (_build_mtimes_spec P (set_diagram d2 st1) content t)
    by (cbn [diagram fs set_diagram]; rewrite Hf2, Hdir2; exact Hfile).
  intros ->. eexists. split; [reflexivity|]. cbn. auto.
Qed.

End Load.

(** ** The source lines are not modified *)

Section KeepsList.
Context (l : loc).

#[local] Instance keeps_list_preorder : PreOrder (keeps_list l).
Proof.
  split.
  - intros s. unfold keeps_list. auto.
  - intros a b c Hab Hbc. unfold keeps_list in *. intros H. destruct (Hab H) as (H1 & H2 & H3).
    destruct (Hbc H1) as (H4 & H5 & H6). split; [exact H4|]. split; congruence.
Qed.

Lemma keeps_print msg : preserves (keeps_list l) (print msg).
Proof. intros s r s' H. injection H as _ <-. unfold keeps_list. intros Hl. auto. Qed.

Lemma keeps_assign f :
  (forall d, src_file (f d) = src_file d) -> preserves (keeps_list l) (assign f).
Proof. intros Hf s r s' H. injection H as _ <-. unfold keeps_list. intros Hl. cbn. auto. Qed.

Lemma keeps_new_list xs : preserves (keeps_list l) (new_list xs).
Proof.
  intros s r s' H. injection H as _ <-. unfold keeps_list. intros Hl. cbn.
  split; [lia|]. split; [|reflexivity]. apply lookup_insert_ne. lia.
Qed.

Lemma keeps_list_setitem lines i v :
  lines <> l -> preserves (keeps_list l) (list_setitem lines i v).
Proof.
  intros Hne s r s' H. unfold list_setitem in H.
  destruct (heap s !! lines); injection H as _ <-; unfold keeps_list; intros Hl; cbn; [|auto].
  split; [exact Hl|]. split; [|reflexivity]. apply lookup_insert_ne. exact Hne.
Qed.

(** A change of the file system or of the counters is no change here. *)
Lemma keeps_list_same s s' :
  heap s' = heap s -> next_loc s' = next_loc s -> diagram s' = diagram s ->
  keeps_list l s s'.
Proof. intros H1 H2 H3. unfold keeps_list. intros Hl. rewrite H1, H2, H3. auto. Qed.

Lemma keeps_write_text P p c : preserves (keeps_list l) (write_text P p c).
Proof.
  intros s r s' H. unfold write_text in H.
  repeat case_match; simplify_eq; apply keeps_list_same; reflexivity.
Qed.

Lemma keeps_move_to P name c dst : preserves (keeps_list l) (move_to P name c dst).
Proof.
  intros s r s' H. unfold move_to in H.
  repeat case_match; simplify_eq; apply keeps_list_same; reflexivity.
Qed.

Lemma keeps_mkdir_parents P p : preserves (keeps_list l) (mkdir_parents P p).
Proof.
  unfold mkdir_parents. refine (preserves_for_each _ _ _ _). intros q. unfold preserves.
  intros s r s' H.
  repeat case_match; simplify_eq; apply keeps_list_same; reflexivity.
Qed.

Lemma keeps_new_temp_file E text : preserves (keeps_list l) (new_temp_file E text).
Proof. intros s r s' H. injection H as _ <-. apply keeps_list_same; reflexivity. Qed.

Lemma keeps_new_temp_dir E : preserves (keeps_list l) (new_temp_dir E).
Proof. intros s r s' H. injection H as _ <-. apply keeps_list_same; reflexivity. Qed.

Hint Resolve keeps_print keeps_assign keeps_new_list keeps_list_setitem keeps_write_text
  keeps_move_to keeps_mkdir_parents keeps_new_temp_file keeps_new_temp_dir : keeps.

Section Functions.
Context (config : Config) (P : PathOps) (E : Env).

Lemma keeps_pretty_print_svg c : preserves (keeps_list l) (_pretty_print_svg E c).
Proof. unfold _pretty_print_svg. pres_with keeps. Qed.
Hint Resolve keeps_pretty_print_svg : keeps.

Lemma keeps_decode_content c : preserves (keeps_list l) (decode_content c).
Proof. unfold decode_content. pres_with keeps. Qed.
Hint Resolve keeps_decode_content : keeps.

Lemma keeps_call_server f : preserves (keeps_list l) (_call_server config P E f).
Proof. unfold _call_server. pres_with keeps. Qed.
Hint Resolve keeps_call_server : keeps.

Lemma keeps_convert dark_mode : preserves (keeps_list l) (_convert config P E dark_mode).
Proof. unfold _convert, convert_local, convert_server. pres_with keeps. Qed.

Lemma keeps_encode_and_store t : preserves (keeps_list l) (encode_and_store E t).
Proof. unfold encode_and_store. pres_with keeps. Qed.

Lemma keeps_note_inc_time p : preserves (keeps_list l) (note_inc_time p).
Proof. unfold note_inc_time. pres_with keeps. Qed.
Hint Resolve keeps_note_inc_time : keeps.

Lemma keeps_read_incl_sub t d p n : preserves (keeps_list l) (_read_incl_sub P t d p n).
Proof. unfold _read_incl_sub. pres_with keeps. Qed.
Hint Resolve keeps_read_incl_sub : keeps.

(** A computation that goes on with a fresh list. *)
Lemma keeps_fresh {A} xs (k : loc -> M A) :
  (forall lines, lines <> l -> preserves (keeps_list l) (k lines)) ->
  preserves (keeps_list l) (bind (new_list xs) k).
Proof.
  intros Hk s r s' H. unfold keeps_list. intros Hl. unfold bind, new_list in H.
  assert (Hne : next_loc s <> l) by lia.
  pose proof (Hk _ Hne _ _ _ H) as Hs.
  unfold keeps_list in Hs. destruct Hs as (H1 & H2 & H3); [cbn; lia|].
  split; [exact H1|]. split; [|exact H3].
  rewrite H2. cbn. apply lookup_insert_ne. exact Hne.
Qed.

Lemma keeps_read_incl_line_file rec t d p :
  (forall lines dir dm, lines <> l -> preserves (keeps_list l) (rec lines dir dm)) ->
  preserves (keeps_list l) (_read_incl_line_file P rec t d p).
Proof.
  intros Hrec. unfold _read_incl_line_file.
  refine (preserves_bind _ _ _ _ _); [pres_with keeps|]. intros _.
  refine (preserves_bind _ _ _ _ _); [pres_with keeps|]. intros content.
  apply keeps_fresh. intros lines Hne. apply Hrec. exact Hne.
Qed.

Lemma keeps_readIncludeLine rec line t dir d :
  (forall lines dir dm, lines <> l -> preserves (keeps_list l) (rec lines dir dm)) ->
  preserves (keeps_list l) (_readIncludeLine config P rec line t dir d).
Proof.
  intros Hrec. pose proof (keeps_read_incl_line_file rec) as Hfile.
  unfold _readIncludeLine. pres_with keeps.
Qed.

Lemma keeps_readFileRecursively depth lines dir d :
  lines <> l -> preserves (keeps_list l) (_readFileRecursively config P depth lines dir d).
Proof.
  revert lines dir d. induction depth as [|depth IH]; intros lines dir d Hne;
    cbn [_readFileRecursively].
  - refine (preserves_raise _ _).
  - pose proof (fun line t dir d => keeps_readIncludeLine _ line t dir d IH) as Hline.
    unfold process_includes. pres_with keeps.
Qed.

Lemma keeps_flatten_source depth d :
  preserves (keeps_list l) (flatten_source config P depth d).
Proof.
  unfold flatten_source.
  refine (preserves_bind _ _ _ _ _); [pres_with keeps|]. intros dg.
  refine (preserves_bind _ _ _ _ _); [pres_with keeps|]. intros _.
  destruct (src_file dg) as [l0|].
  - intros s r s' H. unfold bind at 1 in H. unfold bind at 1 in H.
    destruct (read_list l0 s) as [[e|xs] s1] eqn:Hr;
      pose proof (readonly_read_list _ _ _ _ Hr) as ->.
    + injection H as _ <-. reflexivity.
    + refine (keeps_fresh xs (fun lines => _readFileRecursively config P depth lines _ d) _ s r s' H).
      intros lines Hne. apply keeps_readFileRecursively. exact Hne.
  - intros s r s' H. injection H as _ <-. reflexivity.
Qed.

Lemma keeps_readFile depth d : preserves (keeps_list l) (_readFile config P E depth d).
Proof.
  unfold _readFile. refine (preserves_bind _ _ _ _ _); [apply keeps_flatten_source|].
  intros t. apply keeps_encode_and_store.
Qed.

End Functions.
End KeepsList.

(** C10: flattening and encoding leave the raw source lines alone.
    [diagram.src_file] refers to the list object [l], which holds [xs].
    Whatever [_readFile] does in either pass, and whether it returns or
    raises, afterwards [diagram.src_file] is still [l] and [l] still holds
    [xs]; the same is true after the four steps of both passes; and the
    dark pass starts from a state where [l] holds [xs], as the normal pass
    did. In particular, when a source file has been processed, with
    whatever outcome, [diagram.src_file] is the list of the lines read from
    that file. *)
Theorem src_file_unchanged (config : Config) (P : PathOps) (E : Env) (depth : nat)
    (s : state) (l : loc) (xs : list str) :
  src_file (diagram s) = Some l ->
  heap s !! l = Some xs ->
  (l < next_loc s)%nat ->
  let same := fun s' : state =>
    src_file (diagram s') = Some l /\ heap s' !! l = Some xs /\ (l < next_loc s')%nat in
  (forall dark_mode r s', _readFile config P E depth dark_mode s = (r, s') -> same s') /\
  (forall r s',
     (_readFile config P E depth false ;; _convert config P E false ;;
      _readFile config P E depth true ;; _convert config P E true) s = (r, s') ->
     same s') /\
  (forall s1 s2,
     _readFile config P E depth false s = (inr tt, s1) ->
     _convert config P E false s1 = (inr tt, s2) -> same s2) /\
  (forall root subdir fname s0 content t r s',
     fs s0 !! path_join P subdir fname = Some (File content t) ->
     process_file config P E depth root subdir fname s0 = (r, s') ->
     src_file (diagram s') = Some (next_loc s0) /\
     heap s' !! next_loc s0 = Some (readlines content)).
Proof.
  intros Hsrc Hheap Hl same.
  assert (Hpasses : forall l0, preserves (keeps_list l0)
            (_readFile config P E depth false ;; _convert config P E false ;;
             _readFile config P E depth true ;; _convert config P E true)).
  { intros l0. pose proof (keeps_readFile l0 config P E depth) as Hread0.
    pose proof (keeps_convert l0 config P E) as Hconv0.
    assert (HR0 : PreOrder (keeps_list l0)) by apply keeps_list_preorder.
    repeat (refine (preserves_bind _ _ _ _ _); [auto|intros _]). auto. }
  assert (Hkeep : forall s', keeps_list l s s' -> same s').
  { intros s' Hk. destruct (Hk Hl) as (H1 & H2 & H3).
    unfold same. rewrite H3, H2. auto. }
  pose proof (keeps_readFile l config P E depth) as Hread.
  pose proof (keeps_convert l config P E) as Hconv.
  assert (HR : PreOrder (keeps_list l)) by apply keeps_list_preorder.
  split; [|split; [|split]].
  - intros dark_mode r s' H. apply Hkeep. exact (Hread dark_mode _ _ _ H).
  - intros r s' H. apply Hkeep. exact (Hpasses l _ _ _ H).
  - intros s1 s2 H1 H2. apply Hkeep.
    transitivity s1; [exact (Hread _ _ _ _ H1) | exact (Hconv _ _ _ _ H2)].
  - intros root subdir fname s0 content t r s' Hfile Hrun.
    destruct (load_diagram_ok config P E root subdir fname s0 content t Hfile)
      as (d' & Hload & Hd' & _).
    unfold process_file in Hrun. rewrite (bind_inr _ _ _ _ _ Hload) in Hrun.
    destruct (Hpasses (next_loc s0) _ _ _ Hrun) as (_ & H2 & H3); [cbn; lia|].
    rewrite H3, H2. cbn. rewrite lookup_insert_eq. auto.
Qed.

(** Both passes over [A.puml], rendered locally. *)
Lemma src_file_unchanged_witness :
  let s := Example.loaded (Example.alice_tree 50) in
  let run := (_readFile Example.local_config Posix.ops (Example.env [] 200 []) 10 false ;;
              _convert Example.local_config Posix.ops (Example.env [] 200 []) false ;;
              _readFile Example.local_config Posix.ops (Example.env [] 200 []) 10 true ;;
              _convert Example.local_config Posix.ops (Example.env [] 200 []) true) s in
  run.1 = inr tt /\
  src_file (diagram run.2) = Some O /\
  heap run.2 !! O = Some (readlines Example.alice) /\ (O < next_loc run.2)%nat.
Proof.
  intros s run. split; [vm_compute; reflexivity|].
  refine (proj1 (proj2 (src_file_unchanged Example.local_config Posix.ops
                          (Example.env [] 200 []) 10 s O (readlines Example.alice)
                          _ _ _)) run.1 run.2 _).
  - reflexivity.
  - vm_compute. reflexivity.
  - vm_compute. lia.
  - apply surjective_pairing.
Defined.

(** ** A failing encoder *)



(** ** A malformed [!includesub] *)

Section Malformed.
Context (config : Config) (P : PathOps) (E : Env).

Lemma readIncludeLine_malformed rec line temp_file dir dark_mode st :
  match_dollar re_includesub line = true ->
  length (str_split 33 (strip (drop 11 line))) <> 2%nat ->
  _readIncludeLine config P rec line temp_file dir dark_mode st
  = (inl invalid_includesub, st).
Proof.
  intros Hsub Hlen. unfold _readIncludeLine.
  rewrite (includesub_not_includeurl line Hsub), Hsub.
  destruct (str_split 33 (strip (drop 11 line))) as [|a [|b [|c rest]]];
    try reflexivity. contradiction Hlen. reflexivity.
Qed.

Lemma includesub_is_include line :
  match_dollar re_includesub line = true -> prefixmatch re_include_prefix line = true.
Proof.
  intros H. apply match_dollar_prefix in H as (t & -> & _).
  change (py "!includesub") with (py "!include" ++ py "sub").
  rewrite <- app_assoc. apply prefixmatch_Lit.
Qed.

Lemma preprocess_includes_first pre line post i :
  Forall (fun x => prefixmatch re_include_prefix (strip x) = false) pre ->
  prefixmatch re_include_prefix (strip line) = true ->
  preprocess_includes_from i (pre ++ line :: post)
  = (i + length pre, strip line)%nat
      :: preprocess_includes_from (S (i + length pre)) post.
Proof.
  intros Hpre Hline. revert i. induction Hpre as [|x pre Hx _ IH]; intros i.
  - cbn [app preprocess_includes_from length]. rewrite Hline, Nat.add_0_r. reflexivity.
  - cbn [app preprocess_includes_from]. rewrite Hx, IH. cbn [length].
    rewrite <- !Nat.add_succ_comm. reflexivity.
Qed.

Lemma for_each_raise {A} (x : A) l body st e st' :
  body x st = (inl e, st') -> for_each (x :: l) body st = (inl e, st').
Proof. intros H. cbn [for_each]. apply (bind_inl _ _ _ _ _ H). Qed.

End Malformed.

(** C9 (as the specification states it, refuted): the error does not abort
    only the diagram that has the malformed line. [Bad.puml] holds
    [!includesub foo.puml] and is processed first; [on_pre_build] raises
    the format error and [A.puml] is never rendered, although the same
    build without [Bad.puml] renders it. *)
Lemma malformed_includesub_not_isolated :
  let run := fun files =>
    on_pre_build Example.local_config Posix.ops (Example.env files 200 []) 10
      (Example.initial Example.bad_tree) in
  (run [py "Bad.puml"; py "A.puml"]).1 = inl invalid_includesub /\
  fs (run [py "Bad.puml"; py "A.puml"]).2 !! py "/w/docs/diagrams/out/A.png" = None /\
  (run [py "A.puml"]).1 = inr tt /\
  fs (run [py "A.puml"]).2 !! py "/w/docs/diagrams/out/A.png" <> None.
Proof. vm_compute. repeat split. discriminate. Qed.

(** ** Where the program departs from its description *)

Section Defects.
Context (config : Config) (P : PathOps) (E : Env).

Lemma returns_only_bind {A B} (Q : B -> Prop) (m : M A) (k : A -> M B) :
  (forall a, returns_only Q (k a)) -> returns_only Q (bind m k).
Proof.
  intros Hk s b s' H. apply bind_inv in H as [(e & _ & He)|(a & s1 & _ & H)];
    [discriminate|]. exact (Hk a _ _ _ H).
Qed.

Lemma returns_only_ret {A} (Q : A -> Prop) (a : A) : Q a -> returns_only Q (ret a).
Proof. intros Ha s b s' H. injection H as <- _. exact Ha. Qed.

Lemma returns_only_raise {A} (Q : A -> Prop) e : returns_only Q (raise e).
Proof. intros s b s' H. discriminate. Qed.

(** Whatever [_call_server] returns is [None]. *)
Lemma call_server_returns_None out :
  returns_only (fun content => content = None) (_call_server config P E out).
Proof.
  unfold _call_server.
  apply returns_only_bind. intros d. apply returns_only_bind. intros _.
  destruct (http_request E _ _) as [error|[status content]].
  - apply returns_only_bind. intros _. apply returns_only_raise.
  - apply returns_only_bind. intros _. destruct (negb (status =? 200)%Z).
    + apply returns_only_bind. intros _. apply returns_only_ret. reflexivity.
    + repeat (apply returns_only_bind; intros ?). apply returns_only_ret. reflexivity.
Qed.

(** The server branch of [_convert] never returns: it raises what
    [_call_server] raised, or [AttributeError] for the [None] it got. *)
Lemma convert_server_raises d dark_mode : always_raises (convert_server config P E d dark_mode).
Proof.
  intros s. unfold convert_server. unfold bind at 1. unfold print at 1.
  match goal with |- context [bind (_call_server config P E ?o) _ ?st] =>
    destruct (_call_server config P E o st) as [[e|content] s1] eqn:Hcall end.
  - rewrite (bind_inl _ _ _ _ _ Hcall). eauto.
  - rewrite (bind_inr _ _ _ _ _ Hcall).
    rewrite (call_server_returns_None _ _ _ _ Hcall).
    destruct (str_eqb (output_format config) (py "svg")).
    + unfold bind at 1, try_except, decode_content, bind at 1, raise, print. eauto.
    + unfold bind at 1, decode_content, raise. eauto.
Qed.

(** No path of [_read_incl_sub] returns a value. *)
Lemma read_incl_sub_raises temp_file dark_mode inc_file_abs inc_sub_name :
  always_raises (_read_incl_sub P temp_file dark_mode inc_file_abs inc_sub_name).
Proof.
  intros s. unfold _read_incl_sub.
  destruct (note_inc_time inc_file_abs s) as [[e|[]] s1] eqn:H1.
  - rewrite (bind_inl _ _ _ _ _ H1). eauto.
  - rewrite (bind_inr _ _ _ _ _ H1).
    destruct (read_text inc_file_abs s1) as [[e|c] s2] eqn:H2.
    + rewrite (bind_inl _ _ _ _ _ H2). eauto.
    + rewrite (bind_inr _ _ _ _ _ H2). unfold raise. eauto.
Qed.

End Defects.

(** C3 (the program fails the claim): [Sub.puml] holds
    [!includesub include/parts.puml!X], and [include/parts.puml] exists
    under the diagram root with a [!startsub X] block. The lines between the
    markers are [Bob->Carol] and [Carol->Bob], yet the directive is not
    replaced by them: [_read_incl_sub] calls [_readFileRecursively] with one
    argument too many, and [on_pre_build] ends with that [TypeError],
    without an output. *)
Theorem includesub_raises_TypeError :
  (forall P temp_file dark_mode inc_file_abs inc_sub_name,
     always_raises (_read_incl_sub P temp_file dark_mode inc_file_abs inc_sub_name)) /\
  let r := on_pre_build Example.local_config Posix.ops
             (Example.env [py "Sub.puml"] 200 []) 10
             (Example.initial Example.sub_tree) in
  extract_sub (py "X") false (readlines Example.sub_parts)
  = [py "Bob->Carol"; py "Carol->Bob"] /\
  r.1 = inl (TypeError (py "BuildPlantumlPlugin._readFileRecursively() takes 5 positional arguments but 6 were given")) /\
  fs r.2 !! py "/w/docs/diagrams/out/Sub.png" = None /\
  fs r.2 !! py "/w/docs/diagrams/out/Sub_dark.png" = None.
Proof. split; [exact read_incl_sub_raises|]. vm_compute. repeat split. Qed.

(** C4 (the program fails the claim): in server mode with a server that
    answers 404, [_call_server] prints the status and returns [None];
    [_convert] then calls [decode] on it. The [AttributeError] leaves
    [on_pre_build]: nothing is written, and [B.puml], the next diagram, is
    not processed. *)
Theorem server_non_200_aborts_batch :
  (forall config P E out_file,
     returns_only (fun content => content = None) (_call_server config P E out_file)) /\
  (forall config P E d dark_mode, always_raises (convert_server config P E d dark_mode)) /\
  let r := on_pre_build Example.default_config Posix.ops
             (Example.env [py "A.puml"; py "B.puml"] 404 []) 10
             (Example.initial Example.two_tree) in
  r.1 = inl (AttributeError (py "'NoneType' object has no attribute 'decode'")) /\
  fs r.2 !! py "/w/docs/diagrams/out/A.png" = None /\
  fs r.2 !! py "/w/docs/diagrams/out/B.png" = None /\
  stdout r.2 =
    [py "root dir: /w/docs/diagrams, src dir: /w/docs/diagrams/src";
     py "Processing diagram A.puml";
     py "Converting /w/docs/diagrams/src/A.puml";
     py "Converting with PlantUML Server";
     py "Making request to URL: https://www.plantuml.com/plantuml/png/0Hq0ulz0StHXSdHrRMmAGMnfOsKjFa9lOWf0PMvaTMri2W==";
     py "Response status: 404";
     py "Wrong response status for A.puml: 404"].
Proof.
  split; [exact call_server_returns_None|]. split; [exact convert_server_raises|].
  vm_compute. repeat split.
Qed.

(** C8 (the program fails the claim): [prettify_svg] is never read. The
    build is the same for both values of the option, and with the option
    off (its default) and the format [svg], the rendered output is
    pretty-printed all the same. *)
Theorem prettify_svg_ignored :
  (forall (config : Config) (b : bool) (P : PathOps) (E : Env) (depth : nat),
     on_pre_build (with_prettify_svg b config) P E depth = on_pre_build config P E depth) /\
  let r := on_pre_build Example.svg_local_config Posix.ops
             (Example.env [py "A.puml"] 200 []) 10
             (Example.initial (Example.alice_tree 50)) in
  prettify_svg Example.svg_local_config = false /\
  r.1 = inr tt /\
  fs r.2 !! py "/w/docs/diagrams/out/A.svg"
  = Some (File (py "<!--pretty-->/usr/local/bin/plantuml -tsvg /w/docs/diagrams/src/A.puml -o /tmp/tmpdir0 ") 1000).
Proof.
  split.
  - intros config b P E depth. destruct config. reflexivity.
  - vm_compute. repeat split.
Qed.

(** ** The dark pass *)

Section DarkPass.
Context (config : Config) (P : PathOps) (E : Env).

Ltac step := erewrite bind_inr by reflexivity.

Lemma convert_dark_local_no_theme s g gs :
  let out := out_file_dark (diagram s) in
  theme_enabled config = false ->
  str_eqb (render config) (py "local") = true ->
  needs_conversion (diagram s) true = true ->
  plantuml_call E (dark_command config P E s) (fs s) = inr (g :: gs) ->
  fs s !! out <> Some Dir ->
  fs s !! path_parent P out = Some Dir ->
  exists s', _convert config P E true s = (inr tt, s') /\
             fs s' = <[out := File (final_content config E g.2) (now s)]> (fs s).
Proof.
  intros out Htheme Hlocal Hstale Hcall Hout Hparent.
  assert (Hne : path_parent P out <> out) by (intros Heq; rewrite Heq in Hparent; auto).
  assert (Hmove : forall st, fs st = fs s -> now st = now s ->
            move_to P g.1 g.2 out st
            = (inr tt, set_fs (<[out := File g.2 (now s)]> (fs s)) st)).
  { intros st Hfs Hnow. unfold move_to. rewrite Hfs, Hparent, Hnow.
    destruct (fs s !! out) as [[c t|]|]; try reflexivity. contradiction Hout. reflexivity. }
  assert (Hprefix :
    _convert config P E true s =
    (move_to P g.1 g.2 out ;;
     if str_eqb (output_format config) (py "svg") then
       try_except
         (svg_content <- read_text out ;;
          formatted_svg <- _pretty_print_svg E svg_content ;;
          write_text P out formatted_svg ;;
          print (py "Formatting SVG content successful."))
         (fun e => print (py "Error formatting SVG content: " ++ exn_str e))
     else ret tt)
      (set_tmp_count (S (tmp_count s))
         (set_stdout ((stdout s ++ [py "Converting " ++ path_join P (directory (diagram s))
                                                          (file (diagram s))])
                        ++ [py "Converting Locally"]) s))).
  { unfold _convert. step. cbv beta. rewrite Hstale. step. rewrite Hlocal.
    unfold convert_local. step. rewrite Htheme. step. cbv beta iota zeta.
    step. step. cbn [fs set_stdout set_tmp_count].
    match goal with |- context [plantuml_call E ?a] =>
      change a with (dark_command config P E s) end.
    rewrite Hcall. step. cbv beta iota. reflexivity. }
  rewrite Hprefix. clear Hprefix.
  erewrite bind_inr by (apply Hmove; reflexivity).
  unfold final_content.
  destruct (str_eqb (output_format config) (py "svg")).
  2:{ eexists. split; reflexivity. }
  assert (Hwrite : forall st c, fs st = <[out := File g.2 (now s)]> (fs s) -> now st = now s ->
            write_text P out c st
            = (inr tt, set_fs (<[out := File c (now s)]> (fs s)) st)).
  { intros st c Hfs Hnow. unfold write_text.
    rewrite Hfs, lookup_insert_eq, (lookup_insert_ne _ _ _ _ (not_eq_sym Hne)), Hparent.
    rewrite insert_insert_eq, Hnow. reflexivity. }
  unfold try_except.
  erewrite bind_inr
    by (unfold read_text; cbn [fs set_fs]; rewrite lookup_insert_eq; reflexivity).
  unfold _pretty_print_svg.
  destruct (etree_pretty E g.2) as [e|pretty_xml].
  - erewrite bind_inr by reflexivity.
    erewrite bind_inr by (apply Hwrite; reflexivity).
    eexists. split; reflexivity.
  - erewrite bind_inr by reflexivity.
    erewrite bind_inr by (apply Hwrite; reflexivity).
    eexists. split; reflexivity.
Qed.

End DarkPass.

(** C7 (as the specification states it, refuted): the dark pass is not
    reserved to [theme_enabled]. With the option off (its default) and a
    local renderer, the build of [A.puml] resolves the source twice and
    writes [A_dark.png], rendered with [-darkmode]. *)
Lemma dark_pass_without_theme :
  let r := on_pre_build Example.local_config Posix.ops
             (Example.env [py "A.puml"] 200 []) 10
             (Example.initial (Example.alice_tree 50)) in
  theme_enabled Example.local_config = false /\
  r.1 = inr tt /\
  fs r.2 !! py "/w/docs/diagrams/out/A_dark.png"
  = Some (File (py "/usr/local/bin/plantuml -tpng /w/docs/diagrams/src/A.puml -darkmode -o /tmp/tmpdir1 ") 1000) /\
  stdout r.2 =
    [py "root dir: /w/docs/diagrams, src dir: /w/docs/diagrams/src";
     py "Processing diagram A.puml"; py "Converting /w/docs/diagrams/src/A.puml";
     py "Converting Locally";
     py "Processing diagram A.puml"; py "Converting /w/docs/diagrams/src/A.puml";
     py "Converting Locally"].
Proof. vm_compute. repeat split. Qed.

(** C7 (amended): both passes are performed for every diagram, whatever
    [theme_enabled] is. Resolution does not read the option; when the
    normal pass of a file has completed, the dark pass (resolution with the
    substitution, then [_convert] for the [_dark] output) is what
    [process_file] runs next; and with the option off, a local renderer and
    a stale [_dark] output, that [_convert] calls PlantUML on the source
    file with [-darkmode] and writes the [_dark] output. *)
Theorem dark_pass_unconditional (config : Config) (P : PathOps) (E : Env) (depth : nat)
    (root : DiagramRoot.t) (subdir fname : str) (s s1 s2 : state)
    (g : str * str) (gs : list (str * str)) :
  (forall b dark_mode,
     _readFile (with_theme_enabled b config) P E depth dark_mode
     = _readFile config P E depth dark_mode) /\
  ((load_diagram config P E root subdir fname ;;
    _readFile config P E depth false ;; _convert config P E false) s = (inr tt, s1) ->
   process_file config P E depth root subdir fname s
   = (_readFile config P E depth true ;; _convert config P E true) s1) /\
  (theme_enabled config = false ->
   str_eqb (render config) (py "local") = true ->
   needs_conversion (diagram s2) true = true ->
   plantuml_call E (dark_command config P E s2) (fs s2) = inr (g :: gs) ->
   fs s2 !! out_file_dark (diagram s2) <> Some Dir ->
   fs s2 !! path_parent P (out_file_dark (diagram s2)) = Some Dir ->
   exists s', _convert config P E true s2 = (inr tt, s') /\
     fs s' = <[out_file_dark (diagram s2) := File (final_content config E g.2) (now s2)]>
               (fs s2)).
Proof.
  split; [|split].
  - intros b dark_mode. destruct config. reflexivity.
  - intros H. unfold process_file.
    apply bind_inv in H as [(e & _ & He)|([] & sa & Ha & H)]; [discriminate|].
    apply bind_inv in H as [(e & _ & He)|([] & sb & Hb & Hc)]; [discriminate|].
    rewrite (bind_inr _ _ _ _ _ Ha), (bind_inr _ _ _ _ _ Hb), (bind_inr _ _ _ _ _ Hc).
    reflexivity.
  - apply convert_dark_local_no_theme.
Qed.

(** The build of [A.puml] with a local renderer and [theme_enabled] off. *)
Lemma dark_pass_unconditional_witness :
  let config := Example.local_config in
  let E := Example.env [py "A.puml"] 200 [] in
  let s := Example.initial (Example.alice_tree 50) in
  let s1 := ((load_diagram config Posix.ops E Example.root Example.src_dir (py "A.puml") ;;
              _readFile config Posix.ops E 10 false ;;
              _convert config Posix.ops E false) s).2 in
  let s2 := (_readFile config Posix.ops E 10 true s1).2 in
  let g := (py "diagram",
            py "/usr/local/bin/plantuml -tpng /w/docs/diagrams/src/A.puml -darkmode -o /tmp/tmpdir1 ") in
  process_file config Posix.ops E 10 Example.root Example.src_dir (py "A.puml") s
  = (_readFile config Posix.ops E 10 true ;; _convert config Posix.ops E true) s1 /\
  exists s', _convert config Posix.ops E true s2 = (inr tt, s') /\
    fs s' = <[out_file_dark (diagram s2) := File (final_content config E g.2) (now s2)]>
              (fs s2).
Proof.
  intros config E s s1 s2 g.
  destruct (dark_pass_unconditional config Posix.ops E 10 Example.root Example.src_dir
              (py "A.puml") s s1 s2 g []) as (_ & H2 & H3).
  split.
  - apply H2. vm_compute. reflexivity.
  - apply H3.
    + reflexivity.
    + vm_compute. reflexivity.
    + vm_compute. reflexivity.
    + vm_compute. reflexivity.
    + vm_compute. discriminate.
    + vm_compute. reflexivity.
Defined.

(** * Further properties of the program *)

(** ** Strings and patterns *)

Section StringFacts.

Lemma readlines_aux_concat cur s : concat (readlines_aux cur s) = rev cur ++ s.
Proof.
  revert cur. induction s as [|c s IH]; intros cur; cbn [readlines_aux].
  - destruct cur as [|d cur]; [reflexivity|]. cbn [concat]. reflexivity.
  - destruct (c =? 10).
    + cbn [concat]. rewrite IH. cbn [rev app]. rewrite <- app_assoc. reflexivity.
    + rewrite IH. cbn [rev]. rewrite <- app_assoc. reflexivity.
Qed.

(** Joining the lines of a text gives the text back. *)
Lemma concat_readlines s : concat (readlines s) = s.
Proof. unfold readlines. rewrite readlines_aux_concat. reflexivity. Qed.

Lemma startswith_app p t : startswith p (p ++ t) = true.
Proof.
  induction p as [|c p IH]; [reflexivity|]. cbn [startswith app].
  rewrite N.eqb_refl, IH. reflexivity.
Qed.

Lemma startswith_inv p s : startswith p s = true -> exists t, s = p ++ t.
Proof.
  revert s. induction p as [|c p IH]; intros s H.
  - exists s. reflexivity.
  - destruct s as [|d s]; [discriminate|]. cbn [startswith] in H.
    apply andb_true_iff in H as [Hc H]. apply N.eqb_eq in Hc. subst d.
    destruct (IH s H) as (t & ->). exists t. reflexivity.
Qed.

Lemma endswith_iff e f : endswith e f = true <-> exists stem, f = stem ++ e.
Proof.
  unfold endswith. split.
  - intros H. apply startswith_inv in H as (t & H). exists (rev t).
    rewrite <- (rev_involutive f), H, rev_app_distr, rev_involutive. reflexivity.
  - intros (stem & ->). rewrite rev_app_distr. apply startswith_app.
Qed.

Lemma find_from_app c i a b last :
  find_from c i (a ++ b) last = find_from c (i + length a) b (find_from c i a last).
Proof.
  revert i last. induction a as [|d a IH]; intros i last; cbn [app find_from length].
  - rewrite Nat.add_0_r. reflexivity.
  - rewrite IH. f_equal. lia.
Qed.

Lemma find_from_absent c i s last :
  Forall (fun d => d <> c) s -> find_from c i s last = last.
Proof.
  intros H. revert i. induction H as [|d s Hd _ IH]; intros i; cbn [find_from].
  - reflexivity.
  - destruct (N.eqb_spec d c); [contradiction|]. apply IH.
Qed.

(** [rfind] gives the position of the last occurrence, *)
Lemma rfind_last c a b :
  Forall (fun d => d <> c) b -> rfind c (a ++ c :: b) = Some (length a).
Proof.
  intros Hb. unfold rfind. rewrite find_from_app. cbn [find_from].
  rewrite N.eqb_refl, find_from_absent by exact Hb. reflexivity.
Qed.

(** and nothing when there is none. *)
Lemma rfind_absent c s : Forall (fun d => d <> c) s -> rfind c s = None.
Proof. intros H. unfold rfind. apply find_from_absent. exact H. Qed.

Lemma lstrip_spaces sp r : spaces sp -> lstrip (sp ++ r) = lstrip r.
Proof.
  induction 1 as [|c sp Hc _ IH]; [reflexivity|]. cbn [app lstrip]. rewrite Hc. exact IH.
Qed.

Lemma lstrip_word w r : a_word w -> lstrip (w ++ r) = w ++ r.
Proof.
  intros [Hne Hw]. destruct Hw as [|c w Hc _]; [contradiction|].
  cbn [app lstrip]. rewrite Hc. reflexivity.
Qed.

Lemma span_word_end w : nonspaces w -> span_word w = (w, []).
Proof.
  induction 1 as [|c w Hc _ IH]; [reflexivity|]. cbn [span_word]. rewrite Hc, IH. reflexivity.
Qed.

Lemma span_word_space w c r :
  nonspaces w -> is_space c = true -> span_word (w ++ c :: r) = (w, c :: r).
Proof.
  intros Hw Hc. induction Hw as [|d w Hd _ IH]; cbn [app span_word].
  - rewrite Hc. reflexivity.
  - rewrite Hd, IH. reflexivity.
Qed.

Lemma rstrip_spaces s sp : spaces sp -> rstrip (s ++ sp) = rstrip s.
Proof.
  intros H. unfold rstrip. rewrite rev_app_distr, lstrip_spaces; [reflexivity|].
  unfold spaces in *. rewrite List.Forall_forall in *. intros x Hx. apply in_rev in Hx.
  apply H. exact Hx.
Qed.

Lemma rstrip_word s w : a_word w -> rstrip (s ++ w) = s ++ w.
Proof.
  intros [Hne Hw]. unfold rstrip. rewrite rev_app_distr.
  destruct (rev w) as [|c t] eqn:Hr.
  - apply (f_equal (@rev N)) in Hr. rewrite rev_involutive in Hr. contradiction.
  - assert (Hc : is_space c = false).
    { unfold nonspaces in Hw. rewrite List.Forall_forall in Hw. apply Hw.
      apply in_rev. rewrite Hr. left. reflexivity. }
    cbn [app lstrip]. rewrite Hc. change (c :: t ++ rev s) with ((c :: t) ++ rev s).
    rewrite <- Hr, <- rev_app_distr, rev_involutive. reflexivity.
Qed.

(** A text cut at a separator that ends it has an empty last part. *)
Lemma str_split_trailing sep a :
  exists w ws, str_split sep (a ++ [sep]) = (w :: ws) ++ [[]].
Proof.
  induction a as [|c a (w & ws & IH)]; cbn [app str_split].
  - rewrite N.eqb_refl. exists [], []. reflexivity.
  - destruct (c =? sep).
    + rewrite IH. exists [], (w :: ws). reflexivity.
    + rewrite IH. cbn [app]. exists (c :: w), ws. reflexivity.
Qed.

(** [replace] changes nothing in a text where [old] does not occur. *)
Lemma replace_from_absent old new s :
  old <> [] -> ~ occurs old s -> replace_from old new O s = s.
Proof.
  intros Hold. induction s as [|c s IH]; intros Hs; [reflexivity|].
  cbn [replace_from]. destruct (startswith old (c :: s)) eqn:Hst.
  - apply startswith_inv in Hst as (t & Ht). contradiction Hs.
    exists [], t. exact Ht.
  - f_equal. apply IH. intros (a & b & ->). apply Hs. exists (c :: a), b. reflexivity.
Qed.

Lemma replace_from_skip old new u s :
  replace_from old new (length u) (u ++ s) = replace_from old new O s.
Proof.
  induction u as [|c u IH]; [reflexivity|]. cbn [length app replace_from]. exact IH.
Qed.

(** The first occurrence is replaced, and the search goes on after it. *)
Lemma replace_from_first old new a b :
  old <> [] ->
  (forall a1 a2, a = a1 ++ a2 -> a2 <> [] -> startswith old (a2 ++ old ++ b) = false) ->
  replace_from old new O (a ++ old ++ b) = a ++ new ++ replace_from old new O b.
Proof.
  intros Hold. induction a as [|c a IH]; intros Hfirst.
  - cbn [app]. destruct old as [|d old]; [contradiction|].
    cbn [app replace_from]. change (d :: old ++ b) with ((d :: old) ++ b).
    rewrite startswith_app. cbn [length Nat.sub]. rewrite Nat.sub_0_r.
    rewrite replace_from_skip. reflexivity.
  - cbn [app replace_from].
    pose proof (Hfirst [] (c :: a) eq_refl ltac:(discriminate)) as H0.
    cbn [app] in H0. rewrite H0. f_equal. apply IH. intros a1 a2 -> Ha2. apply (Hfirst (c :: a1) a2); auto.
Qed.

End StringFacts.

Section PatternFacts.

Lemma lang_Star_Space s : lang (Star Space) s <-> spaces s.
Proof.
  split.
  - intros H. remember (Star Space) as r eqn:Er.
    induction H as [| | | | | | | |r0 s1 s2 H1 _ H2 IH]; try discriminate; [constructor|].
    injection Er as ->. inversion H1; subst. cbn [app].
    constructor; [assumption|]. apply IH. reflexivity.
  - induction 1 as [|c s Hc _ IH]; [constructor|].
    change (c :: s) with ([c] ++ s). constructor; [constructor; exact Hc | exact IH].
Qed.

Lemma lang_Star_NonSpace s : lang (Star NonSpace) s <-> nonspaces s.
Proof.
  split.
  - intros H. remember (Star NonSpace) as r eqn:Er.
    induction H as [| | | | | | | |r0 s1 s2 H1 _ H2 IH]; try discriminate; [constructor|].
    injection Er as ->. inversion H1; subst. cbn [app].
    constructor; [assumption|]. apply IH. reflexivity.
  - induction 1 as [|c s Hc _ IH]; [constructor|].
    change (c :: s) with ([c] ++ s). constructor; [constructor; exact Hc | exact IH].
Qed.

Lemma lang_Plus_Space s : lang (Plus Space) s <-> s <> [] /\ spaces s.
Proof.
  unfold Plus. split.
  - intros H. apply lang_Cat_inv in H as (s1 & s2 & -> & H1 & H2).
    inversion H1; subst. apply lang_Star_Space in H2.
    split; [discriminate|]. constructor; assumption.
  - intros [Hne H]. destruct H as [|c s Hc Hs]; [contradiction|].
    change (c :: s) with ([c] ++ s).
    constructor; [constructor; exact Hc | apply lang_Star_Space; exact Hs].
Qed.

Lemma lang_Plus_NonSpace w : lang (Plus NonSpace) w <-> a_word w.
Proof.
  unfold Plus, a_word. split.
  - intros H. apply lang_Cat_inv in H as (s1 & s2 & -> & H1 & H2).
    inversion H1; subst. apply lang_Star_NonSpace in H2.
    split; [discriminate|]. constructor; assumption.
  - intros [Hne H]. destruct H as [|c s Hc Hs]; [contradiction|].
    change (c :: s) with ([c] ++ s).
    constructor; [constructor; exact Hc | apply lang_Star_NonSpace; exact Hs].
Qed.

(** What follows the keyword of a directive: white space, one word, and
    white space or nothing. *)
Lemma directive_shape t :
  lang (Cat (Plus Space) (Cat (Plus NonSpace) (Star Space))) t <->
  exists sp w sp', t = sp ++ w ++ sp' /\ sp <> [] /\ spaces sp /\ a_word w /\ spaces sp'.
Proof.
  split.
  - intros H. apply lang_Cat_inv in H as (sp & t1 & -> & H1 & H).
    apply lang_Cat_inv in H as (w & sp' & -> & H2 & H3).
    apply lang_Plus_Space in H1 as [Hne Hsp]. apply lang_Plus_NonSpace in H2.
    apply lang_Star_Space in H3. exists sp, w, sp'. auto.
  - intros (sp & w & sp' & -> & Hne & Hsp & Hw & Hsp').
    constructor; [apply lang_Plus_Space; auto|].
    constructor; [apply lang_Plus_NonSpace; auto | apply lang_Star_Space; auto].
Qed.

(** The first word of a text that begins with white space and a word. *)
Lemma first_word sp w r :
  spaces sp -> a_word w -> (r = [] \/ exists c r', r = c :: r' /\ is_space c = true) ->
  span_word (lstrip (sp ++ w ++ r)) = (w, r).
Proof.
  intros Hsp Hw Hr. rewrite lstrip_spaces, lstrip_word by assumption.
  destruct Hr as [->|(c & r' & -> & Hc)].
  - rewrite app_nil_r. apply span_word_end. apply Hw.
  - apply span_word_space; [apply Hw | exact Hc].
Qed.

(** A directive pattern does not match a line with two words after the
    keyword. *)
Lemma two_words_no_directive p sp1 w1 sp2 w2 :
  sp2 <> [] -> spaces sp1 -> a_word w1 -> spaces sp2 -> a_word w2 ->
  match_dollar (Cat (Lit p) (Cat (Plus Space) (Cat (Plus NonSpace) (Star Space))))
               (p ++ sp1 ++ w1 ++ sp2 ++ w2) = false.
Proof.
  intros Hne2 Hsp1 Hw1 Hsp2 Hw2.
  destruct (match_dollar _ _) eqn:Hm; [|reflexivity]. exfalso.
  assert (Hlast : forall t c, (sp1 ++ w1 ++ sp2 ++ w2) = t ++ [c] -> is_space c = false).
  { intros t c Heq. destruct Hw2 as [Hne Hw2].
    destruct (rev w2) as [|d u] eqn:Hr.
    - apply (f_equal (@rev N)) in Hr. rewrite rev_involutive in Hr. contradiction.
    - apply (f_equal (@rev N)) in Heq. rewrite !rev_app_distr, Hr in Heq.
      cbn in Heq. injection Heq as <- _.
      unfold nonspaces in Hw2. rewrite List.Forall_forall in Hw2. apply Hw2.
      apply in_rev. rewrite Hr. left. reflexivity. }
  assert (Hsplit : forall sp w sp', sp1 ++ w1 ++ sp2 ++ w2 = sp ++ w ++ sp' ->
            spaces sp -> a_word w -> spaces sp' -> False).
  { intros sp w sp' Heq Hsp Hw Hsp'.
    apply (f_equal (fun x => span_word (lstrip x))) in Heq.
    destruct sp2 as [|c2 sp2]; [contradiction|].
    rewrite (first_word sp1 w1 ((c2 :: sp2) ++ w2)) in Heq; try assumption.
    2:{ right. exists c2, (sp2 ++ w2). split; [reflexivity|]. inversion Hsp2; assumption. }
    rewrite (first_word sp w sp') in Heq; try assumption.
    2:{ destruct Hsp' as [|c s Hc _]; [left; reflexivity|right; eauto]. }
    injection Heq as _ Heq. subst sp'.
    unfold spaces in Hsp'. change (c2 :: sp2 ++ w2) with ((c2 :: sp2) ++ w2) in Hsp'.
    apply Forall_app in Hsp' as [_ Hsp']. destruct Hw2 as [Hne Hw2].
    destruct Hw2 as [|d w2 Hd _]; [contradiction|].
    inversion Hsp'; subst. congruence. }
  apply match_dollar_prefix in Hm as (t & Heq & [H|(t' & -> & H)]);
    apply app_inv_head in Heq.
  - apply directive_shape in H as (sp & w & sp' & -> & _ & Hsp & Hw & Hsp'). eauto.
  - specialize (Hlast _ _ Heq). discriminate.
Qed.

End PatternFacts.

(** ** Output names, the extension filter and the theme substitution *)

Section Names.
Context (config : Config) (P : PathOps).

Ltac step := erewrite bind_inr by reflexivity.

Lemma find_start_tag_skip pre t :
  Forall (fun x => find_start_tag [x] = None) pre ->
  find_start_tag (pre ++ t) = find_start_tag t.
Proof.
  induction 1 as [|x pre Hx _ IH]; [reflexivity|].
  cbn [app find_start_tag] in *.
  destruct (startswith (py "@startuml") (strip x)); [|exact IH].
  destruct (split_maxsplit1 (strip x)) as [|a [|b [|c l]]]; try exact IH. discriminate.
Qed.

Lemma split_maxsplit1_two w c rest :
  a_word w -> is_space c = true -> lstrip rest <> [] ->
  split_maxsplit1 (w ++ c :: rest) = [w; lstrip rest].
Proof.
  intros Hw Hc Hrest. unfold split_maxsplit1. rewrite lstrip_word by exact Hw.
  destruct Hw as [Hne Hw]. destruct w as [|d w]; [contradiction|].
  cbn [app]. change (d :: w ++ c :: rest) with ((d :: w) ++ c :: rest).
  rewrite span_word_space by assumption. cbn [lstrip]. rewrite Hc.
  destruct (lstrip rest); [contradiction|reflexivity].
Qed.

Lemma find_start_tag_named pre line post w c rest :
  Forall (fun x => find_start_tag [x] = None) pre ->
  strip line = py "@startuml" ++ w ++ c :: rest ->
  nonspaces w -> is_space c = true -> lstrip rest <> [] ->
  find_start_tag (pre ++ line :: post) = Some (lstrip rest).
Proof.
  intros Hpre Hline Hw Hc Hrest. rewrite find_start_tag_skip by exact Hpre.
  cbn [find_start_tag]. rewrite Hline, startswith_app.
  rewrite app_assoc, split_maxsplit1_two; [reflexivity| |assumption|assumption].
  split; [discriminate|]. apply Forall_app. split; [|exact Hw].
  repeat (constructor; [reflexivity|]). constructor.
Qed.

(** X1: the first line that reads [@startuml <name>] names both outputs.
    When no earlier line carries a name and the stripped line is
    [@startuml], possibly followed by more characters without white space,
    then a white space and a rest that is not blank, [_search_start_tag]
    returns [True] and sets the two output paths from the rest without its
    leading white space (a name may contain white space), in place of the
    name of the source file. *)
Theorem start_tag_names_outputs (s : state) (l : loc) (pre post : list str)
    (line w rest : str) (c : N) :
  src_file (diagram s) = Some l ->
  heap s !! l = Some (pre ++ line :: post) ->
  Forall (fun x => find_start_tag [x] = None) pre ->
  strip line = py "@startuml" ++ w ++ c :: rest ->
  nonspaces w -> is_space c = true -> lstrip rest <> [] ->
  let d := diagram s in
  let name := lstrip rest in
  _search_start_tag config P s =
    (inr true,
     set_diagram
       (with_out_file_dark
          (path_join P (out_dir d) (name ++ py "_dark." ++ output_format config))
          (with_out_file
             (path_join P (out_dir d) (name ++ py "." ++ output_format config)) d)) s).
Proof.
  intros Hsrc Hheap Hpre Hline Hw Hc Hrest d name. unfold _search_start_tag.
  step. cbv beta. rewrite Hsrc.
  erewrite bind_inr by (unfold read_list; rewrite Hheap; reflexivity).
  rewrite (find_start_tag_named pre line post w c rest) by assumption.
  cbv beta iota. do 2 step. destruct s. reflexivity.
Qed.

(** X2: the output names of a source file without a start tag. For a file
    name [stem.ext] ([ext] without a dot) the outputs are
    [out_dir/stem.<format>] and [out_dir/stem_dark.<format>]: only the last
    extension is replaced. *)
Theorem out_filename_replaces_extension (s : state) (stem ext : str) :
  file (diagram s) = stem ++ py "." ++ ext ->
  Forall (fun c => c <> 46) ext ->
  let d := diagram s in
  _build_out_filename config P s =
    (inr tt,
     set_diagram
       (with_out_file_dark
          (path_join P (out_dir d) (stem ++ py "_dark." ++ output_format config))
          (with_out_file
             (path_join P (out_dir d) (stem ++ py "." ++ output_format config)) d)) s).
Proof.
  intros Hfile Hext d. unfold _build_out_filename. step. cbv beta.
  rewrite Hfile. change (py "." ++ ext) with (46 :: ext).
  rewrite rfind_last by exact Hext. cbv beta iota.
  repeat step. cbn.
  replace (take (S (length stem)) (stem ++ 46 :: ext)) with (stem ++ [46]).
  2:{ change (stem ++ 46 :: ext) with (stem ++ [46] ++ ext). rewrite app_assoc.
      replace (S (length stem)) with (length (stem ++ [46]))
        by (rewrite length_app; cbn; lia).
      rewrite take_app_length. reflexivity. }
  rewrite take_app_length, <- !app_assoc. destruct s. reflexivity.
Qed.

(** X3: a source file whose name has no dot keeps the output names the
    diagram object had, joined to the output directory. For a diagram that
    has just been created both are empty, so the normal and the dark output
    get the same path. *)
Theorem out_filename_without_dot (s : state) :
  Forall (fun c => c <> 46) (file (diagram s)) ->
  out_file (diagram s) = [] -> out_file_dark (diagram s) = [] ->
  exists d',
    _build_out_filename config P s = (inr tt, set_diagram d' s) /\
    out_file d' = path_join P (out_dir (diagram s)) [] /\
    out_file_dark d' = out_file d'.
Proof.
  intros Hfile Hout Hdark. unfold _build_out_filename.
  exists (with_out_file_dark (path_join P (out_dir (diagram s)) [])
            (with_out_file (path_join P (out_dir (diagram s)) []) (diagram s))).
  split; [|split; reflexivity].
  step. cbv beta. rewrite rfind_absent by exact Hfile. cbv beta iota.
  repeat step. unfold assign. cbn. rewrite Hout, Hdark. destruct s. reflexivity.
Qed.

(** X4: the extension filter. A file is accepted when [input_extensions]
    is empty, or when its name ends with one of the parts of
    [input_extensions] between commas, taken literally; and a list that
    ends with a comma accepts every file. *)
Theorem extension_filter (f : str) :
  (_file_matches_extension config f = true <->
   input_extensions config = [] \/
   exists e stem, In e (str_split 44 (input_extensions config)) /\ f = stem ++ e) /\
  (forall a, input_extensions config = a ++ py "," ->
             _file_matches_extension config f = true).
Proof.
  assert (Hiff : _file_matches_extension config f = true <->
    input_extensions config = [] \/
    exists e stem, In e (str_split 44 (input_extensions config)) /\ f = stem ++ e).
  { unfold _file_matches_extension.
    destruct (input_extensions config) as [|c ext] eqn:Hext; cbn [length Nat.eqb].
    - split; auto.
    - rewrite existsb_exists. split.
      + intros (e & He & Hend). right. apply endswith_iff in Hend as (stem & ->). eauto.
      + intros [H|(e & stem & He & ->)]; [discriminate|].
        exists e. split; [exact He|]. apply endswith_iff. eauto. }
  split; [exact Hiff|].
  intros a Ha. apply Hiff. right. exists [], f. split; [|rewrite app_nil_r; reflexivity].
  rewrite Ha. change (py ",") with [44].
  destruct (str_split_trailing 44 a) as (w & ws & ->).
  apply in_or_app. right. left. reflexivity.
Qed.

(** X5: the theme substitution of the dark pass. The normal pass keeps an
    include target as it is. The dark pass keeps a target in which
    [theme_light] does not occur, and in a target [a ++ theme_light ++ b]
    where this is the only occurrence it puts [theme_dark] in its place,
    wherever in the path the occurrence is. *)
Theorem theme_substitution (a b : str) :
  theme_light config <> [] ->
  (forall k, (k < length a)%nat ->
     startswith (theme_light config) (drop k (a ++ theme_light config ++ b)) = false) ->
  ~ occurs (theme_light config) b ->
  theme_substitute config true (a ++ theme_light config ++ b)
  = a ++ theme_dark config ++ b /\
  theme_substitute config true b = b /\
  forall p, theme_substitute config false p = p.
Proof.
  intros Hlight Hfirst Hb. unfold theme_substitute.
  assert (Hrep : forall s, replace (theme_light config) (theme_dark config) s
                           = replace_from (theme_light config) (theme_dark config) O s).
  { intros s. unfold replace. destruct (theme_light config); [contradiction|reflexivity]. }
  rewrite !Hrep. split; [|split; [|reflexivity]].
  - rewrite replace_from_first.
    + rewrite replace_from_absent by assumption. reflexivity.
    + exact Hlight.
    + intros a1 a2 -> Ha2. specialize (Hfirst (length a1)).
      rewrite <- app_assoc, drop_app_length in Hfirst. apply Hfirst.
      rewrite length_app. destruct a2; [contradiction|]. cbn. lia.
  - apply replace_from_absent; assumption.
Qed.

End Names.

(** [@startumlX  my diagram ] after a comment line. *)
Lemma start_tag_names_outputs_witness :
  let s := set_heap {[O := [py "' a comment" ++ [10]; py "  @startumlX  my diagram  " ++ [10]]]}
             (S O) (set_diagram (with_src_file (Some O)
                      (diagram (Example.discovered (Example.alice_tree 50))))
                      (Example.discovered (Example.alice_tree 50))) in
  (_search_start_tag Example.default_config Posix.ops s).1 = inr true /\
  out_file (diagram (_search_start_tag Example.default_config Posix.ops s).2)
  = py "/w/docs/diagrams/out/my diagram.png" /\
  out_file_dark (diagram (_search_start_tag Example.default_config Posix.ops s).2)
  = py "/w/docs/diagrams/out/my diagram_dark.png".
Proof.
  intros s.
  rewrite (start_tag_names_outputs Example.default_config Posix.ops s O
             [py "' a comment" ++ [10]] [] (py "  @startumlX  my diagram  " ++ [10])
             (py "X") (py " my diagram") 32).
  - vm_compute. repeat split.
  - reflexivity.
  - reflexivity.
  - constructor; [vm_compute; reflexivity | constructor].
  - vm_compute. reflexivity.
  - repeat constructor.
  - reflexivity.
  - vm_compute. discriminate.
Defined.

(** [my.diagram.puml] in the default configuration. *)
Lemma out_filename_replaces_extension_witness :
  let s := set_diagram (with_out_dir Example.out_dir
                          (PuElement_init (py "my.diagram.puml") Example.src_dir))
                       (Example.initial Example.dirs) in
  let r := _build_out_filename Example.default_config Posix.ops s in
  out_file (diagram r.2) = py "/w/docs/diagrams/out/my.diagram.png" /\
  out_file_dark (diagram r.2) = py "/w/docs/diagrams/out/my.diagram_dark.png".
Proof.
  intros s r. subst r.
  rewrite (out_filename_replaces_extension Example.default_config Posix.ops s
             (py "my.diagram") (py "puml")).
  - vm_compute. split; reflexivity.
  - reflexivity.
  - repeat (constructor; [discriminate|]). constructor.
Defined.

(** A source file named [Makefile]. *)
Lemma out_filename_without_dot_witness :
  let s := set_diagram (with_out_dir Example.out_dir
                          (PuElement_init (py "Makefile") Example.src_dir))
                       (Example.initial Example.dirs) in
  exists d', _build_out_filename Example.default_config Posix.ops s = (inr tt, set_diagram d' s) /\
    out_file d' = path_join Posix.ops Example.out_dir [] /\ out_file_dark d' = out_file d'.
Proof.
  intros s.
  apply (out_filename_without_dot Example.default_config Posix.ops s).
  - repeat (constructor; [discriminate|]). constructor.
  - reflexivity.
  - reflexivity.
Defined.

(** [input_extensions: "puml,"] accepts [notes.txt]. *)
Lemma extension_filter_witness :
  let config := {| render := py "server"; server := []; bin_path := [];
                   disable_ssl_certificate_validation := false;
                   output_format := py "png"; allow_multiple_roots := false;
                   diagram_root := []; output_folder := []; output_in_dir := false;
                   input_folder := []; input_extensions := py "puml,";
                   theme_enabled := false; theme_folder := []; theme_light := [];
                   theme_dark := []; prettify_svg := false |} in
  _file_matches_extension config (py "notes.txt") = true.
Proof.
  intros config.
  apply (proj2 (extension_filter config (py "notes.txt")) (py "puml")). reflexivity.
Defined.

(** [include/themes/light.puml] in the default configuration. *)
Lemma theme_substitution_witness :
  theme_substitute Example.default_config true (py "include/themes/light.puml")
  = py "include/themes/dark.puml".
Proof.
  apply (theme_substitution Example.default_config (py "include/themes/") []).
  - discriminate.
  - intros k Hk. do 15 (destruct k as [|k]; [reflexivity|]). cbn in Hk. lia.
  - intros (a & b & H). destruct a; discriminate.
Defined.

(** ** Flattening a source *)

Section Flatten.
Context (config : Config) (P : PathOps).

Ltac step := erewrite bind_inr by reflexivity.

Lemma preprocess_includes_plain i xs :
  Forall plain_line xs -> preprocess_includes_from i xs = [].
Proof.
  intros H. revert i. induction H as [|x xs Hx _ IH]; intros i; [reflexivity|].
  cbn [preprocess_includes_from]. unfold plain_line in Hx. rewrite Hx. apply IH.
Qed.

Lemma preprocess_includes_one pre l post :
  Forall plain_line pre -> Forall plain_line post ->
  prefixmatch re_include_prefix (strip l) = true ->
  preprocess_includes (pre ++ l :: post) = [(length pre, strip l)].
Proof.
  intros Hpre Hpost Hl. unfold preprocess_includes.
  rewrite (preprocess_includes_first pre l post O Hpre Hl).
  rewrite preprocess_includes_plain by exact Hpost. reflexivity.
Qed.

Lemma include_is_include line :
  match_dollar re_include line = true -> prefixmatch re_include_prefix line = true.
Proof. intros H. apply match_dollar_prefix in H as (t & -> & _). apply prefixmatch_Lit. Qed.

Lemma includeurl_is_include line :
  match_dollar re_includeurl line = true -> prefixmatch re_include_prefix line = true.
Proof.
  intros H. apply match_dollar_prefix in H as (t & -> & _).
  change (py "!includeurl") with (py "!include" ++ py "url").
  rewrite <- app_assoc. apply prefixmatch_Lit.
Qed.

(** A list of lines without directives is joined as it is. *)
Lemma readFileRecursively_plain depth lines dir dark s xs :
  heap s !! lines = Some xs -> Forall plain_line xs ->
  _readFileRecursively config P (S depth) lines dir dark s = (inr (concat xs), s).
Proof.
  intros Hheap Hplain. cbn [_readFileRecursively].
  assert (Hread : read_list lines s = (inr xs, s))
    by (unfold read_list; rewrite Hheap; reflexivity).
  rewrite (bind_inr _ _ _ _ _ Hread).
  unfold preprocess_includes. rewrite preprocess_includes_plain by exact Hplain.
  unfold process_includes. cbn [for_each]. step.
  rewrite (bind_inr _ _ _ _ _ Hread). reflexivity.
Qed.

(** A list with one directive: the line is replaced by what
    [_readIncludeLine] returns for it. *)
Lemma readFileRecursively_one depth lines dir dark s pre l post c s2 :
  heap s !! lines = Some (pre ++ l :: post) ->
  Forall plain_line pre -> Forall plain_line post ->
  prefixmatch re_include_prefix (strip l) = true ->
  _readIncludeLine config P (_readFileRecursively config P depth) (strip l) [] dir dark s
  = (inr c, s2) ->
  heap s2 !! lines = Some (pre ++ l :: post) ->
  _readFileRecursively config P (S depth) lines dir dark s
  = (inr (concat pre ++ c ++ concat post),
     set_heap (<[lines := pre ++ c :: post]> (heap s2)) (next_loc s2) s2).
Proof.
  intros Hheap Hpre Hpost Hl Hline Hheap2. cbn [_readFileRecursively].
  erewrite bind_inr by (unfold read_list; rewrite Hheap; reflexivity).
  rewrite preprocess_includes_one by assumption.
  unfold process_includes. cbn [for_each fst snd].
  erewrite bind_inr.
  2:{ erewrite bind_inr; [reflexivity|].
      erewrite bind_inr by exact Hline. unfold list_setitem. rewrite Hheap2. reflexivity. }
  erewrite bind_inr
    by (unfold read_list; cbn [heap set_heap]; rewrite lookup_insert_eq; reflexivity).
  rewrite insert_app_r_alt by lia. rewrite Nat.sub_diag, concat_app. reflexivity.
Qed.

(** A remote include is returned as it is, and nothing else happens. *)
Lemma readIncludeLine_remote rec line temp dir dark s :
  (match_dollar re_includeurl line = true \/
   (match_dollar re_include line = true /\
    startswith (py "http") (theme_substitute config dark (rstrip (drop 9 line)))
    || startswith (py "<") (theme_substitute config dark (rstrip (drop 9 line))) = true)) ->
  _readIncludeLine config P rec line temp dir dark s = (inr (temp ++ line), s).
Proof.
  intros [Hu|[Hi Hr]]; unfold _readIncludeLine.
  - rewrite Hu. reflexivity.
  - rewrite (include_not_includeurl _ Hi), (include_not_includesub _ Hi), Hi.
    cbv zeta. rewrite Hr. reflexivity.
Qed.

Lemma note_inc_time_file p s c t :
  fs s !! p = Some (File c t) ->
  exists d', note_inc_time p s = (inr tt, set_diagram d' s) /\
    inc_time d' = Z.max (inc_time (diagram s)) t /\
    root_dir d' = root_dir (diagram s).
Proof.
  intros Hp. unfold note_inc_time.
  erewrite bind_inr by apply stat_or_0.
  unfold mtime_or_0. rewrite Hp. step. cbv beta.
  destruct (Z.gtb_spec t (inc_time (diagram s))) as [Hgt|Hle].
  - eexists. split; [reflexivity|]. cbn. split; [lia|reflexivity].
  - exists (diagram s). split; [destruct s; reflexivity|]. split; [lia|reflexivity].
Qed.

(** Including a file without directives gives its text. *)
Lemma read_incl_line_file_plain depth dark p s content t temp :
  fs s !! p = Some (File content t) -> Forall plain_line (readlines content) ->
  exists d',
    _read_incl_line_file P (_readFileRecursively config P (S depth)) temp dark p s
    = (inr content,
       set_heap (<[next_loc s := readlines content]> (heap s)) (S (next_loc s))
                (set_diagram d' s)) /\
    inc_time d' = Z.max (inc_time (diagram s)) t /\
    root_dir d' = root_dir (diagram s).
Proof.
  intros Hp Hplain.
  destruct (note_inc_time_file p s content t Hp) as (d' & Hnote & Hinc & Hroot).
  exists d'. split; [|auto]. unfold _read_incl_line_file.
  rewrite (bind_inr _ _ _ _ _ Hnote).
  erewrite bind_inr by (unfold read_text; cbn [fs set_diagram]; rewrite Hp; reflexivity).
  step.
  rewrite (readFileRecursively_plain _ _ _ _ _ (readlines content));
    [rewrite concat_readlines; reflexivity | cbn; apply lookup_insert_eq | exact Hplain].
Qed.

(** A local include of a file without directives, found beside the
    including file or under the diagram root. *)
Lemma readIncludeLine_spliced depth line temp dir dark s content t :
  match_dollar re_include line = true ->
  let target := theme_substitute config dark (rstrip (drop 9 line)) in
  startswith (py "http") target || startswith (py "<") target = false ->
  let primary := path_resolve P (path_join P dir target) in
  let secondary := path_resolve P (path_join P (root_dir (diagram s)) target) in
  (fs s !! primary = Some (File content t) \/
   (fs s !! primary = None /\ fs s !! secondary = Some (File content t))) ->
  Forall plain_line (readlines content) ->
  exists s2,
    _readIncludeLine config P (_readFileRecursively config P (S depth)) line temp dir dark s
    = (inr content, s2) /\
    fs s2 = fs s /\ inc_time (diagram s2) = Z.max (inc_time (diagram s)) t /\
    (forall l, (l < next_loc s)%nat -> heap s2 !! l = heap s !! l).
Proof.
  intros Hinc target Hlocal primary secondary Hwhere Hplain.
  unfold _readIncludeLine.
  rewrite (include_not_includeurl line Hinc), (include_not_includesub line Hinc), Hinc.
  fold target. rewrite Hlocal. fold primary.
  unfold try_except_FileNotFoundError, try_except.
  unfold bind at 1. unfold path_exists at 1.
  destruct Hwhere as [H1|[H1 H2]]; rewrite H1.
  - rewrite bool_decide_eq_true_2 by eauto.
    destruct (read_incl_line_file_plain depth dark primary s content t temp H1 Hplain)
      as (d' & -> & Hd' & _).
    eexists. split; [reflexivity|]. cbn. split; [reflexivity|]. split; [exact Hd'|].
    intros l Hl. apply lookup_insert_ne. lia.
  - rewrite bool_decide_eq_false_2 by (intros [? ?]; discriminate).
    unfold bind at 1. unfold print at 1. unfold bind at 1. unfold get_diagram at 1.
    cbn [diagram set_stdout]. fold secondary.
    unfold bind at 1. unfold path_exists at 1. cbn [fs set_stdout]. rewrite H2.
    rewrite bool_decide_eq_true_2 by eauto.
    match goal with |- context [_read_incl_line_file _ _ _ _ _ ?st] => set (s1 := st) end.
    destruct (read_incl_line_file_plain depth dark secondary s1 content t temp H2 Hplain)
      as (d' & -> & Hd' & _).
    eexists. split; [reflexivity|]. cbn. split; [reflexivity|]. split; [exact Hd'|].
    intros l Hl. apply lookup_insert_ne. lia.
Qed.

(** A file that includes itself: the nesting never ends. *)
Lemma include_cycle dark p content t pre l post :
  readlines content = pre ++ l :: post ->
  Forall plain_line pre ->
  match_dollar re_include (strip l) = true ->
  let target := theme_substitute config dark (rstrip (drop 9 (strip l))) in
  startswith (py "http") target || startswith (py "<") target = false ->
  path_resolve P (path_join P (path_resolve P (path_parent P p)) target) = p ->
  forall depth lines dir s,
    path_resolve P (path_join P dir target) = p ->
    heap s !! lines = Some (pre ++ l :: post) ->
    fs s !! p = Some (File content t) ->
    exists s', _readFileRecursively config P depth lines dir dark s = (inl RecursionError, s')
               /\ fs s' = fs s.
Proof.
  intros Hlines Hpre Hinc target Hlocal Hself depth.
  induction depth as [|depth IH]; intros lines dir s Hdir Hheap Hp.
  - exists s. split; reflexivity.
  - set (s3 := fun d' : PuElement =>
                 set_heap (<[next_loc s := readlines content]> (heap s)) (S (next_loc s))
                          (set_diagram d' s)).
    destruct (note_inc_time_file p s content t Hp) as (d' & Hnote & _).
    destruct (IH (next_loc s) (path_resolve P (path_parent P p)) (s3 d') Hself)
      as (s' & Hrec & Hfs).
    { unfold s3. cbn. rewrite lookup_insert_eq, Hlines. reflexivity. }
    { exact Hp. }
    assert (Hfile : _read_incl_line_file P (_readFileRecursively config P depth) [] dark p s
                    = (inl RecursionError, s')).
    { unfold _read_incl_line_file. rewrite (bind_inr _ _ _ _ _ Hnote).
      erewrite bind_inr by (unfold read_text; cbn [fs set_diagram]; rewrite Hp; reflexivity).
      step. exact Hrec. }
    assert (Hline : _readIncludeLine config P (_readFileRecursively config P depth)
                      (strip l) [] dir dark s = (inl RecursionError, s')).
    { unfold _readIncludeLine.
      rewrite (include_not_includeurl _ Hinc), (include_not_includesub _ Hinc), Hinc.
      fold target. rewrite Hlocal, Hdir.
      unfold try_except_FileNotFoundError, try_except.
      unfold bind at 1. unfold path_exists at 1. rewrite Hp.
      rewrite bool_decide_eq_true_2 by eauto. rewrite Hfile. reflexivity. }
    exists s'. split; [|exact Hfs].
    cbn [_readFileRecursively].
    erewrite bind_inr by (unfold read_list; rewrite Hheap; reflexivity).
    unfold preprocess_includes.
    rewrite (preprocess_includes_first pre l post O Hpre (include_is_include _ Hinc)).
    unfold process_includes. apply bind_inl. apply for_each_raise. cbn [fst snd].
    apply bind_inl. exact Hline.
Qed.

(** X6: a source without include directives. When no line of the source
    starts with [!include] (after stripping) and the encoder accepts its
    text, [_readFile] returns in either pass with [concat_file] the very
    text of the file and [b64encoded] its token; no other field of the
    diagram changes, in particular not [inc_time], and no file is touched. *)
Theorem source_without_includes (E : Env) (depth : nat) (dark : bool) (s : state)
    (l : loc) (content token : str) :
  src_file (diagram s) = Some l ->
  heap s !! l = Some (readlines content) ->
  Forall plain_line (readlines content) ->
  plantuml_encode (zlib_compress E) content = inr token ->
  exists s',
    _readFile config P E (S depth) dark s = (inr tt, s') /\
    diagram s' = with_concat_file content (with_b64encoded token (diagram s)) /\
    fs s' = fs s.
Proof.
  intros Hsrc Hheap Hplain Henc.
  set (s1 := set_heap (<[next_loc s := readlines content]> (heap s)) (S (next_loc s))
               (set_stdout (stdout s ++ [py "Processing diagram " ++ file (diagram s)]) s)).
  assert (Hflat : flatten_source config P (S depth) dark s = (inr content, s1)).
  { unfold flatten_source. do 2 step. cbv beta. rewrite Hsrc.
    erewrite bind_inr.
    2:{ erewrite bind_inr; [reflexivity|].
        unfold read_list. cbn [heap set_stdout]. rewrite Hheap. reflexivity. }
    rewrite (readFileRecursively_plain _ _ _ _ _ (readlines content));
      [rewrite concat_readlines; reflexivity | cbn; apply lookup_insert_eq | exact Hplain]. }
  eexists. split.
  - unfold _readFile. rewrite (bind_inr _ _ _ _ _ Hflat).
    unfold encode_and_store. rewrite Henc. step. reflexivity.
  - cbn. split; reflexivity.
Qed.

(** X7: a remote include is not fetched, and its line loses its end. For a
    list of lines whose only directive is an [!includeurl], or an
    [!include] whose target starts with [http] or [<], flattening changes
    neither the file system, nor the diagram, nor what is printed; the
    directive stays in the text, but as the stripped line: without its
    indentation and without its line feed, so that the line that follows is
    joined to it. *)
Theorem remote_include_kept_stripped (depth : nat) (lines : loc) (dir : str) (dark : bool)
    (s : state) (pre post : list str) (l : str) :
  heap s !! lines = Some (pre ++ l :: post) ->
  Forall plain_line pre -> Forall plain_line post ->
  (match_dollar re_includeurl (strip l) = true \/
   (match_dollar re_include (strip l) = true /\
    startswith (py "http") (theme_substitute config dark (rstrip (drop 9 (strip l))))
    || startswith (py "<") (theme_substitute config dark (rstrip (drop 9 (strip l))))
    = true)) ->
  _readFileRecursively config P (S depth) lines dir dark s
  = (inr (concat pre ++ strip l ++ concat post),
     set_heap (<[lines := pre ++ strip l :: post]> (heap s)) (next_loc s) s).
Proof.
  intros Hheap Hpre Hpost Hremote.
  apply (readFileRecursively_one depth lines dir dark s pre l post (strip l) s);
    try assumption.
  - destruct Hremote as [H|[H _]];
      [apply includeurl_is_include | apply include_is_include]; exact H.
  - apply readIncludeLine_remote. exact Hremote.
Qed.

(** X8: a local include is replaced by the text of the included file. For
    a list of lines whose only directive is an [!include] of a local
    target, found beside the including file or else under the diagram root,
    when the included file has no directive itself: flattening returns the
    lines before, the text of the included file and the lines after; no file
    is touched, and [inc_time] is afterwards the larger of its former value
    and the modification time of the included file. *)
Theorem local_include_spliced (depth : nat) (lines : loc) (dir : str) (dark : bool)
    (s : state) (pre post : list str) (l content : str) (t : Z) :
  (lines < next_loc s)%nat ->
  heap s !! lines = Some (pre ++ l :: post) ->
  Forall plain_line pre -> Forall plain_line post ->
  match_dollar re_include (strip l) = true ->
  let target := theme_substitute config dark (rstrip (drop 9 (strip l))) in
  startswith (py "http") target || startswith (py "<") target = false ->
  let primary := path_resolve P (path_join P dir target) in
  let secondary := path_resolve P (path_join P (root_dir (diagram s)) target) in
  (fs s !! primary = Some (File content t) \/
   (fs s !! primary = None /\ fs s !! secondary = Some (File content t))) ->
  Forall plain_line (readlines content) ->
  exists s',
    _readFileRecursively config P (S (S depth)) lines dir dark s
    = (inr (concat pre ++ content ++ concat post), s') /\
    fs s' = fs s /\
    inc_time (diagram s') = Z.max (inc_time (diagram s)) t.
Proof.
  intros Hfresh Hheap Hpre Hpost Hinc target Hlocal primary secondary Hwhere Hplain.
  destruct (readIncludeLine_spliced depth (strip l) [] dir dark s content t
              Hinc Hlocal Hwhere Hplain) as (s2 & Hline & Hfs & Htime & Hkeep).
  eexists. split.
  - apply (readFileRecursively_one (S depth) lines dir dark s pre l post content s2);
      try assumption.
    + apply include_is_include. exact Hinc.
    + exact (eq_trans (Hkeep _ Hfresh) Hheap).
  - cbn. auto.
Qed.

(** X9: an include inside an included file is looked up beside that
    file. When the file [pa] is included and its only directive is a local
    [!include] whose target exists in the directory of [pa] (resolved), as
    a file without directives, [_read_incl_line_file] returns the text of
    [pa] with that line replaced by the text of the inner file, whatever the
    directory of the diagram is; [inc_time] becomes the largest of its
    former value and the modification times of both files, and no file is
    touched. *)
Theorem nested_include_beside_included_file (depth : nat) (dark : bool) (s : state)
    (pa temp contentA contentB lA : str) (ta tb : Z) (preA postA : list str) :
  fs s !! pa = Some (File contentA ta) ->
  readlines contentA = preA ++ lA :: postA ->
  Forall plain_line preA -> Forall plain_line postA ->
  match_dollar re_include (strip lA) = true ->
  let target := theme_substitute config dark (rstrip (drop 9 (strip lA))) in
  startswith (py "http") target || startswith (py "<") target = false ->
  let pb := path_resolve P (path_join P (path_resolve P (path_parent P pa)) target) in
  fs s !! pb = Some (File contentB tb) ->
  Forall plain_line (readlines contentB) ->
  exists s',
    _read_incl_line_file P (_readFileRecursively config P (S (S depth))) temp dark pa s
    = (inr (concat preA ++ contentB ++ concat postA), s') /\
    fs s' = fs s /\
    inc_time (diagram s') = Z.max (Z.max (inc_time (diagram s)) ta) tb.
Proof.
  intros Hpa Hlines Hpre Hpost Hinc target Hlocal pb Hpb Hplain.
  destruct (note_inc_time_file pa s contentA ta Hpa) as (d' & Hnote & Htime & _).
  set (s2 := set_heap (<[next_loc s := readlines contentA]> (heap s)) (S (next_loc s))
               (set_diagram d' s)).
  destruct (readIncludeLine_spliced depth (strip lA) [] (path_resolve P (path_parent P pa))
              dark s2 contentB tb Hinc Hlocal (or_introl Hpb) Hplain)
    as (s3 & Hline & Hfs & Hinc3 & Hkeep).
  assert (Hheap2 : heap s2 !! next_loc s = Some (preA ++ lA :: postA))
    by (unfold s2; cbn; rewrite lookup_insert_eq, Hlines; reflexivity).
  eexists. split.
  - unfold _read_incl_line_file. rewrite (bind_inr _ _ _ _ _ Hnote).
    erewrite bind_inr by (unfold read_text; cbn [fs set_diagram]; rewrite Hpa; reflexivity).
    erewrite bind_inr by reflexivity. fold s2.
    apply (readFileRecursively_one (S depth) (next_loc s) _ dark s2 preA lA postA
             contentB s3 Hheap2 Hpre Hpost (include_is_include _ Hinc) Hline).
    refine (eq_trans (Hkeep (next_loc s) _) Hheap2). unfold s2. cbn. lia.
  - cbn. split; [exact Hfs|]. rewrite Hinc3. unfold s2. cbn. rewrite Htime. reflexivity.
Qed.

(** X10: a source that includes itself is never flattened. When the first
    directive of the source is a local [!include] whose target resolves to
    the source file itself, from the directory of the diagram and from the
    directory of the file, [_readFile] raises [RecursionError] whatever the
    bound on the nesting is, and no file has been touched. *)
Theorem self_include_raises_RecursionError (E : Env) (depth : nat) (dark : bool)
    (s : state) (l0 : loc) (p content : str) (t : Z) (pre post : list str) (l : str) :
  src_file (diagram s) = Some l0 ->
  heap s !! l0 = Some (readlines content) ->
  fs s !! p = Some (File content t) ->
  readlines content = pre ++ l :: post ->
  Forall plain_line pre ->
  match_dollar re_include (strip l) = true ->
  let target := theme_substitute config dark (rstrip (drop 9 (strip l))) in
  startswith (py "http") target || startswith (py "<") target = false ->
  path_resolve P (path_join P (directory (diagram s)) target) = p ->
  path_resolve P (path_join P (path_resolve P (path_parent P p)) target) = p ->
  exists s', _readFile config P E depth dark s = (inl RecursionError, s') /\ fs s' = fs s.
Proof.
  intros Hsrc Hheap Hp Hlines Hpre Hinc target Hlocal Hdir Hself.
  set (s1 := set_heap (<[next_loc s := readlines content]> (heap s)) (S (next_loc s))
               (set_stdout (stdout s ++ [py "Processing diagram " ++ file (diagram s)]) s)).
  destruct (include_cycle dark p content t pre l post Hlines Hpre Hinc Hlocal Hself
              depth (next_loc s) (directory (diagram s)) s1 Hdir)
    as (s' & Hrec & Hfs).
  { unfold s1. cbn. rewrite lookup_insert_eq, Hlines. reflexivity. }
  { exact Hp. }
  exists s'. split; [|exact Hfs].
  unfold _readFile. apply bind_inl. unfold flatten_source. do 2 step. cbv beta.
  rewrite Hsrc.
  erewrite bind_inr.
  2:{ erewrite bind_inr; [reflexivity|].
      unfold read_list. cbn [heap set_stdout]. rewrite Hheap. reflexivity. }
  exact Hrec.
Qed.

End Flatten.

(** Proves that no line of a concrete list is a directive. *)
Ltac plain_lines :=
  match goal with
  | |- Forall plain_line ?xs =>
      let l := eval vm_compute in xs in
      change (Forall plain_line l);
      repeat (constructor; [vm_compute; reflexivity|]); constructor
  end.

(** [A.puml] in the normal pass. *)
Lemma source_without_includes_witness :
  let s := Example.loaded (Example.alice_tree 50) in
  exists s',
    _readFile Example.default_config Posix.ops (Example.env [] 200 []) 10 false s
    = (inr tt, s') /\
    concat_file (diagram s') = Example.alice /\ fs s' = fs s.
Proof.
  intros s.
  destruct (plantuml_encode (zlib_compress (Example.env [] 200 [])) Example.alice)
    as [e|token] eqn:Henc; [vm_compute in Henc; discriminate|].
  destruct (source_without_includes Example.default_config Posix.ops (Example.env [] 200 [])
              9 false s O Example.alice token) as (s' & H & Hd & Hfs).
  - reflexivity.
  - reflexivity.
  - plain_lines.
  - exact Henc.
  - exists s'. split; [exact H|]. rewrite Hd. split; [reflexivity|exact Hfs].
Defined.

(** [Url.puml]: the directive is joined to [Alice->Bob]. *)
Lemma remote_include_kept_stripped_witness :
  let s := Samples.loaded (py "Url.puml") Samples.url Example.dirs in
  (_readFileRecursively Example.default_config Posix.ops 1 O Example.src_dir false s).1
  = inr (py ("@startuml" ++ Example.nl
             ++ "!includeurl https://example.org/style.pumlAlice->Bob" ++ Example.nl
             ++ "@enduml" ++ Example.nl)).
Proof.
  intros s.
  rewrite (remote_include_kept_stripped Example.default_config Posix.ops 0 O Example.src_dir
             false s [py "@startuml" ++ [10]] [py "Alice->Bob" ++ [10]; py "@enduml" ++ [10]]
             (py "  !includeurl https://example.org/style.puml" ++ [10])).
  - vm_compute. reflexivity.
  - vm_compute. reflexivity.
  - plain_lines.
  - plain_lines.
  - left. vm_compute. reflexivity.
Defined.

(** [Main.puml] with [common.puml], last modified at 70. *)
Lemma local_include_spliced_witness :
  let s := Samples.loaded (py "Main.puml") Samples.main Samples.include_tree in
  exists s',
    _readFileRecursively Example.default_config Posix.ops 2 O Example.src_dir false s
    = (inr (py ("@startuml" ++ Example.nl ++ "skinparam monochrome true" ++ Example.nl
                ++ "Alice->Bob" ++ Example.nl ++ "@enduml" ++ Example.nl)), s') /\
    inc_time (diagram s') = 70%Z.
Proof.
  intros s.
  destruct (local_include_spliced Example.default_config Posix.ops 0 O Example.src_dir
              false s [py "@startuml" ++ [10]]
              [py "Alice->Bob" ++ [10]; py "@enduml" ++ [10]]
              (py "!include common.puml" ++ [10]) Samples.common 70)
    as (s' & H & _ & Hinc).
  - vm_compute. lia.
  - vm_compute. reflexivity.
  - plain_lines.
  - plain_lines.
  - vm_compute. reflexivity.
  - vm_compute. reflexivity.
  - left. vm_compute. reflexivity.
  - plain_lines.
  - exists s'. split; [exact H | rewrite Hinc; reflexivity].
Defined.

(** [include/a.puml], included by a diagram of [src]. *)
Lemma nested_include_beside_included_file_witness :
  let s := Samples.loaded (py "Main.puml") Samples.main Samples.nested_tree in
  exists s',
    _read_incl_line_file Posix.ops
      (_readFileRecursively Example.default_config Posix.ops 2) [] false
      (py "/w/docs/diagrams/include/a.puml") s
    = (inr (py ("skinparam shadowing false" ++ Example.nl ++ "Alice->Bob" ++ Example.nl)),
       s') /\
    inc_time (diagram s') = 80%Z.
Proof.
  intros s.
  destruct (nested_include_beside_included_file Example.default_config Posix.ops 0 false s
              (py "/w/docs/diagrams/include/a.puml") [] Samples.part_a Samples.part_b
              (py "!include b.puml" ++ [10]) 60 80 [] [py "Alice->Bob" ++ [10]])
    as (s' & H & _ & Hinc).
  - vm_compute. reflexivity.
  - vm_compute. reflexivity.
  - constructor.
  - plain_lines.
  - vm_compute. reflexivity.
  - vm_compute. reflexivity.
  - vm_compute. reflexivity.
  - plain_lines.
  - exists s'. split; [exact H | rewrite Hinc; reflexivity].
Defined.

(** [Loop.puml], with a bound of 10 on the nesting. *)
Lemma self_include_raises_RecursionError_witness :
  let s := Samples.loaded (py "Loop.puml") Samples.loop Samples.loop_tree in
  exists s',
    _readFile Example.default_config Posix.ops (Example.env [] 200 []) 10 false s
    = (inl RecursionError, s') /\ fs s' = fs s.
Proof.
  intros s.
  apply (self_include_raises_RecursionError Example.default_config Posix.ops
           (Example.env [] 200 []) 10 false s O (py "/w/docs/diagrams/src/Loop.puml")
           Samples.loop 50 [py "@startuml" ++ [10]] [py "@enduml" ++ [10]]
           (py "!include Loop.puml" ++ [10])).
  - reflexivity.
  - reflexivity.
  - vm_compute. reflexivity.
  - vm_compute. reflexivity.
  - plain_lines.
  - vm_compute. reflexivity.
  - vm_compute. reflexivity.
  - vm_compute. reflexivity.
  - vm_compute. reflexivity.
Defined.

(** ** What resolution keeps *)

Section LinesKept.
Context (config : Config) (P : PathOps).

Lemma preprocess_includes_from_index k xs i line :
  In (i, line) (preprocess_includes_from k xs) ->
  exists x, xs !! (i - k)%nat = Some x /\ (k <= i)%nat /\
            prefixmatch re_include_prefix (strip x) = true.
Proof.
  revert k. induction xs as [|x xs IH]; intros k H; [destruct H|].
  cbn [preprocess_includes_from] in H.
  assert (Hrest : In (i, line) (preprocess_includes_from (S k) xs) ->
            exists y, (x :: xs) !! (i - k)%nat = Some y /\ (k <= i)%nat /\
                      prefixmatch re_include_prefix (strip y) = true).
  { intros H'. destruct (IH _ H') as (y & Hy & Hle & Hp). exists y.
    replace (i - k)%nat with (S (i - S k)) by lia. split; [exact Hy|]. split; [lia|exact Hp]. }
  destruct (prefixmatch re_include_prefix (strip x)) eqn:Hx; [|auto].
  destruct H as [H|H]; [|auto].
  injection H as <- _. exists x. rewrite Nat.sub_diag. auto.
Qed.

(** The loop of [process_includes] assigns to the entries of its include
    lines and to no other. *)
Lemma process_includes_frame depth (lines : loc) dir dark il :
  forall s r s' ys,
    (lines < next_loc s)%nat -> heap s !! lines = Some ys ->
    process_includes (_readIncludeLine config P (_readFileRecursively config P depth))
                     il lines dir dark s = (r, s') ->
    exists ys', heap s' !! lines = Some ys' /\ length ys' = length ys /\
                (lines < next_loc s')%nat /\
                forall i, ~ In i (List.map fst il) -> ys' !! i = ys !! i.
Proof.
  assert (Hkeep : forall line s r s',
            (lines < next_loc s)%nat ->
            _readIncludeLine config P (_readFileRecursively config P depth)
              line [] dir dark s = (r, s') ->
            (lines < next_loc s')%nat /\ heap s' !! lines = heap s !! lines).
  { intros line s r s' Hl Hrun.
    destruct (keeps_readIncludeLine lines config P (_readFileRecursively config P depth)
                line [] dir dark
                (fun l' d' dm Hne => keeps_readFileRecursively lines config P depth l' d' dm Hne)
                s r s' Hrun Hl) as (H1 & H2 & _).
    auto. }
  unfold process_includes.
  induction il as [|[i line] il IH]; intros s r s' ys Hl Hheap Hrun.
  - injection Hrun as _ <-. exists ys. auto.
  - cbn [for_each] in Hrun.
    apply bind_inv in Hrun as [(e & Hbody & _)|([] & s1 & Hbody & Hrest)].
    + apply bind_inv in Hbody as [(e' & Hline & _)|(c & s0 & Hline & Hset)].
      * destruct (Hkeep _ _ _ _ Hl Hline) as [H1 H2].
        exists ys. rewrite H2. auto.
      * destruct (Hkeep _ _ _ _ Hl Hline) as [H1 H2].
        unfold list_setitem in Hset. cbn [fst snd] in Hset.
        rewrite H2, Hheap in Hset. discriminate.
    + apply bind_inv in Hbody as [(e' & _ & He)|(c & s0 & Hline & Hset)]; [discriminate|].
      destruct (Hkeep _ _ _ _ Hl Hline) as [H1 H2].
      unfold list_setitem in Hset. cbn [fst snd] in Hset.
      rewrite H2, Hheap in Hset. injection Hset as <-.
      assert (Hnext : exists ys', heap s' !! lines = Some ys' /\
                length ys' = length (<[i := c]> ys) /\ (lines < next_loc s')%nat /\
                forall j, ~ In j (List.map fst il) -> ys' !! j = <[i := c]> ys !! j).
      { apply (IH _ _ _ _ (H1 : (lines < next_loc (set_heap _ (next_loc s0) s0))%nat)
                 (lookup_insert_eq _ _ _) Hrest). }
      destruct Hnext as (ys' & Hh & Hlen & Hl' & Hsame).
      exists ys'. split; [exact Hh|]. split; [rewrite Hlen; apply length_insert|].
      split; [exact Hl'|]. intros j Hj. cbn [List.map fst In] in Hj.
      rewrite Hsame by tauto. apply list_lookup_insert_ne. tauto.
Qed.

(** X11: flattening rewrites the directive lines of the list it is given,
    in place, and nothing else. When [_readFileRecursively] returns for a
    list that held [xs], the list has as many entries as before, every
    entry that was not a directive is as it was, and the text returned is
    the entries joined. *)
Theorem flatten_rewrites_only_directives (depth : nat) (lines : loc) (dir : str)
    (dark : bool) (s s' : state) (xs : list str) (text : str) :
  (lines < next_loc s)%nat ->
  heap s !! lines = Some xs ->
  _readFileRecursively config P depth lines dir dark s = (inr text, s') ->
  exists ys,
    text = concat ys /\ heap s' !! lines = Some ys /\ length ys = length xs /\
    forall i x, xs !! i = Some x -> plain_line x -> ys !! i = Some x.
Proof.
  intros Hl Hheap Hrun. destruct depth as [|depth]; [discriminate|].
  cbn [_readFileRecursively] in Hrun.
  apply bind_inv in Hrun as [(e & _ & He)|(xs0 & s0 & Hread & Hrun)]; [discriminate|].
  pose proof (readonly_read_list _ _ _ _ Hread) as ->.
  unfold read_list in Hread. rewrite Hheap in Hread. injection Hread as <-.
  apply bind_inv in Hrun as [(e & _ & He)|([] & s1 & Hproc & Hrun)]; [discriminate|].
  destruct (process_includes_frame depth lines dir dark _ _ _ _ xs Hl Hheap Hproc)
    as (ys & Hh & Hlen & _ & Hsame).
  apply bind_inv in Hrun as [(e & _ & He)|(ys0 & s2 & Hread & Hrun)]; [discriminate|].
  pose proof (readonly_read_list _ _ _ _ Hread) as ->.
  unfold read_list in Hread. rewrite Hh in Hread. injection Hread as <-.
  injection Hrun as <- <-.
  exists ys. split; [reflexivity|]. split; [exact Hh|]. split; [exact Hlen|].
  intros i x Hx Hplain. rewrite Hsame; [exact Hx|].
  intros Hin. apply in_map_iff in Hin as ([j line] & Hj & Hin). cbn in Hj. subst j.
  apply preprocess_includes_from_index in Hin as (y & Hy & _ & Hp).
  rewrite Nat.sub_0_r, Hx in Hy. injection Hy as <-.
  unfold plain_line in Hplain. congruence.
Qed.

End LinesKept.

(** [Main.puml]: the line [Alice->Bob] stays where it was. *)
Lemma flatten_rewrites_only_directives_witness :
  let s := Samples.loaded (py "Main.puml") Samples.main Samples.include_tree in
  let r := _readFileRecursively Example.default_config Posix.ops 5 O Example.src_dir false s in
  exists ys,
    r.1 = inr (concat ys) /\ heap r.2 !! O = Some ys /\ length ys = 4%nat /\
    ys !! 2%nat = Some (py "Alice->Bob" ++ [10]).
Proof.
  intros s r.
  assert (Hr : r.1 = inr (py ("@startuml" ++ Example.nl ++ "skinparam monochrome true"
                              ++ Example.nl ++ "Alice->Bob" ++ Example.nl
                              ++ "@enduml" ++ Example.nl)))
    by (vm_compute; reflexivity).
  destruct (flatten_rewrites_only_directives Example.default_config Posix.ops 5 O
              Example.src_dir false s r.2 (readlines Samples.main) _
              ltac:(vm_compute; lia) eq_refl
              (eq_trans (surjective_pairing r) (f_equal (fun x => (x, r.2)) Hr)))
    as (ys & Htext & Hheap & Hlen & Hsame).
  exists ys. split; [rewrite Hr, Htext; reflexivity|]. split; [exact Hheap|].
  split; [exact Hlen|]. apply Hsame; vm_compute; reflexivity.
Defined.

Section IncTime.
Context (config : Config) (P : PathOps) (E : Env).

#[local] Instance inc_time_le_preorder : PreOrder inc_time_le.
Proof.
  split.
  - intros s. unfold inc_time_le. lia.
  - intros a b c. unfold inc_time_le. lia.
Qed.

Lemma inc_time_le_same s s' : diagram s' = diagram s -> inc_time_le s s'.
Proof. intros H. unfold inc_time_le. rewrite H. lia. Qed.

Lemma inc_print msg : preserves inc_time_le (print msg).
Proof. intros s r s' H. injection H as _ <-. apply inc_time_le_same. reflexivity. Qed.

Lemma inc_assign f :
  (forall d, (inc_time d <= inc_time (f d))%Z) -> preserves inc_time_le (assign f).
Proof. intros Hf s r s' H. injection H as _ <-. apply Hf. Qed.

Lemma inc_new_list xs : preserves inc_time_le (new_list xs).
Proof. intros s r s' H. injection H as _ <-. apply inc_time_le_same. reflexivity. Qed.

Lemma inc_list_setitem l i v : preserves inc_time_le (list_setitem l i v).
Proof.
  intros s r s' H. unfold list_setitem in H.
  repeat case_match; simplify_eq; apply inc_time_le_same; reflexivity.
Qed.

Lemma inc_write_text p c : preserves inc_time_le (write_text P p c).
Proof.
  intros s r s' H. unfold write_text in H.
  repeat case_match; simplify_eq; apply inc_time_le_same; reflexivity.
Qed.

Lemma inc_move_to name c dst : preserves inc_time_le (move_to P name c dst).
Proof.
  intros s r s' H. unfold move_to in H.
  repeat case_match; simplify_eq; apply inc_time_le_same; reflexivity.
Qed.

Lemma inc_mkdir_parents p : preserves inc_time_le (mkdir_parents P p).
Proof.
  unfold mkdir_parents. refine (preserves_for_each _ _ _ _). intros q. unfold preserves.
  intros s r s' H.
  repeat case_match; simplify_eq; apply inc_time_le_same; reflexivity.
Qed.

Lemma inc_new_temp_file text : preserves inc_time_le (new_temp_file E text).
Proof. intros s r s' H. injection H as _ <-. apply inc_time_le_same. reflexivity. Qed.

Lemma inc_new_temp_dir : preserves inc_time_le (new_temp_dir E).
Proof. intros s r s' H. injection H as _ <-. apply inc_time_le_same. reflexivity. Qed.

(** The one assignment to [inc_time] during a pass raises it. *)
Lemma inc_note_inc_time p : preserves inc_time_le (note_inc_time p).
Proof.
  intros s r s' H. unfold note_inc_time in H.
  erewrite bind_inr in H by apply stat_or_0.
  unfold bind, get_diagram in H.
  destruct (Z.gtb_spec (mtime_or_0 s p) (inc_time (diagram s))) as [Hgt|Hle];
    injection H as _ <-; unfold inc_time_le; cbn; lia.
Qed.

Create HintDb inc.
Hint Resolve readonly_get readonly_get_diagram readonly_stat_mtime readonly_path_exists
  readonly_read_text readonly_read_list inc_print inc_new_list inc_list_setitem
  inc_write_text inc_move_to inc_mkdir_parents inc_new_temp_file inc_new_temp_dir
  inc_note_inc_time : inc.
Hint Extern 1 (preserves inc_time_le (assign _)) =>
  apply inc_assign; intros; cbn; lia : inc.

Lemma inc_pretty_print_svg c : preserves inc_time_le (_pretty_print_svg E c).
Proof. unfold _pretty_print_svg. pres_with inc. Qed.
Hint Resolve inc_pretty_print_svg : inc.

Lemma inc_decode_content c : preserves inc_time_le (decode_content c).
Proof. unfold decode_content. pres_with inc. Qed.
Hint Resolve inc_decode_content : inc.

Lemma inc_call_server f : preserves inc_time_le (_call_server config P E f).
Proof. unfold _call_server. pres_with inc. Qed.
Hint Resolve inc_call_server : inc.

Lemma inc_convert dark : preserves inc_time_le (_convert config P E dark).
Proof. unfold _convert, convert_local, convert_server. pres_with inc. Qed.

Lemma inc_read_incl_sub t d p n : preserves inc_time_le (_read_incl_sub P t d p n).
Proof. unfold _read_incl_sub. pres_with inc. Qed.
Hint Resolve inc_read_incl_sub : inc.

Lemma inc_readIncludeLine rec line t dir d :
  (forall lines dir dm, preserves inc_time_le (rec lines dir dm)) ->
  preserves inc_time_le (_readIncludeLine config P rec line t dir d).
Proof.
  intros Hrec. unfold _readIncludeLine, _read_incl_line_file. pres_with inc.
Qed.

Lemma inc_readFileRecursively depth lines dir d :
  preserves inc_time_le (_readFileRecursively config P depth lines dir d).
Proof.
  revert lines dir d. induction depth as [|depth IH]; intros lines dir d;
    cbn [_readFileRecursively].
  - refine (preserves_raise _ _).
  - pose proof (fun line t dir d => inc_readIncludeLine _ line t dir d IH) as Hline.
    unfold process_includes. pres_with inc.
Qed.

Lemma inc_readFile depth d : preserves inc_time_le (_readFile config P E depth d).
Proof.
  pose proof inc_readFileRecursively as Hrec.
  unfold _readFile, flatten_source, encode_and_store. pres_with inc.
Qed.

(** X12: [inc_time] never goes back during the passes. Whatever
    [_readFile] and [_convert] do, and whether they return or raise,
    [inc_time] is afterwards at least what it was; in particular it is not
    reset between the normal and the dark pass, so that the dark pass
    compares its output with the includes of both passes. *)
Theorem inc_time_never_decreases (depth : nat) :
  (forall dark, preserves inc_time_le (_readFile config P E depth dark)) /\
  (forall dark, preserves inc_time_le (_convert config P E dark)) /\
  preserves inc_time_le
    (_readFile config P E depth false ;; _convert config P E false ;;
     _readFile config P E depth true ;; _convert config P E true).
Proof.
  pose proof (inc_readFile depth) as Hread. pose proof inc_convert as Hconv.
  split; [exact Hread|]. split; [exact Hconv|].
  repeat (refine (preserves_bind _ _ _ _ _); [auto|intros _]). auto.
Qed.

End IncTime.

Section ReadOnlyFs.
Context (config : Config) (P : PathOps) (E : Env).

#[local] Instance same_fs_preorder : PreOrder same_fs.
Proof.
  split.
  - intros s. reflexivity.
  - intros a b c Hab Hbc. unfold same_fs in *. congruence.
Qed.

Lemma fs_print msg : preserves same_fs (print msg).
Proof. intros s r s' H. injection H as _ <-. reflexivity. Qed.

Lemma fs_assign f : preserves same_fs (assign f).
Proof. intros s r s' H. injection H as _ <-. reflexivity. Qed.

Lemma fs_new_list xs : preserves same_fs (new_list xs).
Proof. intros s r s' H. injection H as _ <-. reflexivity. Qed.

Lemma fs_list_setitem l i v : preserves same_fs (list_setitem l i v).
Proof.
  intros s r s' H. unfold list_setitem in H.
  repeat case_match; simplify_eq; reflexivity.
Qed.

Create HintDb fsro.
Hint Resolve readonly_get readonly_get_diagram readonly_stat_mtime readonly_path_exists
  readonly_read_text readonly_read_list fs_print fs_assign fs_new_list fs_list_setitem
  : fsro.

Lemma fs_read_incl_sub t d p n : preserves same_fs (_read_incl_sub P t d p n).
Proof. unfold _read_incl_sub, note_inc_time. pres_with fsro. Qed.
Hint Resolve fs_read_incl_sub : fsro.

Lemma fs_readIncludeLine rec line t dir d :
  (forall lines dir dm, preserves same_fs (rec lines dir dm)) ->
  preserves same_fs (_readIncludeLine config P rec line t dir d).
Proof.
  intros Hrec. unfold _readIncludeLine, _read_incl_line_file, note_inc_time.
  pres_with fsro.
Qed.

Lemma fs_readFileRecursively depth lines dir d :
  preserves same_fs (_readFileRecursively config P depth lines dir d).
Proof.
  revert lines dir d. induction depth as [|depth IH]; intros lines dir d;
    cbn [_readFileRecursively].
  - refine (preserves_raise _ _).
  - pose proof (fun line t dir d => fs_readIncludeLine _ line t dir d IH) as Hline.
    unfold process_includes. pres_with fsro.
Qed.

Lemma fs_readFile depth d : preserves same_fs (_readFile config P E depth d).
Proof.
  pose proof fs_readFileRecursively as Hrec.
  unfold _readFile, flatten_source, encode_and_store. pres_with fsro.
Qed.

Lemma fs_load_diagram root subdir fname :
  preserves same_fs (load_diagram config P E root subdir fname).
Proof.
  unfold load_diagram. refine (preserves_bind _ _ _ _ _).
  - intros s r s' H. injection H as _ <-. reflexivity.
  - intros _. unfold _search_start_tag, _build_out_filename, _build_mtimes.
    pres_with fsro.
Qed.

(** X13: reading never writes. Building the diagram object, flattening
    the source and encoding it leave the file system as it is, whether they
    return or raise: in a build, only [_convert] creates or changes files. *)
Theorem reading_never_writes (depth : nat) :
  (forall root subdir fname,
     preserves same_fs (load_diagram config P E root subdir fname)) /\
  (forall dark, preserves same_fs (_readFile config P E depth dark)) /\
  (forall subdir, preserves same_fs (_make_diagram_root config P E subdir)) /\
  (forall root subdir fname s r s',
     (load_diagram config P E root subdir fname ;; _readFile config P E depth false) s
     = (r, s') -> fs s' = fs s).
Proof.
  split; [exact fs_load_diagram|]. split; [exact (fs_readFile depth)|].
  split; [intros subdir; unfold _make_diagram_root; pres_with fsro|].
  intros root subdir fname s r s' H.
  pose proof (fs_load_diagram root subdir fname) as Hload.
  pose proof (fs_readFile depth false) as Hread.
  exact (preserves_bind same_fs _ _ Hload (fun _ => Hread) s r s' H).
Qed.

End ReadOnlyFs.

(** The normal pass over [Main.puml], whose include was last modified at 70. *)
Lemma inc_time_never_decreases_witness :
  let s := Samples.loaded (py "Main.puml") Samples.main Samples.include_tree in
  let r := _readFile Example.local_config Posix.ops (Example.env [] 200 []) 10 false s in
  (inc_time (diagram s) <= inc_time (diagram r.2))%Z /\ inc_time (diagram r.2) = 70%Z.
Proof.
  intros s r. split.
  - apply (proj1 (inc_time_never_decreases Example.local_config Posix.ops
                    (Example.env [] 200 []) 10) false s r.1 r.2).
    apply surjective_pairing.
  - vm_compute. reflexivity.
Defined.

(** [A.puml], from its discovery to its token. *)
Lemma reading_never_writes_witness :
  let s := Example.initial (Example.alice_tree 50) in
  let E := Example.env [] 200 [] in
  let r := (load_diagram Example.default_config Posix.ops E Example.root Example.src_dir
              (py "A.puml") ;;
            _readFile Example.default_config Posix.ops E 10 false) s in
  r.1 = inr tt /\ fs r.2 = fs s.
Proof.
  intros s E r. split; [vm_compute; reflexivity|].
  apply (proj2 (proj2 (proj2 (reading_never_writes Example.default_config Posix.ops E 10)))
           Example.root Example.src_dir (py "A.puml") s r.1 r.2).
  apply surjective_pairing.
Defined.

(** ** The shape of an include line *)

Section Directives.
Context (config : Config) (P : PathOps).

(** A directive pattern asks for white space after its keyword. *)
Lemma no_space_no_directive p r c t :
  is_space c = false ->
  match_dollar (Cat (Lit p) (Cat (Plus Space) r)) (p ++ c :: t) = false.
Proof.
  intros Hc. destruct (match_dollar _ _) eqn:Hm; [|reflexivity].
  apply directive_space in Hm as (c' & t' & Heq & Hc').
  apply app_inv_head in Heq. injection Heq as -> _. congruence.
Qed.

(** After [!include], the patterns of the two other keywords need a [u]
    or an [s]. *)
Lemma other_keyword c t :
  (c <> 117 -> match_dollar re_includeurl (py "!include" ++ c :: t) = false) /\
  (c <> 115 -> match_dollar re_includesub (py "!include" ++ c :: t) = false).
Proof.
  split; intros Hc.
  - destruct (match_dollar _ _) eqn:Hm; [|reflexivity].
    apply match_dollar_prefix in Hm as (u & Hu & _).
    change (py "!includeurl") with (py "!include" ++ 117 :: py "rl") in Hu.
    rewrite <- app_assoc in Hu. apply app_inv_head in Hu. injection Hu as -> _.
    contradiction.
  - destruct (match_dollar _ _) eqn:Hm; [|reflexivity].
    apply match_dollar_prefix in Hm as (u & Hu & _).
    change (py "!includesub") with (py "!include" ++ 115 :: py "ub") in Hu.
    rewrite <- app_assoc in Hu. apply app_inv_head in Hu. injection Hu as -> _.
    contradiction.
Qed.

(** X14: the lines that start with [!include] and are no directive the
    program knows. Such a line is selected by [preprocess_includes], and
    [_readIncludeLine] raises [Exception("Unknown include type: <line>")]
    for it without touching the state, when the line is [!include] alone,
    when [!include] is followed by a character that is neither white space
    nor [u] nor [s] (as in [!include_many] or [!include_once]), and when two
    words follow the keyword (a target with a blank in it). *)
Theorem unknown_include_type (rec : loc -> str -> bool -> M str)
    (line rest temp dir : str) (dark : bool) (s : state) :
  line = py "!include" ++ rest ->
  (rest = [] \/
   (exists c t, rest = c :: t /\ is_space c = false /\ c <> 117 /\ c <> 115) \/
   (exists sp1 w1 sp2 w2,
      rest = sp1 ++ w1 ++ sp2 ++ w2 /\ sp1 <> [] /\ spaces sp1 /\ a_word w1 /\
      sp2 <> [] /\ spaces sp2 /\ a_word w2)) ->
  prefixmatch re_include_prefix line = true /\
  _readIncludeLine config P rec line temp dir dark s
  = (inl (Exception (py "Unknown include type: " ++ line)), s).
Proof.
  intros -> Hrest. split; [apply prefixmatch_Lit|].
  assert (Hnone : match_dollar re_includeurl (py "!include" ++ rest) = false /\
                  match_dollar re_includesub (py "!include" ++ rest) = false /\
                  match_dollar re_include (py "!include" ++ rest) = false).
  { destruct Hrest as [->|[(c & t & -> & Hc & Hu & Hs)|
                           (sp1 & w1 & sp2 & w2 & -> & Hne1 & Hsp1 & Hw1 & Hne2 & Hsp2 & Hw2)]].
    - vm_compute. auto.
    - split; [apply (proj1 (other_keyword c t)); exact Hu|].
      split; [apply (proj2 (other_keyword c t)); exact Hs|].
      apply no_space_no_directive. exact Hc.
    - destruct Hsp1 as [|c sp1 Hc Hsp1]; [contradiction|]. cbn [app].
      assert (Hu : c <> 117) by (intros ->; discriminate).
      assert (Hs : c <> 115) by (intros ->; discriminate).
      split; [apply (proj1 (other_keyword c _)); exact Hu|].
      split; [apply (proj2 (other_keyword c _)); exact Hs|].
      change (c :: sp1 ++ w1 ++ sp2 ++ w2) with ((c :: sp1) ++ w1 ++ sp2 ++ w2).
      apply two_words_no_directive; try assumption. constructor; assumption. }
  destruct Hnone as (Hu & Hs & Hi). unfold _readIncludeLine. rewrite Hu, Hs, Hi.
  reflexivity.
Qed.

(** X15: the target of an [!include] keeps the white space after the
    first separator. A line made of [!include], one white-space character
    [c], more white space [sp], a word [w] and white space matches the
    pattern of [!include], and the target the program takes from it,
    [line[9:].rstrip()], is [sp ++ w]: it is the word only when a single
    character separates it from the keyword. *)
Theorem include_target_after_one_separator (c : N) (sp w sp' : str) :
  is_space c = true -> spaces sp -> a_word w -> spaces sp' ->
  let line := py "!include" ++ c :: sp ++ w ++ sp' in
  match_dollar re_include line = true /\
  rstrip (drop 9 line) = sp ++ w.
Proof.
  intros Hc Hsp Hw Hsp' line. split.
  - apply match_dollar_lang. left. apply lang_Cat_Lit.
    exists (c :: sp ++ w ++ sp'). split; [reflexivity|]. apply directive_shape.
    exists (c :: sp), w, sp'. split; [reflexivity|]. split; [discriminate|].
    split; [constructor; assumption|]. auto.
  - change (drop 9 line) with (sp ++ w ++ sp').
    rewrite app_assoc, rstrip_spaces by exact Hsp'. apply rstrip_word. exact Hw.
Qed.

Lemma note_inc_time_returns p s :
  exists d', note_inc_time p s = (inr tt, set_diagram d' s).
Proof.
  unfold note_inc_time. erewrite bind_inr by apply stat_or_0.
  erewrite bind_inr by reflexivity. cbv beta.
  destruct (mtime_or_0 s p >? inc_time (diagram s))%Z.
  - eexists. reflexivity.
  - exists (diagram s). destruct s. reflexivity.
Qed.

(** X16: an include whose target is a directory. For a local [!include]
    whose path beside the including file exists and is a directory, the
    existence test passes and opening the path fails: [_readIncludeLine]
    raises [IsADirectoryError], which its handler for [FileNotFoundError]
    does not catch; the path under the diagram root is not tried, and no
    file has been touched. *)
Theorem include_of_directory_raises (rec : loc -> str -> bool -> M str)
    (line temp dir : str) (dark : bool) (s : state) :
  match_dollar re_include line = true ->
  let target := theme_substitute config dark (rstrip (drop 9 line)) in
  startswith (py "http") target || startswith (py "<") target = false ->
  let primary := path_resolve P (path_join P dir target) in
  fs s !! primary = Some Dir ->
  exists s',
    _readIncludeLine config P rec line temp dir dark s
    = (inl (IsADirectoryError primary), s') /\
    fs s' = fs s /\ stdout s' = stdout s.
Proof.
  intros Hinc target Hlocal primary Hdir.
  destruct (note_inc_time_returns primary s) as (d' & Hnote).
  exists (set_diagram d' s). split; [|split; reflexivity].
  unfold _readIncludeLine.
  rewrite (include_not_includeurl line Hinc), (include_not_includesub line Hinc), Hinc.
  fold target. rewrite Hlocal. fold primary.
  unfold try_except_FileNotFoundError, try_except.
  unfold bind at 1. unfold path_exists at 1. rewrite Hdir.
  rewrite bool_decide_eq_true_2 by eauto.
  unfold _read_incl_line_file. rewrite (bind_inr _ _ _ _ _ Hnote).
  erewrite bind_inl by (unfold read_text; cbn [fs set_diagram]; rewrite Hdir; reflexivity).
  reflexivity.
Qed.

End Directives.

(** [!include my file.puml]. *)
Lemma unknown_include_type_witness :
  let s := Example.discovered (Example.alice_tree 50) in
  _readIncludeLine Example.default_config Posix.ops (fun _ _ _ => ret [])
    (py "!include my file.puml") [] Example.src_dir false s
  = (inl (Exception (py "Unknown include type: !include my file.puml")), s).
Proof.
  intros s.
  apply (unknown_include_type Example.default_config Posix.ops (fun _ _ _ => ret [])
           (py "!include my file.puml") (py " my file.puml") [] Example.src_dir false s).
  - reflexivity.
  - right. right. exists [32], (py "my"), [32], (py "file.puml").
    split; [reflexivity|]. split; [discriminate|]. split; [repeat constructor|].
    split; [split; [discriminate|repeat constructor]|]. split; [discriminate|].
    split; [repeat constructor|]. split; [discriminate|repeat constructor].
Defined.

(** [!include  common.puml], with two blanks. *)
Lemma include_target_after_one_separator_witness :
  match_dollar re_include (py "!include  common.puml") = true /\
  rstrip (drop 9 (py "!include  common.puml")) = py " common.puml".
Proof.
  apply (include_target_after_one_separator 32 [32] (py "common.puml") []).
  - reflexivity.
  - repeat constructor.
  - split; [discriminate|repeat constructor].
  - constructor.
Defined.

(** [!include src] in [/w/docs/diagrams], where [src] is a directory. *)
Lemma include_of_directory_raises_witness :
  let s := Example.discovered (Example.alice_tree 50) in
  exists s',
    _readIncludeLine Example.default_config Posix.ops (fun _ _ _ => ret [])
      (py "!include src") [] (py "/w/docs/diagrams") false s
    = (inl (IsADirectoryError (py "/w/docs/diagrams/src")), s') /\
    fs s' = fs s /\ stdout s' = stdout s.
Proof.
  intros s.
  apply (include_of_directory_raises Example.default_config Posix.ops (fun _ _ _ => ret [])
           (py "!include src") [] (py "/w/docs/diagrams") false s).
  - vm_compute. reflexivity.
  - vm_compute. reflexivity.
  - vm_compute. reflexivity.
Defined.

(** ** Rendering and the batch *)

Section Convert.
Context (config : Config) (P : PathOps) (E : Env).

Ltac step := erewrite bind_inr by reflexivity.

(** X17: a renderer that leaves no file. In local mode, when the output
    is stale and PlantUML generates nothing, [_convert] raises
    [RuntimeError("No files were generated by PlantUML")]. Without custom
    themes the file system is as it was; with [theme_enabled] the temporary
    source written for the renderer is still there. *)
Theorem no_generated_file_raises (s : state) (dark : bool) :
  str_eqb (render config) (py "local") = true ->
  needs_conversion (diagram s) dark = true ->
  (forall args files, plantuml_call E args files = inr []) ->
  exists s',
    _convert config P E dark s
    = (inl (RuntimeError (py "No files were generated by PlantUML")), s') /\
    (theme_enabled config = false -> fs s' = fs s) /\
    (theme_enabled config = true ->
     fs s' = <[mkstemp E (tmp_count s) := File (concat_file (diagram s)) (now s)]> (fs s)).
Proof.
  intros Hlocal Hstale Hcall.
  destruct (theme_enabled config) eqn:Htheme.
  - eexists. split.
    + unfold _convert. step. cbv beta. rewrite Hstale. step. rewrite Hlocal.
      unfold convert_local. step. rewrite Htheme. step. cbv beta iota zeta.
      do 2 step. rewrite Hcall. step. reflexivity.
    + split; [discriminate|]. reflexivity.
  - eexists. split.
    + unfold _convert. step. cbv beta. rewrite Hstale. step. rewrite Hlocal.
      unfold convert_local. step. rewrite Htheme. step. cbv beta iota zeta.
      do 2 step. rewrite Hcall. step. reflexivity.
    + split; [reflexivity|discriminate].
Qed.

(** What the local branch does with the first generated file. *)
Lemma local_render_tail (st : state) (out : str) (g : str * str) (files : gmap str node)
    (t : Z) :
  fs st = files -> now st = t ->
  files !! out <> Some Dir -> files !! path_parent P out = Some Dir ->
  exists s',
    (move_to P g.1 g.2 out ;;
     if str_eqb (output_format config) (py "svg") then
       try_except
         (svg_content <- read_text out ;;
          formatted_svg <- _pretty_print_svg E svg_content ;;
          write_text P out formatted_svg ;;
          print (py "Formatting SVG content successful."))
         (fun e => print (py "Error formatting SVG content: " ++ exn_str e))
     else ret tt) st = (inr tt, s') /\
    fs s' = <[out := File (final_content config E g.2) t]> files.
Proof.
  intros Hfs Hnow Hout Hparent.
  assert (Hne : path_parent P out <> out) by (intros Heq; rewrite Heq in Hparent; auto).
  assert (Hmove : move_to P g.1 g.2 out st
                  = (inr tt, set_fs (<[out := File g.2 t]> files) st)).
  { unfold move_to. rewrite Hfs, Hparent, Hnow.
    destruct (files !! out) as [[c t0|]|]; try reflexivity. contradiction Hout. reflexivity. }
  rewrite (bind_inr _ _ _ _ _ Hmove). unfold final_content.
  destruct (str_eqb (output_format config) (py "svg")).
  2:{ eexists. split; reflexivity. }
  assert (Hwrite : forall st' c, fs st' = <[out := File g.2 t]> files -> now st' = t ->
            write_text P out c st' = (inr tt, set_fs (<[out := File c t]> files) st')).
  { intros st' c Hfs' Hnow'. unfold write_text.
    rewrite Hfs', lookup_insert_eq, (lookup_insert_ne _ _ _ _ (not_eq_sym Hne)), Hparent.
    rewrite insert_insert_eq, Hnow'. reflexivity. }
  unfold try_except.
  erewrite bind_inr
    by (unfold read_text; cbn [fs set_fs]; rewrite lookup_insert_eq; reflexivity).
  unfold _pretty_print_svg.
  destruct (etree_pretty E g.2) as [e|pretty_xml].
  - erewrite bind_inr by reflexivity.
    erewrite bind_inr by (apply Hwrite; [reflexivity|exact Hnow]).
    eexists. split; reflexivity.
  - erewrite bind_inr by reflexivity.
    erewrite bind_inr by (apply Hwrite; [reflexivity|exact Hnow]).
    eexists. split; reflexivity.
Qed.

(** X18: a local rendering. In local mode, when the output of the pass
    is stale, PlantUML is called on the source file, or with
    [theme_enabled] on a temporary file that holds the flattened text, with
    [-darkmode] in the dark pass; the first file it generates becomes the
    output of the pass (pretty-printed for [svg], and as generated when the
    pretty-printer fails), and [_convert] returns. The temporary source is
    not removed. *)
Theorem local_render_writes_output (s : state) (dark : bool) (g : str * str)
    (gs : list (str * str)) :
  str_eqb (render config) (py "local") = true ->
  needs_conversion (diagram s) dark = true ->
  let d := diagram s in
  let out := if dark then out_file_dark d else out_file d in
  let source := if theme_enabled config then mkstemp E (tmp_count s)
                else path_join P (directory d) (file d) in
  let files := if theme_enabled config
               then <[source := File (concat_file d) (now s)]> (fs s) else fs s in
  let tmpdir := mkdtemp E (if theme_enabled config then S (tmp_count s) else tmp_count s) in
  let command := (rsplit_ws (bin_path config) ++ [py "-t" ++ output_format config])
                   ++ [source] in
  plantuml_call E ((if dark then command ++ [py "-darkmode"] else command)
                     ++ [py "-o"; tmpdir]) files = inr (g :: gs) ->
  files !! out <> Some Dir ->
  files !! path_parent P out = Some Dir ->
  exists s', _convert config P E dark s = (inr tt, s') /\
             fs s' = <[out := File (final_content config E g.2) (now s)]> files.
Proof.
  intros Hlocal Hstale d out source files tmpdir command Hcall Hout Hparent.
  assert (Hprefix : exists st,
    _convert config P E dark s =
    (move_to P g.1 g.2 out ;;
     if str_eqb (output_format config) (py "svg") then
       try_except
         (svg_content <- read_text out ;;
          formatted_svg <- _pretty_print_svg E svg_content ;;
          write_text P out formatted_svg ;;
          print (py "Formatting SVG content successful."))
         (fun e => print (py "Error formatting SVG content: " ++ exn_str e))
     else ret tt) st /\ fs st = files /\ now st = now s).
  { subst d out source files tmpdir command.
    destruct (theme_enabled config) eqn:Htheme.
    - eexists. split.
      + unfold _convert. step. cbv beta. rewrite Hstale. step. rewrite Hlocal.
        unfold convert_local. step. rewrite Htheme. step. cbv beta iota zeta.
        do 2 step.
        cbn [diagram fs heap next_loc stdout tmp_count now
             set_diagram set_fs set_heap set_stdout set_tmp_count].
        rewrite Hcall. step. cbv beta iota. reflexivity.
      + split; reflexivity.
    - eexists. split.
      + unfold _convert. step. cbv beta. rewrite Hstale. step. rewrite Hlocal.
        unfold convert_local. step. rewrite Htheme. step. cbv beta iota zeta.
        do 2 step.
        cbn [diagram fs heap next_loc stdout tmp_count now
             set_diagram set_fs set_heap set_stdout set_tmp_count].
        rewrite Hcall. step. cbv beta iota. reflexivity.
      + split; reflexivity. }
  destruct Hprefix as (st & -> & Hfs & Hnow).
  apply local_render_tail; assumption.
Qed.

(** X19: a server that cannot be reached. In server mode (any value of
    [render] other than [local]), when the output is stale and the request
    raises [e], [_convert] prints the failure and raises [e] again; no file
    has been written. *)
Theorem transport_error_reraised (s : state) (dark : bool) (e : exn) :
  str_eqb (render config) (py "local") = false ->
  needs_conversion (diagram s) dark = true ->
  http_request E (disable_ssl_certificate_validation config)
    (server config ++ py "/" ++ output_format config ++ py "/" ++ b64encoded (diagram s))
  = inl e ->
  exists s',
    _convert config P E dark s = (inl e, s') /\ fs s' = fs s /\
    last (stdout s')
    = Some (py "Server error while processing " ++ file (diagram s) ++ py ": " ++ exn_str e).
Proof.
  intros Hserver Hstale Hreq. eexists. split.
  - unfold _convert. step. cbv beta. rewrite Hstale. step. rewrite Hserver.
    unfold convert_server. step. apply bind_inl. unfold _call_server. do 2 step.
    cbn [diagram set_stdout]. rewrite Hreq. step. reflexivity.
  - cbn. split; [reflexivity|]. apply last_snoc.
Qed.

(** Creating directories that exist changes nothing. *)
Lemma mkdir_parents_exist p s :
  Forall (fun q => fs s !! q = Some Dir) (path_parents P p ++ [p]) ->
  mkdir_parents P p s = (inr tt, s).
Proof.
  unfold mkdir_parents. generalize (path_parents P p ++ [p]).
  intros l H. induction H as [|q l Hq _ IH]; [reflexivity|].
  cbn [for_each]. erewrite bind_inr by (rewrite Hq; reflexivity). exact IH.
Qed.

(** X20: an answer of the server is written, and then the build fails.
    In server mode, when the output is stale, the server answers 200 with a
    body that is UTF-8, and the output directory exists: [_call_server]
    writes the text (pretty-printed for [svg]) to the output path, and
    [_convert] then raises [AttributeError], for [_call_server] has
    returned [None]. *)
Theorem server_answer_written_then_error (s : state) (dark : bool) (body : bytes)
    (text : str) :
  str_eqb (render config) (py "local") = false ->
  needs_conversion (diagram s) dark = true ->
  http_request E (disable_ssl_certificate_validation config)
    (server config ++ py "/" ++ output_format config ++ py "/" ++ b64encoded (diagram s))
  = inr (200%Z, body) ->
  utf8_decode body = Some text ->
  let d := diagram s in
  let out := path_join P (out_dir d) (if dark then out_file_dark d else out_file d) in
  Forall (fun q => fs s !! q = Some Dir) (path_parents P (out_dir d) ++ [out_dir d]) ->
  fs s !! out <> Some Dir ->
  fs s !! path_parent P out = Some Dir ->
  exists s',
    _convert config P E dark s
    = (inl (AttributeError (py "'NoneType' object has no attribute 'decode'")), s') /\
    fs s' = <[out := File (final_content config E text) (now s)]> (fs s).
Proof.
  intros Hserver Hstale Hreq Hbody d out Hdirs Hout Hparent.
  assert (Hwrite : forall st c, fs st = fs s -> now st = now s ->
            write_text P out c st = (inr tt, set_fs (<[out := File c (now s)]> (fs s)) st)).
  { intros st c Hfs Hnow. unfold write_text. rewrite Hfs, Hparent, Hnow.
    destruct (fs s !! out) as [[? ?|]|]; try reflexivity. contradiction Hout. reflexivity. }
  assert (Hcall : forall st, fs st = fs s -> now st = now s -> diagram st = diagram s ->
            exists st', _call_server config P E (if dark then out_file_dark d else out_file d) st
                        = (inr None, st') /\
              fs st' = <[out := File (final_content config E text) (now s)]> (fs s)).
  { intros st Hfs Hnow Hd. unfold _call_server. step. cbv beta. rewrite Hd. step.
    rewrite Hreq. step. cbn [negb Z.eqb Pos.eqb]. cbv beta iota.
    erewrite bind_inr by (apply mkdir_parents_exist; cbn [fs set_stdout]; rewrite Hfs;
                          exact Hdirs).
    unfold final_content, decode_utf8. rewrite Hbody.
    cbv beta iota zeta delta [bind lift ret print try_except _pretty_print_svg].
    fold d. fold out.
    destruct (str_eqb (output_format config) (py "svg")); [destruct (etree_pretty E text)|];
      cbv beta iota; rewrite Hwrite by (cbn; assumption); cbv beta iota;
      eexists; split; reflexivity. }
  set (st0 := set_stdout ((stdout s ++ [py "Converting " ++ path_join P (directory d) (file d)])
                            ++ [py "Converting with PlantUML Server"]) s).
  destruct (Hcall st0 eq_refl eq_refl eq_refl) as (st' & Hrun & Hfs').
  exists (if str_eqb (output_format config) (py "svg")
          then set_stdout (stdout st' ++ [py "Error formatting SVG content: "
                  ++ exn_str (AttributeError (py "'NoneType' object has no attribute 'decode'"))])
                 st'
          else st').
  split.
  - unfold _convert. step. cbv beta. rewrite Hstale. step. rewrite Hserver.
    unfold convert_server. step. fold d. fold st0.
    rewrite (bind_inr _ _ _ _ _ Hrun).
    destruct (str_eqb (output_format config) (py "svg")); reflexivity.
  - destruct (str_eqb (output_format config) (py "svg")); exact Hfs'.
Qed.

Lemma for_each_skip {A} (l : list A) (body : A -> M unit) s :
  (forall x, In x l -> body x s = (inr tt, s)) -> for_each l body s = (inr tt, s).
Proof.
  induction l as [|x l IH]; intros H; [reflexivity|].
  cbn [for_each]. rewrite (bind_inr _ _ _ _ _ (H x (or_introl eq_refl))).
  apply IH. intros y Hy. apply H. right. exact Hy.
Qed.

Lemma collect_none {A B} (l : list A) (f : A -> M (list B)) s :
  (forall x, In x l -> f x s = (inr [], s)) -> collect l f s = (inr [], s).
Proof.
  induction l as [|x l IH]; intros H; [reflexivity|].
  cbn [collect]. rewrite (bind_inr _ _ _ _ _ (H x (or_introl eq_refl))).
  rewrite (bind_inr _ _ _ _ _ (IH (fun y Hy => H y (or_intror Hy)))). reflexivity.
Qed.

(** X21: a build with nothing to do. With a single diagram root, when the
    walk of the source directory finds no file that passes the extension
    filter (or finds nothing: the directory may not exist), [on_pre_build]
    returns normally; it has printed the line of the diagram root and done
    nothing else. *)
Theorem build_without_matching_files (depth : nat) (s : state) :
  allow_multiple_roots config = false ->
  let root_dir := path_join P (cwd E) (diagram_root config) in
  let src_dir := path_join P root_dir (input_folder config) in
  (forall entry f, In entry (walk E (fs s) src_dir) -> In f entry.2 ->
                   _file_matches_extension config f = false) ->
  on_pre_build config P E depth s
  = (inr tt,
     set_stdout (stdout s ++ [py "root dir: " ++ root_dir ++ py ", src dir: " ++ src_dir]) s).
Proof.
  intros Hroots root_dir src_dir Hnone. unfold on_pre_build. rewrite Hroots.
  unfold _make_diagram_root. fold root_dir. fold src_dir. step.
  cbn [for_each]. erewrite bind_inr; [reflexivity|].
  step. cbn [fs set_stdout DiagramRoot.src_dir].
  apply for_each_skip. intros entry Hentry. apply for_each_skip. intros f Hf.
  rewrite (Hnone entry f Hentry Hf). reflexivity.
Qed.

(** X22: several roots allowed, none found. With [allow_multiple_roots],
    when no directory under the working directory has a path that ends with
    [diagram_root], [on_pre_build] returns without printing or changing
    anything. *)
Theorem build_without_diagram_root (depth : nat) (s : state) :
  allow_multiple_roots config = true ->
  (forall entry d, In entry (walk E (fs s) (cwd E)) -> In d entry.1.2 ->
                   endswith (diagram_root config) (entry.1.1 ++ py "/" ++ d) = false) ->
  on_pre_build config P E depth s = (inr tt, s).
Proof.
  intros Hroots Hnone. unfold on_pre_build. rewrite Hroots.
  erewrite bind_inr.
  2:{ step. apply collect_none. intros entry Hentry. apply collect_none. intros d Hd.
      rewrite (Hnone entry d Hentry Hd). reflexivity. }
  reflexivity.
Qed.

End Convert.

(** [A.puml] with a renderer that leaves nothing. *)
Lemma no_generated_file_raises_witness :
  exists s',
    _convert Example.local_config Posix.ops Samples.env_silent false (Example.timed 150)
    = (inl (RuntimeError (py "No files were generated by PlantUML")), s') /\
    fs s' = fs (Example.timed 150).
Proof.
  destruct (no_generated_file_raises Example.local_config Posix.ops Samples.env_silent
              (Example.timed 150) false) as (s' & H & Hfs & _).
  - reflexivity.
  - reflexivity.
  - reflexivity.
  - exists s'. split; [exact H|]. apply Hfs. reflexivity.
Defined.

(** [A.puml] with custom themes, rendered by a renderer that echoes its
    command line. *)
Lemma local_render_writes_output_witness :
  exists s',
    _convert (with_theme_enabled true Example.local_config) Posix.ops
      (Example.env [] 200 []) false (Example.timed 150) = (inr tt, s') /\
    fs s' !! py "/w/docs/diagrams/out/A.png"
    = Some (File (py "/usr/local/bin/plantuml -tpng /tmp/tmp0.puml -o /tmp/tmpdir1 ") 1000) /\
    fs s' !! py "/tmp/tmp0.puml" = Some (File [] 1000).
Proof.
  destruct (local_render_writes_output (with_theme_enabled true Example.local_config)
              Posix.ops (Example.env [] 200 []) (Example.timed 150) false
              (py "diagram", py "/usr/local/bin/plantuml -tpng /tmp/tmp0.puml -o /tmp/tmpdir1 ")
              []) as (s' & H & Hfs).
  - reflexivity.
  - reflexivity.
  - vm_compute. reflexivity.
  - vm_compute. discriminate.
  - vm_compute. reflexivity.
  - exists s'. split; [exact H|]. rewrite Hfs. split; vm_compute; reflexivity.
Defined.

(** [A.puml] with a server that cannot be reached. *)
Lemma transport_error_reraised_witness :
  exists s',
    _convert Example.default_config Posix.ops Samples.env_offline false (Example.timed 150)
    = (inl (LibraryError (py "Unable to find the server")), s') /\
    fs s' = fs (Example.timed 150) /\
    last (stdout s')
    = Some (py "Server error while processing A.puml: Unable to find the server").
Proof.
  apply (transport_error_reraised Example.default_config Posix.ops Samples.env_offline
           (Example.timed 150) false (LibraryError (py "Unable to find the server"))).
  - reflexivity.
  - reflexivity.
  - reflexivity.
Defined.

(** [A.puml] with a server that answers [PNG]. *)
Lemma server_answer_written_then_error_witness :
  exists s',
    _convert Example.default_config Posix.ops (Example.env [] 200 (pyb "PNG")) false
      (Example.timed 150)
    = (inl (AttributeError (py "'NoneType' object has no attribute 'decode'")), s') /\
    fs s' !! py "/w/docs/diagrams/out/A.png" = Some (File (py "PNG") 1000).
Proof.
  destruct (server_answer_written_then_error Example.default_config Posix.ops
              (Example.env [] 200 (pyb "PNG")) (Example.timed 150) false (pyb "PNG")
              (py "PNG")) as (s' & H & Hfs).
  - reflexivity.
  - reflexivity.
  - reflexivity.
  - reflexivity.
  - vm_compute. repeat (constructor; [reflexivity|]). constructor.
  - vm_compute. discriminate.
  - vm_compute. reflexivity.
  - exists s'. split; [exact H|]. rewrite Hfs. apply lookup_insert_eq.
Defined.

(** A source directory that holds only [notes.txt], with the filter [puml]. *)
Lemma build_without_matching_files_witness :
  let config := {| render := py "server"; server := []; bin_path := [];
                   disable_ssl_certificate_validation := false;
                   output_format := py "png"; allow_multiple_roots := false;
                   diagram_root := py "docs/diagrams"; output_folder := py "out";
                   output_in_dir := false; input_folder := py "src";
                   input_extensions := py "puml";
                   theme_enabled := false; theme_folder := []; theme_light := [];
                   theme_dark := []; prettify_svg := false |} in
  let s := Example.initial Example.dirs in
  on_pre_build config Posix.ops (Example.env [py "notes.txt"] 200 []) 10 s
  = (inr tt, set_stdout [py "root dir: /w/docs/diagrams, src dir: /w/docs/diagrams/src"] s).
Proof.
  intros config s.
  apply (build_without_matching_files config Posix.ops
           (Example.env [py "notes.txt"] 200 []) 10 s).
  - reflexivity.
  - intros entry f Hentry Hf. vm_compute in Hentry.
    destruct Hentry as [<-|[]]. destruct Hf as [<-|[]]. reflexivity.
Defined.

(** The tree of the examples, walked from [/w]: its directories are
    [/w/docs], [/w/docs/diagrams], [/w/docs/diagrams/out] and
    [/w/docs/diagrams/src]. None of these paths ends with [docs/uml], and
    the build does nothing; [/w/docs/diagrams] ends with [docs/diagrams],
    and with that root the build finds it. *)
Lemma build_without_diagram_root_witness :
  let s := Example.initial Example.dirs in
  let E := Samples.env_tree in
  List.map (fun entry => entry.1) (walk E (fs s) (cwd E))
  = [(py "/w", [py "docs"]); (py "/w/docs", [py "diagrams"]);
     (py "/w/docs/diagrams", [py "out"; py "src"]);
     (py "/w/docs/diagrams/out", []); (py "/w/docs/diagrams/src", [])] /\
  on_pre_build (Samples.multi_root_config (py "docs/uml")) Posix.ops E 10 s = (inr tt, s) /\
  stdout (on_pre_build (Samples.multi_root_config (py "docs/diagrams")) Posix.ops E 10 s).2
  = [py "root dir: /w/docs/diagrams, src dir: /w/docs/diagrams/src"].
Proof.
  intros s E. split; [vm_compute; reflexivity|]. split; [|vm_compute; reflexivity].
  apply (build_without_diagram_root (Samples.multi_root_config (py "docs/uml")) Posix.ops
           E 10 s).
  - reflexivity.
  - intros entry d Hentry Hd. vm_compute in Hentry.
    repeat (destruct Hentry as [<-|Hentry];
            [vm_compute in Hd;
             repeat (destruct Hd as [<-|Hd]; [vm_compute; reflexivity|]); destruct Hd|]).
    destruct Hentry.
Defined.

(** ** The characters of a token *)

Section Token.

Lemma existsb_In (x : N) (l : str) : existsb (N.eqb x) l = true -> In x l.
Proof.
  intros H. apply existsb_exists in H as (y & Hy & Heq).
  apply N.eqb_eq in Heq. subst y. exact Hy.
Qed.

Lemma translate_token_char c :
  In c (pad :: rfc4648_alphabet) ->
  token_char (Byte.to_N (nth (N.to_nat (Byte.to_N c)) b64_to_plantuml c)).
Proof.
  intros H. cbv [pad rfc4648_alphabet pyb list_ascii_of_string List.map In] in H.
  repeat (destruct H as [<-|H]; [apply existsb_In; vm_compute; reflexivity|]).
  contradiction.
Qed.

Lemma translate_token_chars cs :
  b64_text cs -> Forall token_char (List.map Byte.to_N (translate b64_to_plantuml cs)).
Proof.
  induction 1 as [|c cs Hc _ IH]; [constructor|].
  cbn [translate List.map]. constructor; [apply translate_token_char; exact Hc | exact IH].
Qed.

Lemma b64encode_length bs : length (b64encode bs) = (4 * ((length bs + 2) / 3))%nat.
Proof.
  induction bs as [|x|x y|x y z t IH] using bytes_ind3; cbn [b64encode length];
    try reflexivity.
  rewrite IH.
  replace (S (S (S (length t))) + 2)%nat with ((length t + 2) + 1 * 3)%nat by lia.
  rewrite Nat.div_add by lia. lia.
Qed.

(** X23: the shape of a token. When the text has a UTF-8 encoding and
    the compressor returns, the encoding step of [_readFile] yields a
    token (its last step, decoding the translated base64 text, cannot
    fail); every character of the token is one of the 64 characters of the
    PlantUML alphabet or the padding character [=], which the alphabet map
    leaves as it is; and the token has four characters for every three
    bytes, or part of three bytes, of the stream without its header and
    trailer. *)
Theorem token_shape (compress : bytes -> exn + bytes) (text : str) (data z : bytes) :
  utf8_encode text = inr data ->
  compress data = inr z ->
  exists token,
    plantuml_encode compress text = inr token /\
    Forall token_char token /\
    length token = (4 * ((length (slice_2_m4 z) + 2) / 3))%nat.
Proof.
  intros Hdata Hz. set (cs := b64encode (slice_2_m4 z)).
  pose proof (translate_ascii cs (b64encode_text _)) as Hascii.
  exists (List.map Byte.to_N (translate b64_to_plantuml cs)). split; [|split].
  - unfold plantuml_encode. rewrite Hdata, Hz. fold cs.
    unfold decode_utf8. rewrite ascii_decode by exact Hascii. reflexivity.
  - apply translate_token_chars, b64encode_text.
  - unfold translate. rewrite !length_map. apply b64encode_length.
Qed.

End Token.

(** The token of [A.puml], with a compressor of stored blocks. *)
Lemma token_shape_witness :
  exists token,
    plantuml_encode Example.stored_compress Example.alice = inr token /\
    Forall token_char token /\ length token = 48%nat.
Proof.
  edestruct (token_shape Example.stored_compress Example.alice) as (token & H & Hc & Hlen).
  - vm_compute. reflexivity.
  - vm_compute. reflexivity.
  - exists token. split; [exact H|]. split; [exact Hc|]. rewrite Hlen. vm_compute. reflexivity.
Defined.

(** ** A malformed [!includesub], wherever it is *)

Section Batch.
Context (config : Config) (P : PathOps) (E : Env).

(** [on_pre_build] is its two statements. *)
Lemma on_pre_build_parts depth :
  on_pre_build config P E depth
  = (roots <- find_diagram_roots config P E ;;
     for_each roots (process_root config P E depth)).
Proof. reflexivity. Qed.

Lemma preprocess_includes_from_app i a b :
  preprocess_includes_from i (a ++ b)
  = preprocess_includes_from i a ++ preprocess_includes_from (i + length a) b.
Proof.
  revert i. induction a as [|x a IH]; intros i; cbn [app preprocess_includes_from length].
  - rewrite Nat.add_0_r. reflexivity.
  - rewrite IH, <- Nat.add_succ_comm.
    destruct (prefixmatch re_include_prefix (strip x)); reflexivity.
Qed.

(** A loop stops at the first body that raises. *)
Lemma for_each_fails {A} (pre post : list A) (body : A -> M unit) s e s' :
  for_each pre body s = (inl e, s') -> for_each (pre ++ post) body s = (inl e, s').
Proof.
  revert s. induction pre as [|x pre IH]; intros s H; [discriminate|].
  cbn [app for_each] in *. unfold bind in *.
  destruct (body x s) as [[e0|[]] s0]; [exact H|]. apply IH. exact H.
Qed.

Lemma for_each_stops {A} (pre post : list A) (x : A) (body : A -> M unit) s s1 e s2 :
  for_each pre body s = (inr tt, s1) -> body x s1 = (inl e, s2) ->
  for_each (pre ++ x :: post) body s = (inl e, s2).
Proof.
  revert s. induction pre as [|y pre IH]; intros s H Hx.
  - injection H as <-. apply for_each_raise. exact Hx.
  - cbn [app for_each] in *. unfold bind in *.
    destruct (body y s) as [[e0|[]] s0]; [discriminate|]. apply IH; assumption.
Qed.

(** Flattening a list that holds a malformed line, at any place: the
    directives before it are processed, and then the line raises. *)
Lemma readFileRecursively_malformed depth (lines : loc) dir dark st pre x post :
  heap st !! lines = Some (pre ++ x :: post) ->
  match_dollar re_includesub (strip x) = true ->
  length (str_split 33 (strip (drop 11 (strip x)))) <> 2%nat ->
  _readFileRecursively config P (S depth) lines dir dark st =
    match process_includes (_readIncludeLine config P (_readFileRecursively config P depth))
            (preprocess_includes pre) lines dir dark st with
    | (inl e, st') => (inl e, st')
    | (inr _, st1) => (inl invalid_includesub, st1)
    end.
Proof.
  intros Hheap Hsub Hlen. cbn [_readFileRecursively].
  erewrite bind_inr by (unfold read_list; rewrite Hheap; reflexivity).
  unfold preprocess_includes. rewrite preprocess_includes_from_app.
  cbn [preprocess_includes_from]. rewrite (includesub_is_include _ Hsub).
  unfold process_includes.
  match goal with |- context [for_each (?a ++ ?b :: ?c) ?f] =>
    set (before := a); set (bad := b); set (after := c); set (body := f) end.
  assert (Hbad : forall st1, body bad st1 = (inl invalid_includesub, st1)).
  { intros st1. unfold body, bad. cbn [fst snd]. apply bind_inl.
    apply readIncludeLine_malformed; assumption. }
  destruct (for_each before body st) as [[e|[]] st1] eqn:Hbefore.
  - apply bind_inl. apply for_each_fails. exact Hbefore.
  - apply bind_inl. apply (for_each_stops before after bad body st st1 _ _ Hbefore (Hbad st1)).
Qed.

Lemma readFile_malformed depth dark st (l : loc) pre x post :
  src_file (diagram st) = Some l ->
  heap st !! l = Some (pre ++ x :: post) ->
  match_dollar re_includesub (strip x) = true ->
  length (str_split 33 (strip (drop 11 (strip x)))) <> 2%nat ->
  exists e st',
    _readFile config P E (S depth) dark st = (inl e, st') /\
    (e = invalid_includesub \/
     exists lines dir st0,
       process_includes (_readIncludeLine config P (_readFileRecursively config P depth))
         (preprocess_includes pre) lines dir dark st0 = (inl e, st')).
Proof.
  intros Hsrc Hheap Hsub Hlen.
  set (st1 := set_heap (<[next_loc st := pre ++ x :: post]> (heap st)) (S (next_loc st))
                (set_stdout (stdout st ++ [py "Processing diagram " ++ file (diagram st)]) st)).
  assert (Hflat : flatten_source config P (S depth) dark st
                  = _readFileRecursively config P (S depth) (next_loc st)
                      (directory (diagram st)) dark st1).
  { unfold flatten_source.
    unfold bind at 1. unfold get_diagram at 1.
    unfold bind at 1. unfold print at 1. rewrite Hsrc.
    unfold bind at 1. unfold bind at 1. unfold read_list at 1.
    cbn [heap set_stdout]. rewrite Hheap. unfold new_list at 1.
    reflexivity. }
  rewrite (readFileRecursively_malformed depth (next_loc st) _ dark st1 pre x post) in Hflat;
    [|unfold st1; cbn; apply lookup_insert_eq|assumption|assumption].
  destruct (process_includes _ (preprocess_includes pre) (next_loc st) _ dark st1)
    as [[e|u] st2] eqn:Hproc.
  - exists e, st2. split.
    + unfold _readFile. apply bind_inl. exact Hflat.
    + right. eauto.
  - exists invalid_includesub, st2. split.
    + unfold _readFile. apply bind_inl. exact Hflat.
    + left. reflexivity.
Qed.

(** Processing a file that holds a malformed line raises before anything
    is rendered for it. *)
Lemma process_file_malformed depth root subdir fname st content t pre x post :
  fs st !! path_join P subdir fname = Some (File content t) ->
  readlines content = pre ++ x :: post ->
  match_dollar re_includesub (strip x) = true ->
  length (str_split 33 (strip (drop 11 (strip x)))) <> 2%nat ->
  exists e st',
    process_file config P E (S depth) root subdir fname st = (inl e, st') /\
    fs st' = fs st /\
    (e = invalid_includesub \/
     exists lines dir st0,
       process_includes (_readIncludeLine config P (_readFileRecursively config P depth))
         (preprocess_includes pre) lines dir false st0 = (inl e, st')).
Proof.
  intros Hfile Hlines Hsub Hlen.
  destruct (load_diagram_ok config P E root subdir fname st content t Hfile)
    as (d' & Hload & Hsrc & _).
  match type of Hload with _ = (_, ?s) => set (st3 := s) in * end.
  destruct (readFile_malformed depth false st3 (next_loc st) pre x post)
    as (e & st' & Hread & He); try assumption.
  { unfold st3. cbn. rewrite lookup_insert_eq, Hlines. reflexivity. }
  exists e, st'. split; [|split; [|exact He]].
  - unfold process_file. rewrite (bind_inr _ _ _ _ _ Hload). apply bind_inl. exact Hread.
  - transitivity (fs st3); [|reflexivity].
    exact (fs_readFile config P E (S depth) false st3 _ st' Hread).
Qed.

End Batch.

(** C9 (amended): a line [!includesub <filepath>] without the
    [!<sub_name>] separator raises a descriptive format error that is not
    confined to its diagram. For any line that matches the [!includesub]
    pattern and whose argument does not split at [!] into exactly two
    parts, [_readIncludeLine] raises
    [Exception("Invalid !includesub syntax. ...")] and changes nothing.
    Wherever such a line is in a list of lines, flattening the list
    processes the directives before it and then raises: that error, unless
    one of those directives has raised first. And wherever a file with
    such a line is in the batch (in any diagram root, any directory of the
    walk, after any files): when the roots, directories and files before it
    have been processed, [on_pre_build] ends with the exception that
    processing this file raises, which is the format error unless an
    earlier directive of the file has raised; the file system is then as
    the files before left it: their outputs stay, and nothing is processed
    or written for this diagram nor for any that follows. *)
Theorem malformed_includesub_ends_batch (config : Config) (P : PathOps) (E : Env)
    (depth : nat) :
  (forall rec line temp_file directory dark_mode st,
     match_dollar re_includesub line = true ->
     length (str_split 33 (strip (drop 11 line))) <> 2%nat ->
     _readIncludeLine config P rec line temp_file directory dark_mode st
     = (inl invalid_includesub, st)) /\
  (forall (lines : loc) directory dark_mode st pre x post,
     heap st !! lines = Some (pre ++ x :: post) ->
     match_dollar re_includesub (strip x) = true ->
     length (str_split 33 (strip (drop 11 (strip x)))) <> 2%nat ->
     _readFileRecursively config P (S depth) lines directory dark_mode st =
       match process_includes
               (_readIncludeLine config P (_readFileRecursively config P depth))
               (preprocess_includes pre) lines directory dark_mode st with
       | (inl e, st') => (inl e, st')
       | (inr _, st1) => (inl invalid_includesub, st1)
       end) /\
  (forall s s_r s0 s0' s1 roots_before root roots_after entries_before subdir dirs
          files_before fname files_after entries_after content t pre x post,
     find_diagram_roots config P E s = (inr (roots_before ++ root :: roots_after), s_r) ->
     for_each roots_before (process_root config P E (S depth)) s_r = (inr tt, s0) ->
     walk E (fs s0) (DiagramRoot.src_dir root)
     = entries_before ++ (subdir, dirs, files_before ++ fname :: files_after)
                           :: entries_after ->
     for_each entries_before (process_entry config P E (S depth) root) s0 = (inr tt, s0') ->
     for_each files_before (process_one config P E (S depth) root subdir) s0'
     = (inr tt, s1) ->
     _file_matches_extension config fname = true ->
     fs s1 !! path_join P subdir fname = Some (File content t) ->
     readlines content = pre ++ x :: post ->
     match_dollar re_includesub (strip x) = true ->
     length (str_split 33 (strip (drop 11 (strip x)))) <> 2%nat ->
     exists e s',
       on_pre_build config P E (S depth) s = (inl e, s') /\
       process_file config P E (S depth) root subdir fname s1 = (inl e, s') /\
       fs s' = fs s1 /\
       (e = invalid_includesub \/
        exists lines directory st,
          process_includes
            (_readIncludeLine config P (_readFileRecursively config P depth))
            (preprocess_includes pre) lines directory false st = (inl e, s')) /\
       (Forall plain_line pre -> e = invalid_includesub)).
Proof.
  split; [|split].
  - intros rec line temp_file directory dark_mode st Hsub Hlen.
    apply readIncludeLine_malformed; assumption.
  - intros lines directory dark_mode st pre x post Hheap Hsub Hlen.
    apply (readFileRecursively_malformed config P depth lines directory dark_mode st
             pre x post Hheap Hsub Hlen).
  - intros s s_r s0 s0' s1 roots_before root roots_after entries_before subdir dirs
           files_before fname files_after entries_after content t pre x post
           Hroots Hrb Hwalk Heb Hfb Hext Hfile Hlines Hsub Hlen.
    destruct (process_file_malformed config P E depth root subdir fname s1 content t
                pre x post Hfile Hlines Hsub Hlen) as (e & s' & Hrun & Hfs & He).
    exists e, s'. split; [|split; [exact Hrun|split; [exact Hfs|split; [exact He|]]]].
    + rewrite on_pre_build_parts. rewrite (bind_inr _ _ _ _ _ Hroots).
      apply (for_each_stops roots_before roots_after root _ s_r s0 e s' Hrb).
      unfold process_root. erewrite bind_inr by reflexivity. rewrite Hwalk.
      apply (for_each_stops entries_before entries_after _ _ s0 s0' e s' Heb).
      unfold process_entry. cbn [fst snd].
      apply (for_each_stops files_before files_after fname _ s0' s1 e s' Hfb).
      unfold process_one. rewrite Hext. exact Hrun.
    + intros Hplain. destruct He as [He|(lines & directory & st & Hproc)]; [exact He|].
      unfold preprocess_includes in Hproc.
      rewrite (preprocess_includes_plain 0 pre Hplain) in Hproc. discriminate.
Qed.

(** The batch of [A.puml] and [Bad.puml], in this order: [A.puml] is
    rendered, and the build ends at [Bad.puml]. *)
Lemma malformed_includesub_ends_batch_witness :
  let config := Example.local_config in
  let E := Example.env [py "A.puml"; py "Bad.puml"] 200 [] in
  exists s',
    on_pre_build config Posix.ops E 10 (Example.initial Example.bad_tree)
    = (inl invalid_includesub, s') /\
    fs s' !! py "/w/docs/diagrams/out/A.png" <> None /\
    fs s' !! py "/w/docs/diagrams/out/Bad.png" = None.
Proof.
  intros config E.
  set (s := Example.initial Example.bad_tree).
  set (r0 := find_diagram_roots config Posix.ops E s).
  set (r1 := for_each [py "A.puml"]
               (process_one config Posix.ops E 10 Example.root Example.src_dir) r0.2).
  assert (H0 : r0.1 = inr [Example.root]) by (vm_compute; reflexivity).
  assert (H1 : r1.1 = inr tt) by (vm_compute; reflexivity).
  assert (Hwalk : walk E (fs r0.2) (DiagramRoot.src_dir Example.root)
                  = [] ++ (Example.src_dir, [], [py "A.puml"] ++ py "Bad.puml" :: []) :: [])
    by (vm_compute; reflexivity).
  assert (Hext : _file_matches_extension config (py "Bad.puml") = true)
    by (vm_compute; reflexivity).
  assert (Hfile : fs r1.2 !! path_join Posix.ops Example.src_dir (py "Bad.puml")
                  = Some (File Example.bad 50%Z)) by (vm_compute; reflexivity).
  assert (Hlines : readlines Example.bad
                   = [py "@startuml" ++ [10]] ++ (py "!includesub foo.puml" ++ [10])
                       :: [py "@enduml" ++ [10]]) by (vm_compute; reflexivity).
  assert (Hsub : match_dollar re_includesub (strip (py "!includesub foo.puml" ++ [10])) = true)
    by (vm_compute; reflexivity).
  assert (Hlen : length (str_split 33 (strip (drop 11
                   (strip (py "!includesub foo.puml" ++ [10]))))) <> 2%nat)
    by (vm_compute; lia).
  destruct (proj2 (proj2 (malformed_includesub_ends_batch config Posix.ops E 9))
              s r0.2 r0.2 r0.2 r1.2 [] Example.root [] [] Example.src_dir []
              [py "A.puml"] (py "Bad.puml") [] [] Example.bad 50%Z
              [py "@startuml" ++ [10]] (py "!includesub foo.puml" ++ [10])
              [py "@enduml" ++ [10]]
              (eq_trans (surjective_pairing r0) (f_equal (fun x => (x, r0.2)) H0))
              eq_refl Hwalk eq_refl
              (eq_trans (surjective_pairing r1) (f_equal (fun x => (x, r1.2)) H1))
              Hext Hfile Hlines Hsub Hlen)
    as (e & s' & Hrun & _ & Hfs & _ & He).
  exists s'. rewrite He in Hrun by (constructor; [vm_compute; reflexivity | constructor]).
  split; [exact Hrun|]. rewrite Hfs. split; vm_compute; [discriminate | reflexivity].
Defined.
